(** * PF400 robot client: a shallow embedding of [robot_client/pf400_client.py]

    The client drives a PF400 arm with ASCII command lines, one TCP socket per
    command.  Each method of the Python class [PF400] becomes a definition of
    the same name.  Methods that only format text are pure functions of the
    object; methods that talk to the robot live in a small state-and-exception
    monad whose state holds the object's fields together with the network:
    what each successive socket will do, and the socket events seen so far.
    A text is carried by its UTF-8 bytes.  Where the source elides the end of
    a statement (line 335, in [pick_plate_ot2]), what is elided is a parameter
    of the definition. *)

From Stdlib Require Import ZArith String Ascii List DecimalString Lia.
From Stdlib Require DecimalPos.
From stdpp Require Import gmap strings list.

Open Scope Z_scope.
Open Scope string_scope.

(** * Part I: the embedding *)

(** ** Python values used by the client *)

(** A JSON number is loaded as an [int] or as a [float].  The client never
    computes with a joint value or a profile parameter: it only prints it with
    [str].  A float is therefore carried by the text [str] gives for it. *)
Inductive number :=
| NInt (z : Z)
| NFloat (repr : string).

(** Exceptions that the methods can raise.  [socket.error] is [OSError];
    [UnboundLocalError] is a subclass of [NameError], [UnicodeDecodeError] of
    [ValueError]; none of the others is an [OSError]. *)
Inductive exn :=
| Exception (msg : string)
| SocketError
| AttributeError
| KeyError (key : string)
| IndexError
| ValueError
| UnicodeDecodeError
| UnboundLocalError (var : string).

Inductive result (A : Type) :=
| Ok (a : A)
| Raise (e : exn).
Arguments Ok {A} a.
Arguments Raise {A} e.

Definition is_name_error (e : exn) : bool :=
  match e with UnboundLocalError _ => true | _ => false end.

(** [except socket.error] *)
Definition is_socket_error (e : exn) : bool :=
  match e with SocketError => true | _ => false end.

(** [except Exception]: every exception of the model derives from it. *)
Definition is_exception (e : exn) : bool := true.

(** ** Text *)

(** A text, a Python [str], is carried by the bytes of its UTF-8 encoding.
    Joining texts, comparing them and cutting them at an ASCII character are
    then the operations on the bytes; [upper] and [int], which look at
    characters, first read the code points back. *)

Definition nl : string := String "010"%char "".
Definition space : ascii := " "%char.

(** [str(i)] for an [int] *)
Definition str_int (z : Z) : string := NilZero.string_of_int (Z.to_int z).

(** [str(v)] for a number *)
Definition str (v : number) : string :=
  match v with
  | NInt z => str_int z
  | NFloat repr => repr
  end.

(** *** Code points *)

Definition between (lo hi b : N) : bool := ((lo <=? b) && (b <=? hi))%N.

Definition continuation (b : N) : bool := between 128 191 b.

(** The code point of a well-formed sequence of two, three or four bytes:
    a lead byte C2..DF, E0..EF or F0..F4 and continuation bytes 80..BF, where
    the first continuation byte starts at A0 after E0 and at 90 after F0, and
    ends at 9F after ED and at 8F after F4. *)
Definition two_bytes (b0 b1 : N) : option N :=
  if between 194 223 b0 && continuation b1
  then Some ((b0 - 192) * 64 + (b1 - 128))%N
  else None.

Definition three_bytes (b0 b1 b2 : N) : option N :=
  if between 224 239 b0
     && between (if (b0 =? 224)%N then 160 else 128)
                (if (b0 =? 237)%N then 159 else 191) b1
     && continuation b2
  then Some ((b0 - 224) * 4096 + (b1 - 128) * 64 + (b2 - 128))%N
  else None.

Definition four_bytes (b0 b1 b2 b3 : N) : option N :=
  if between 240 244 b0
     && between (if (b0 =? 240)%N then 144 else 128)
                (if (b0 =? 244)%N then 143 else 191) b1
     && continuation b2 && continuation b3
  then Some ((b0 - 240) * 262144 + (b1 - 128) * 4096 + (b2 - 128) * 64 + (b3 - 128))%N
  else None.

(** A byte on its own: an ASCII character, or a byte that is not UTF-8 where
    it stands.  Such a byte belongs to no text; it is carried as the code
    point U+DC00 + byte, which no text holds. *)
Definition lone_byte (b : N) : N := if (b <? 128)%N then b else (56320 + b)%N.

Fixpoint code_points (s : string) : list N :=
  match s with
  | EmptyString => []
  | String c0 s1 =>
      let b0 := N_of_ascii c0 in
      let alone := lone_byte b0 :: code_points s1 in
      match s1 with
      | String c1 s2 =>
          match two_bytes b0 (N_of_ascii c1) with
          | Some cp => cp :: code_points s2
          | None =>
              match s2 with
              | String c2 s3 =>
                  match three_bytes b0 (N_of_ascii c1) (N_of_ascii c2) with
                  | Some cp => cp :: code_points s3
                  | None =>
                      match s3 with
                      | String c3 s4 =>
                          match four_bytes b0 (N_of_ascii c1) (N_of_ascii c2)
                                  (N_of_ascii c3) with
                          | Some cp => cp :: code_points s4
                          | None => alone
                          end
                      | EmptyString => alone
                      end
                  end
              | EmptyString => alone
              end
          end
      | EmptyString => alone
      end
  end.

(** The bytes of a code point. *)
Definition utf8 (cp : N) : list N :=
  (if cp <? 128 then [cp]
   else if cp <? 2048 then [192 + cp / 64; 128 + cp mod 64]
   else if between 56448 56575 cp then [cp - 56320]
   else if cp <? 65536
        then [224 + cp / 4096; 128 + (cp / 64) mod 64; 128 + cp mod 64]
   else [240 + cp / 262144; 128 + (cp / 4096) mod 64; 128 + (cp / 64) mod 64;
         128 + cp mod 64])%N.

Definition encode (cps : list N) : string :=
  string_of_list_ascii (map ascii_of_N (flat_map utf8 cps)).

(** *** Upper case *)

(** The upper-case mappings of Unicode 14.0, which [str.upper] applies
    character by character.  [(first, last, step, target)] maps every
    [step]-th code point from [first] to [last] onto the code points that
    start at [target]; the special mappings give more than one code point. *)
Definition upper_runs : list (N * N * N * N) :=
  [(97, 122, 1, 65); (181, 181, 1, 924); (224, 246, 1, 192); (248, 254, 1, 216);
   (255, 255, 1, 376); (257, 303, 2, 256); (305, 305, 1, 73); (307, 311, 2, 306);
   (314, 328, 2, 313); (331, 375, 2, 330); (378, 382, 2, 377); (383, 383, 1, 83);
   (384, 384, 1, 579); (387, 389, 2, 386); (392, 392, 1, 391); (396, 396, 1, 395);
   (402, 402, 1, 401); (405, 405, 1, 502); (409, 409, 1, 408); (410, 410, 1, 573);
   (414, 414, 1, 544); (417, 421, 2, 416); (424, 424, 1, 423); (429, 429, 1, 428);
   (432, 432, 1, 431); (436, 438, 2, 435); (441, 441, 1, 440); (445, 445, 1, 444);
   (447, 447, 1, 503); (453, 453, 1, 452); (454, 454, 1, 452); (456, 456, 1, 455);
   (457, 457, 1, 455); (459, 459, 1, 458); (460, 460, 1, 458); (462, 476, 2, 461);
   (477, 477, 1, 398); (479, 495, 2, 478); (498, 498, 1, 497); (499, 499, 1, 497);
   (501, 501, 1, 500); (505, 543, 2, 504); (547, 563, 2, 546); (572, 572, 1, 571);
   (575, 576, 1, 11390); (578, 578, 1, 577); (583, 591, 2, 582); (592, 592, 1, 11375);
   (593, 593, 1, 11373); (594, 594, 1, 11376); (595, 595, 1, 385); (596, 596, 1, 390);
   (598, 599, 1, 393); (601, 601, 1, 399); (603, 603, 1, 400); (604, 604, 1, 42923);
   (608, 608, 1, 403); (609, 609, 1, 42924); (611, 611, 1, 404); (613, 613, 1, 42893);
   (614, 614, 1, 42922); (616, 616, 1, 407); (617, 617, 1, 406); (618, 618, 1, 42926);
   (619, 619, 1, 11362); (620, 620, 1, 42925); (623, 623, 1, 412); (625, 625, 1, 11374);
   (626, 626, 1, 413); (629, 629, 1, 415); (637, 637, 1, 11364); (640, 640, 1, 422);
   (642, 642, 1, 42949); (643, 643, 1, 425); (647, 647, 1, 42929); (648, 648, 1, 430);
   (649, 649, 1, 580); (650, 651, 1, 433); (652, 652, 1, 581); (658, 658, 1, 439);
   (669, 669, 1, 42930); (670, 670, 1, 42928); (837, 837, 1, 921); (881, 883, 2, 880);
   (887, 887, 1, 886); (891, 893, 1, 1021); (940, 940, 1, 902); (941, 943, 1, 904);
   (945, 961, 1, 913); (962, 962, 1, 931); (963, 971, 1, 931); (972, 972, 1, 908);
   (973, 974, 1, 910); (976, 976, 1, 914); (977, 977, 1, 920); (981, 981, 1, 934);
   (982, 982, 1, 928); (983, 983, 1, 975); (985, 1007, 2, 984); (1008, 1008, 1, 922);
   (1009, 1009, 1, 929); (1010, 1010, 1, 1017); (1011, 1011, 1, 895); (1013, 1013, 1, 917);
   (1016, 1016, 1, 1015); (1019, 1019, 1, 1018); (1072, 1103, 1, 1040); (1104, 1119, 1, 1024);
   (1121, 1153, 2, 1120); (1163, 1215, 2, 1162); (1218, 1230, 2, 1217); (1231, 1231, 1, 1216);
   (1233, 1327, 2, 1232); (1377, 1414, 1, 1329); (4304, 4346, 1, 7312); (4349, 4351, 1, 7357);
   (5112, 5117, 1, 5104); (7296, 7296, 1, 1042); (7297, 7297, 1, 1044); (7298, 7298, 1, 1054);
   (7299, 7300, 1, 1057); (7301, 7301, 1, 1058); (7302, 7302, 1, 1066); (7303, 7303, 1, 1122);
   (7304, 7304, 1, 42570); (7545, 7545, 1, 42877); (7549, 7549, 1, 11363); (7566, 7566, 1, 42950);
   (7681, 7829, 2, 7680); (7835, 7835, 1, 7776); (7841, 7935, 2, 7840); (7936, 7943, 1, 7944);
   (7952, 7957, 1, 7960); (7968, 7975, 1, 7976); (7984, 7991, 1, 7992); (8000, 8005, 1, 8008);
   (8017, 8023, 2, 8025); (8032, 8039, 1, 8040); (8048, 8049, 1, 8122); (8050, 8053, 1, 8136);
   (8054, 8055, 1, 8154); (8056, 8057, 1, 8184); (8058, 8059, 1, 8170); (8060, 8061, 1, 8186);
   (8112, 8113, 1, 8120); (8126, 8126, 1, 921); (8144, 8145, 1, 8152); (8160, 8161, 1, 8168);
   (8165, 8165, 1, 8172); (8526, 8526, 1, 8498); (8560, 8575, 1, 8544); (8580, 8580, 1, 8579);
   (9424, 9449, 1, 9398); (11312, 11359, 1, 11264); (11361, 11361, 1, 11360); (11365, 11365, 1, 570);
   (11366, 11366, 1, 574); (11368, 11372, 2, 11367); (11379, 11379, 1, 11378); (11382, 11382, 1, 11381);
   (11393, 11491, 2, 11392); (11500, 11502, 2, 11499); (11507, 11507, 1, 11506); (11520, 11557, 1, 4256);
   (11559, 11559, 1, 4295); (11565, 11565, 1, 4301); (42561, 42605, 2, 42560); (42625, 42651, 2, 42624);
   (42787, 42799, 2, 42786); (42803, 42863, 2, 42802); (42874, 42876, 2, 42873); (42879, 42887, 2, 42878);
   (42892, 42892, 1, 42891); (42897, 42899, 2, 42896); (42900, 42900, 1, 42948); (42903, 42921, 2, 42902);
   (42933, 42947, 2, 42932); (42952, 42954, 2, 42951); (42961, 42961, 1, 42960); (42967, 42969, 2, 42966);
   (42998, 42998, 1, 42997); (43859, 43859, 1, 42931); (43888, 43967, 1, 5024); (65345, 65370, 1, 65313);
   (66600, 66639, 1, 66560); (66776, 66811, 1, 66736); (66967, 66977, 1, 66928); (66979, 66993, 1, 66940);
   (66995, 67001, 1, 66956); (67003, 67004, 1, 66964); (68800, 68850, 1, 68736); (71872, 71903, 1, 71840);
   (93792, 93823, 1, 93760); (125218, 125251, 1, 125184)]%N.

Definition upper_special : list (N * list N) :=
  [(223, [83; 83]); (329, [700; 78]); (496, [74; 780]);
   (912, [921; 776; 769]); (944, [933; 776; 769]); (1415, [1333; 1362]);
   (7830, [72; 817]); (7831, [84; 776]); (7832, [87; 778]);
   (7833, [89; 778]); (7834, [65; 702]); (8016, [933; 787]);
   (8018, [933; 787; 768]); (8020, [933; 787; 769]); (8022, [933; 787; 834]);
   (8064, [7944; 921]); (8065, [7945; 921]); (8066, [7946; 921]);
   (8067, [7947; 921]); (8068, [7948; 921]); (8069, [7949; 921]);
   (8070, [7950; 921]); (8071, [7951; 921]); (8072, [7944; 921]);
   (8073, [7945; 921]); (8074, [7946; 921]); (8075, [7947; 921]);
   (8076, [7948; 921]); (8077, [7949; 921]); (8078, [7950; 921]);
   (8079, [7951; 921]); (8080, [7976; 921]); (8081, [7977; 921]);
   (8082, [7978; 921]); (8083, [7979; 921]); (8084, [7980; 921]);
   (8085, [7981; 921]); (8086, [7982; 921]); (8087, [7983; 921]);
   (8088, [7976; 921]); (8089, [7977; 921]); (8090, [7978; 921]);
   (8091, [7979; 921]); (8092, [7980; 921]); (8093, [7981; 921]);
   (8094, [7982; 921]); (8095, [7983; 921]); (8096, [8040; 921]);
   (8097, [8041; 921]); (8098, [8042; 921]); (8099, [8043; 921]);
   (8100, [8044; 921]); (8101, [8045; 921]); (8102, [8046; 921]);
   (8103, [8047; 921]); (8104, [8040; 921]); (8105, [8041; 921]);
   (8106, [8042; 921]); (8107, [8043; 921]); (8108, [8044; 921]);
   (8109, [8045; 921]); (8110, [8046; 921]); (8111, [8047; 921]);
   (8114, [8122; 921]); (8115, [913; 921]); (8116, [902; 921]);
   (8118, [913; 834]); (8119, [913; 834; 921]); (8124, [913; 921]);
   (8130, [8138; 921]); (8131, [919; 921]); (8132, [905; 921]);
   (8134, [919; 834]); (8135, [919; 834; 921]); (8140, [919; 921]);
   (8146, [921; 776; 768]); (8147, [921; 776; 769]); (8150, [921; 834]);
   (8151, [921; 776; 834]); (8162, [933; 776; 768]); (8163, [933; 776; 769]);
   (8164, [929; 787]); (8166, [933; 834]); (8167, [933; 776; 834]);
   (8178, [8186; 921]); (8179, [937; 921]); (8180, [911; 921]);
   (8182, [937; 834]); (8183, [937; 834; 921]); (8188, [937; 921]);
   (64256, [70; 70]); (64257, [70; 73]); (64258, [70; 76]);
   (64259, [70; 70; 73]); (64260, [70; 70; 76]); (64261, [83; 84]);
   (64262, [83; 84]); (64275, [1348; 1350]); (64276, [1348; 1333]);
   (64277, [1348; 1339]); (64278, [1358; 1350]); (64279, [1348; 1341])]%N.

Definition to_upper (c : N) : list N :=
  match find (fun item => (fst item =? c)%N) upper_special with
  | Some (_, mapped) => mapped
  | None =>
      match find (fun '(first, last, step, _) =>
                    between first last c && ((c - first) mod step =? 0)%N)
                 upper_runs with
      | Some (first, _, _, target) => [(target + (c - first))%N]
      | None => [c]
      end
  end.

(** [s.upper()] *)
Definition upper (s : string) : string := encode (flat_map to_upper (code_points s)).

(** [s.split(sep)] with an explicit one-character separator: every occurrence
    cuts, so leading, trailing and doubled separators give empty fields. *)
Fixpoint str_split (sep : ascii) (s : string) : list string :=
  match s with
  | EmptyString => [EmptyString]
  | String c s' =>
      if Ascii.eqb c sep then EmptyString :: str_split sep s'
      else match str_split sep s' with
           | t :: ts => String c t :: ts
           | [] => [String c EmptyString]
           end
  end.

(** *** Integer literals *)

(** The white space of Unicode from U+007F on, and the digit zero of every
    script that has decimal digits (Unicode 14.0): the nine digits after a
    zero follow it. *)
Definition unicode_spaces : list N :=
  [133; 160; 5760; 8192; 8193; 8194; 8195; 8196; 8197; 8198; 8199; 8200; 8201;
   8202; 8232; 8233; 8239; 8287; 12288]%N.

Definition decimal_zeros : list N :=
  [48; 1632; 1776; 1984; 2406; 2534; 2662; 2790; 2918; 3046;
   3174; 3302; 3430; 3558; 3664; 3792; 3872; 4160; 4240; 6112;
   6160; 6470; 6608; 6784; 6800; 6992; 7088; 7232; 7248; 42528;
   43216; 43264; 43472; 43504; 43600; 44016; 65296; 66720; 68912; 69734;
   69872; 69942; 70096; 70384; 70736; 70864; 71248; 71360; 71472; 71904;
   72016; 72784; 73040; 73120; 92768; 92864; 93008; 120782; 120792; 120802;
   120812; 120822; 123200; 123632; 125264; 130032]%N.

Definition decimal_value (c : N) : option N :=
  match find (fun zero => between zero (zero + 9) c) decimal_zeros with
  | Some zero => Some (c - zero)%N
  | None => None
  end.

(** What [int] makes of a character before it reads the literal: an ASCII
    character other than DEL stays, white space becomes a space, a decimal
    digit of any script becomes the ASCII digit, anything else cannot be part
    of a literal. *)
Definition int_character (c : N) : ascii :=
  if (c <? 127)%N then ascii_of_N c
  else if bool_decide (c ∈ unicode_spaces) then " "%char
  else match decimal_value c with
       | Some d => ascii_of_N (48 + d)
       | None => "?"%char
       end.

(** The white space that [int] strips from the ends of the literal. *)
Definition is_py_space (c : ascii) : bool :=
  let n := nat_of_ascii c in
  (((9 <=? n) && (n <=? 13)) || (n =? 32))%nat.

Definition digit_of (c : ascii) : option Z :=
  let n := nat_of_ascii c in
  if ((48 <=? n) && (n <=? 57))%nat then Some (Z.of_nat (n - 48)) else None.

Fixpoint lstrip (s : list ascii) : list ascii :=
  match s with
  | c :: s' => if is_py_space c then lstrip s' else s
  | [] => []
  end.

Definition strip (s : list ascii) : list ascii :=
  rev (lstrip (rev (lstrip s))).

(** Decimal digits, where single underscores may separate digits. *)
Fixpoint int_digits (acc : Z) (after_digit : bool) (s : list ascii) : option Z :=
  match s with
  | [] => if after_digit then Some acc else None
  | c :: s' =>
      match digit_of c with
      | Some d => int_digits (10 * acc + d) true s'
      | None =>
          if Ascii.eqb c "_"%char && after_digit
          then int_digits acc false s'
          else None
      end
  end.

(** [int(s)] for text [s], base 10; [ValueError] when [s] is not a literal. *)
Definition int (s : string) : result Z :=
  let body := strip (map int_character (code_points s)) in
  let parsed :=
    match body with
    | c :: rest =>
        if Ascii.eqb c "-"%char then Z.opp <$> int_digits 0 false rest
        else if Ascii.eqb c "+"%char then int_digits 0 false rest
        else int_digits 0 false body
    | [] => None
    end in
  match parsed with
  | Some z => Ok z
  | None => Raise ValueError
  end.

(** [enumerate(l)] *)
Fixpoint enumerate_from {A} (start : nat) (l : list A) : list (nat * A) :=
  match l with
  | [] => []
  | x :: l' => (start, x) :: enumerate_from (S start) l'
  end.

Definition enumerate {A} (l : list A) : list (nat * A) := enumerate_from 0 l.

(** ** The client object and the network *)

(** A [dict] read in insertion order, as [.items()] yields it; [len] is the
    number of items. *)
Definition dict := list (string * number).

(** What the socket opened by one call of [connect_robot] will do.  The bytes
    that [recv] returns either are UTF-8, and then [decode] gives a text, or
    are not, and then [decode] raises [UnicodeDecodeError]. *)
Inductive conn_script :=
| CreateFails            (* socket.socket raises socket.error *)
| ConnectFails           (* connect raises socket.error *)
| SendFails              (* send raises socket.error *)
| RecvFails              (* send goes through, recv raises socket.error *)
| Replies (text : string)(* recv returns bytes that decode to this text *)
| Undecodable            (* recv returns bytes that are not UTF-8 *).

Definition sock := nat.

(** [Received s text]: [recv] returned and its bytes decoded to [text];
    [Undecoded s]: [recv] returned and [decode] raised. *)
Inductive event :=
| Created (s : sock)
| Connected (s : sock) (host : string) (port : Z)
| Sent (s : sock) (data : string)
| Received (s : sock) (text : string)
| Undecoded (s : sock)
| Closed (s : sock).

(** The fields of the object set by [__init__], then the network: [net i] is
    the script of the [i]-th socket, [opened] counts the calls of
    [socket.socket] so far, [trace] lists the socket events, oldest first. *)
Record state := mkState {
  host : string;
  port : Z;
  motion_profile : list dict;
  location_dictionary : gmap string (list number);
  net : nat -> conn_script;
  opened : nat;
  trace : list event
}.

Definition set_location_dictionary (d : gmap string (list number)) (st : state) : state :=
  mkState (host st) (port st) (motion_profile st) d (net st) (opened st) (trace st).

Definition open_next (evs : list event) (st : state) : state :=
  mkState (host st) (port st) (motion_profile st) (location_dictionary st)
          (net st) (S (opened st)) (trace st ++ evs).

Definition record (evs : list event) (st : state) : state :=
  mkState (host st) (port st) (motion_profile st) (location_dictionary st)
          (net st) (opened st) (trace st ++ evs).

(** ** Motion command formatting *)

(** One turn of the loop of [set_move_command]. *)
Definition move_argument (grab release : bool) (robot_command : string)
    (item : nat * number) : string :=
  let '(count, location) := item in
  if grab && (count =? 4)%nat then robot_command +:+ " " +:+ str (NFloat "120.0")
  else if release && (count =? 4)%nat then robot_command +:+ " " +:+ str (NFloat "127.0")
  else robot_command +:+ " " +:+ str location.

Definition set_move_command (self : state) (robot_location : string) (profile : Z)
    (grab release : bool) : result string :=
  let prefix :=
    if (profile =? 1)%Z then Ok "MoveJ 1"
    else if (profile =? 2)%Z then Ok "MoveJ 2"
    else if (profile =? 3)%Z then Ok "MoveJ 3"
    else Raise (Exception "Please enter a valid motion profiile! 1 for slower movement, 2 for faster movement profile, 3 for modified profile") in
  match prefix with
  | Raise e => Raise e
  | Ok robot_command =>
      match location_dictionary self !! robot_location with
      | None => Raise (KeyError robot_location)
      | Some joints =>
          let robot_command :=
            fold_left (move_argument grab release) (enumerate joints) robot_command in
          Ok (robot_command +:+ nl)
      end
  end.

(** ** The monad of the methods that talk to the robot *)

Definition M (A : Type) : Type := state -> result A * state.

Definition ret {A} (a : A) : M A := fun st => (Ok a, st).

Definition raise {A} (e : exn) : M A := fun st => (Raise e, st).

Definition bind {A B} (m : M A) (k : A -> M B) : M B :=
  fun st =>
    match m st with
    | (Ok a, st') => k a st'
    | (Raise e, st') => (Raise e, st')
    end.

Declare Scope py_scope.
Delimit Scope py_scope with py.
Notation "x <- m ;; k" := (bind m (fun x => k))
  (at level 100, m at next level, right associativity) : py_scope.
Notation "m ;; k" := (bind m (fun _ => k))
  (at level 100, right associativity) : py_scope.
Open Scope py_scope.

Definition get : M state := fun st => (Ok st, st).

Definition lift {A} (r : result A) : M A := fun st => (r, st).

(** [try: body / except <catches> as err: handler / else: orelse].  A name
    bound in [body] stays in scope afterwards, so the value of the statement
    is what later code reads. *)
Definition try_except_else {A B} (body : M A) (catches : exn -> bool)
    (handler : exn -> M B) (orelse : A -> M B) : M B :=
  fun st =>
    match body st with
    | (Ok a, st') => orelse a st'
    | (Raise e, st') => if catches e then handler e st' else (Raise e, st')
    end.

(** [for x in xs: body x] *)
Fixpoint for_each {A} (xs : list A) (body : A -> M unit) : M unit :=
  match xs with
  | [] => ret tt
  | x :: xs' => body x ;; for_each xs' body
  end.

(** [list(map(f, xs))] for an [f] that may raise *)
Fixpoint map_result {A B} (f : A -> result B) (xs : list A) : result (list B) :=
  match xs with
  | [] => Ok []
  | x :: xs' =>
      match f x with
      | Raise e => Raise e
      | Ok y => match map_result f xs' with
                | Raise e => Raise e
                | Ok ys => Ok (y :: ys)
                end
      end
  end.

(** [l[i]] on a list, for [i >= 0] *)
Definition getitem {A} (l : list A) (i : nat) : M A :=
  match l !! i with
  | Some x => ret x
  | None => raise IndexError
  end.

(** [self.location_dictionary[key]] *)
Definition location (key : string) : M (list number) :=
  fun st =>
    match location_dictionary st !! key with
    | Some joints => (Ok joints, st)
    | None => (Raise (KeyError key), st)
    end.

(** ** Sockets *)

(** [connect_robot]: a failure of [socket.socket] is caught and logged, and the
    method then returns [None]; [connect] is called outside the [try]. *)
Definition connect_robot : M (option sock) :=
  fun st =>
    let s := opened st in
    match net st s with
    | CreateFails => (Ok None, open_next [] st)
    | ConnectFails => (Raise SocketError, open_next [Created s] st)
    | SendFails | RecvFails | Replies _ | Undecodable =>
        (Ok (Some s), open_next [Created s; Connected s (host st) (port st)] st)
    end.

(** [PF400.send(bytes(command.encode('ascii')))]; on [None] the attribute
    lookup fails.  The commands are ASCII literals joined with numbers as
    [str] prints them, so [encode] finds nothing to reject. *)
Definition send (PF400 : option sock) (command : string) : M unit :=
  fun st =>
    match PF400 with
    | None => (Raise AttributeError, st)
    | Some s =>
        match net st s with
        | RecvFails | Replies _ | Undecodable => (Ok tt, record [Sent s command] st)
        | CreateFails | ConnectFails | SendFails => (Raise SocketError, st)
        end
    end.

(** [PF400.recv(4096).decode("utf-8")]: [recv] may raise [socket.error];
    when it returns, [decode] may raise [UnicodeDecodeError]. *)
Definition recv (PF400 : option sock) : M string :=
  fun st =>
    match PF400 with
    | None => (Raise AttributeError, st)
    | Some s =>
        match net st s with
        | Replies text => (Ok text, record [Received s text] st)
        | Undecodable => (Raise UnicodeDecodeError, record [Undecoded s] st)
        | CreateFails | ConnectFails | SendFails | RecvFails => (Raise SocketError, st)
        end
    end.

(** [disconnect_robot]: [PF400.close()] *)
Definition disconnect_robot (PF400 : option sock) : M unit :=
  fun st =>
    match PF400 with
    | None => (Raise AttributeError, st)
    | Some s => (Ok tt, record [Closed s] st)
    end.

(** The statement every one-command method ends with:
    [try: send; recv; log / except socket.error: log / else: disconnect].  An
    exception that is not a [socket.error] leaves the statement: neither the
    handler nor the [else] branch runs. *)
Definition send_receive (PF400 : option sock) (command : string) : M unit :=
  try_except_else
    (send PF400 command ;; out_msg <- recv PF400 ;; ret out_msg)
    is_socket_error
    (fun err => ret tt)
    (fun out_msg => disconnect_robot PF400).

(** ** Lifecycle commands *)

(** [send_command] is left out, and with it [enable_power], [attach_robot],
    [home_robot] and [initialize_robot], which go through it: as committed it
    holds two copies of its body, the first [try] without a handler, and its
    callers pass it one or three arguments.  Calls of [self.logger] are left
    out everywhere: they touch neither the sockets nor the location table. *)

(** [command = name; for key, value in d.items(): command += ' ' + str(value);
    command += '\n'] *)
Definition profile_command (name : string) (d : dict) : string :=
  fold_left (fun command item => command +:+ " " +:+ str (snd item)) d name +:+ nl.

Definition set_profile (profile_dict : dict) : M unit :=
  if (length profile_dict =? 1)%nat then
    PF400 <- connect_robot ;;
    self <- get ;;
    defaults <- getitem (motion_profile self) 0 ;;
    let command := profile_command "Profile 1" defaults in
    send_receive PF400 command ;;
    PF400 <- connect_robot ;;
    self <- get ;;
    defaults <- getitem (motion_profile self) 1 ;;
    let command := profile_command "Profile 2" defaults in
    send_receive PF400 command
  else if (length profile_dict =? 8)%nat then
    PF400 <- connect_robot ;;
    let command := profile_command "Profile 3" profile_dict in
    send_receive PF400 command
  else
    raise (Exception ("Motion profile takes 8 arguments, "
                      +:+ str_int (Z.of_nat (length profile_dict)) +:+ " where given")).

Definition check_robot_heartbeat : M unit :=
  PF400 <- connect_robot ;;
  let command := "nop" +:+ nl in
  send_receive PF400 command.

Definition stop_robot : M unit :=
  PF400 <- connect_robot ;;
  let command := "halt" +:+ nl in
  send_receive PF400 command.

Definition set_speed (speed : number) : M unit :=
  PF400 <- connect_robot ;;
  let command := "mspeed" +:+ str speed +:+ nl in
  send_receive PF400 command.

(** ** Motion routines *)

(** [self.set_move_command(...)] called on the current object *)
Definition move_command (robot_location : string) (profile : Z)
    (grab release : bool) : M string :=
  fun st => (set_move_command st robot_location profile grab release, st).

(** The loop the four routines end with:
    [for count, command in enumerate(commands): PF400 = connect_robot();
     try: send; recv; log / except socket.error: log / else: disconnect]. *)
Definition send_all (commands : list string) : M unit :=
  for_each (enumerate commands) (fun item =>
    PF400 <- connect_robot ;;
    send_receive PF400 (snd item)).

(** [slow, fast] as the routines choose them from [profile] *)
Definition speeds (profile : Z) : Z * Z :=
  if (profile =? 3)%Z then (3, 3)%Z else (1, 2)%Z.

Definition ot2_key (ot2_ID : Z) (suffix : string) : string :=
  "OT2_" +:+ str_int ot2_ID +:+ suffix.

(** The six commands that [pick_plate_ot2] builds, by the names of the local
    variables that hold them. *)
Inductive pick_up_command :=
| MoveFront
| AbovePlate
| ApproachPlate
| PickUpPlate
| AboveWithPlate
| FrontWithPlate.

(** The command that a name stands for, given the six commands in the order
    they are built. *)
Definition pick_up_named (move_front above_plate approach_plate pick_up_plate
    above_with_plate front_with_plate : string) (name : pick_up_command) : string :=
  match name with
  | MoveFront => move_front
  | AbovePlate => above_plate
  | ApproachPlate => approach_plate
  | PickUpPlate => pick_up_plate
  | AboveWithPlate => above_with_plate
  | FrontWithPlate => front_with_plate
  end.

(** Line 335 of the source reads
    [pick_up_commands = [move_front, above_plate] ......]: the list starts
    with [move_front] and [above_plate], and what follows is elided.  What is
    elided is a parameter of the model: [elided] lists the commands that
    follow [above_plate] in [pick_up_commands], each by its name.  The empty
    list reads the line as it stands before the dots. *)
Definition pick_plate_ot2 (elided : list pick_up_command) (ot2_ID : Z) (profile : Z)
    : M unit :=
  let '(slow, fast) := speeds profile in
  move_front <- move_command (ot2_key ot2_ID "_front") fast false false ;;
  above_plate <- move_command (ot2_key ot2_ID "_above_plate") fast false false ;;
  approach_plate <- move_command (ot2_key ot2_ID "_pick_plate") fast false false ;;
  pick_up_plate <- move_command (ot2_key ot2_ID "_pick_plate") slow true false ;;
  above_with_plate <- move_command (ot2_key ot2_ID "_above_plate") slow true false ;;
  front_with_plate <- move_command (ot2_key ot2_ID "_front") slow true false ;;
  let pick_up_commands :=
    ([move_front; above_plate]
     ++ map (pick_up_named move_front above_plate approach_plate pick_up_plate
               above_with_plate front_with_plate) elided)%list in
  send_all pick_up_commands.

(** Modelled from the spec: the rest of the list [pick_up_commands], which
    line 335 of the source elides.  The specification documents the moves of
    [pick_plate_ot2] as front, above, approach, pick with grip, above with
    grip, front with grip: after [move_front] and [above_plate] come the four
    other commands, in the order in which they are built. *)
Definition documented_rest : list pick_up_command :=
  [ApproachPlate; PickUpPlate; AboveWithPlate; FrontWithPlate].

Definition drop_plate_ot2 (ot2_ID : Z) (profile : Z) : M unit :=
  let '(slow, fast) := speeds profile in
  front_with_plate <- move_command (ot2_key ot2_ID "_front") slow true false ;;
  above_with_plate <- move_command (ot2_key ot2_ID "_above_plate") slow true false ;;
  approach_with_plate <- move_command (ot2_key ot2_ID "_pick_plate") slow true false ;;
  drop_plate <- move_command (ot2_key ot2_ID "_pick_plate") slow false true ;;
  above_plate <- move_command (ot2_key ot2_ID "_above_plate") fast false false ;;
  front_plate <- move_command (ot2_key ot2_ID "_front") fast false false ;;
  let drop_commands :=
    [front_with_plate; above_with_plate; approach_with_plate; drop_plate;
     above_plate; front_plate] in
  send_all drop_commands.

Definition pick_plate_from_rack (ot2_ID : Z) (profile : Z) : M unit :=
  let '(slow, fast) := speeds profile in
  approach_plate_rack <- move_command (ot2_key ot2_ID "_approach_plate_rack") fast false false ;;
  front_rack <- move_command (ot2_key ot2_ID "_front_plate_rack") slow false false ;;
  plate_rack <- move_command (ot2_key ot2_ID "_plate_rack") slow false false ;;
  pick_plate <- move_command (ot2_key ot2_ID "_plate_rack") slow true false ;;
  front_with_plate <- move_command (ot2_key ot2_ID "_front_plate_rack") slow true false ;;
  approach_rack_back <- move_command (ot2_key ot2_ID "_approach_plate_rack") slow true false ;;
  let drop_commands :=
    [approach_plate_rack; front_rack; plate_rack; pick_plate; front_with_plate;
     approach_rack_back] in
  send_all drop_commands.

Definition drop_complete_plate (profile : Z) : M unit :=
  let '(slow, fast) := speeds profile in
  completed_plate_above <- move_command "Completed_plate_above" slow true false ;;
  drop_with_plate <- move_command "Completed_plate" slow true false ;;
  drop_plate <- move_command "Completed_plate" slow false true ;;
  completed_plate <- move_command "Completed_plate_above" slow false false ;;
  let drop_commands :=
    [completed_plate_above; drop_with_plate; drop_plate; completed_plate] in
  send_all drop_commands.

(** The socket is opened before the command is built. *)
Definition move_single (target_location : string) (profile : Z)
    (grap release : bool) : M unit :=
  PF400 <- connect_robot ;;
  command <- move_command target_location profile grap release ;;
  send_receive PF400 command.

(** [time.sleep(n)]: no effect on the object or on the sockets. *)
Definition sleep (seconds : Z) : M unit := ret tt.

(** A job that is neither [TRANSFER] nor [FULL_TRANSFER] matches no branch.
    The log line of [TRANSFER] reads both identifiers before anything moves.
    [elided] is the parameter of [pick_plate_ot2]. *)
Definition program_robot_target (elided : list pick_up_command) (job : string)
    (robot_ID_list : list Z) : M unit :=
  if String.eqb (upper job) "TRANSFER" then
    from <- getitem robot_ID_list 0 ;;
    to <- getitem robot_ID_list 1 ;;
    move_single "HomeALL" 2 false false ;;
    from <- getitem robot_ID_list 0 ;;
    pick_plate_ot2 elided from 0 ;;
    to <- getitem robot_ID_list 1 ;;
    drop_plate_ot2 to 0
  else if String.eqb (upper job) "FULL_TRANSFER" then
    move_single "HomeALL" 2 false false ;;
    pick_plate_from_rack 1 0 ;;
    drop_plate_ot2 1 0 ;;
    sleep 50 ;;
    pick_plate_ot2 elided 1 0 ;;
    drop_plate_ot2 2 0 ;;
    sleep 50 ;;
    pick_plate_ot2 elided 2 0 ;;
    drop_plate_ot2 3 0 ;;
    sleep 50 ;;
    pick_plate_ot2 elided 3 0 ;;
    drop_complete_plate 0
  else
    ret tt.

(** ** Locate and teach *)

(** The name [coordinate_list] is bound in the [try] body only: [None] below
    stands for the unbound name, which the final [return] then reads. *)
Definition locate_robot : M (list Z) :=
  PF400 <- connect_robot ;;
  let command := "wherej" +:+ nl in
  coordinate_list <-
    try_except_else
      (send PF400 command ;;
       location <- recv PF400 ;;
       lift (map_result int (str_split " " location)))
      is_socket_error
      (fun err => ret None)
      (fun coordinate_list => disconnect_robot PF400 ;; ret (Some coordinate_list)) ;;
  match coordinate_list with
  | Some coordinate_list => ret coordinate_list
  | None => raise (UnboundLocalError "coordinate_list")
  end.

(** [location.lower == text]: the method object itself, not its result, is
    compared with a [str]; the two are never equal. *)
Definition lower_method_eq (location text : string) : bool := false.

(** [self.location_dictionary[key][count] = value] *)
Definition set_joint (key : string) (count : nat) (value : number) : M unit :=
  joints <- location key ;;
  if (count <? length joints)%nat
  then fun st =>
         (Ok tt, set_location_dictionary
                   (<[key := <[count := value]> joints]> (location_dictionary st)) st)
  else raise IndexError.

(** [for count, loc in enumerate(self.location_dictionary[key]):
       self.location_dictionary[key][count] = current_location[count]] *)
Definition overwrite (key : string) (current_location : list Z) : M unit :=
  joints <- location key ;;
  for_each (enumerate joints) (fun item =>
    value <- getitem current_location (fst item) ;;
    set_joint key (fst item) (NInt value)).

(** [key_name] is bound in the station branch only, and there only for the
    four station names; [None] stands for the unbound name. *)
Definition teach_location (location : string) (robot_id : option Z) : M unit :=
  current_location <- locate_robot ;;
  try_except_else
    (key_name <-
       (if bool_decide (robot_id = None)
           && (lower_method_eq location "homeall" || lower_method_eq location "homearm"
               || lower_method_eq location "mobile_robot" || lower_method_eq location "trash")
        then
          overwrite location current_location ;; ret None
        else
          match robot_id with
          | Some robot_id =>
              if String.eqb (upper location) "FRONT" then
                ret (Some (ot2_key robot_id "_front"))
              else if String.eqb (upper location) "ABOVE_PLATE" then
                ret (Some (ot2_key robot_id "_above_plate"))
              else if String.eqb (upper location) "PICK_PLATE" then
                ret (Some (ot2_key robot_id "_pick_plate"))
              else if String.eqb (upper location) "PLATE_RACK" then
                ret (Some (ot2_key robot_id "_plate_rack"))
              else ret None
          | None =>
              raise (Exception "Please enter a valid location name!!! Format: location: str, robot_id:int = None ")
          end) ;;
     match key_name with
     | Some key_name => overwrite key_name current_location
     | None => raise (UnboundLocalError "key_name")
     end)
    is_exception
    (fun err => ret tt)
    (fun _ => ret tt).

(** ** The operations of the client *)

(** What a call gives back: [None], or the coordinate list of
    [locate_robot]. *)
Inductive value :=
| VNone
| VList (coordinates : list Z).

(** The methods that open sockets, with their arguments. *)
Inductive operation :=
| SetProfile (profile_dict : dict)
| CheckRobotHeartbeat
| StopRobot
| SetSpeed (speed : number)
| MoveSingle (target_location : string) (profile : Z) (grap release : bool)
| PickPlateOt2 (ot2_ID profile : Z)
| DropPlateOt2 (ot2_ID profile : Z)
| PickPlateFromRack (ot2_ID profile : Z)
| DropCompletePlate (profile : Z)
| ProgramRobotTarget (job : string) (robot_ID_list : list Z)
| LocateRobot
| TeachLocation (location : string) (robot_id : option Z).

Definition returns_none (m : M unit) : M value := m ;; ret VNone.

(** A call of a method; [elided] is the parameter of [pick_plate_ot2]. *)
Definition run (elided : list pick_up_command) (op : operation) : M value :=
  match op with
  | SetProfile profile_dict => returns_none (set_profile profile_dict)
  | CheckRobotHeartbeat => returns_none check_robot_heartbeat
  | StopRobot => returns_none stop_robot
  | SetSpeed speed => returns_none (set_speed speed)
  | MoveSingle target_location profile grap release =>
      returns_none (move_single target_location profile grap release)
  | PickPlateOt2 ot2_ID profile => returns_none (pick_plate_ot2 elided ot2_ID profile)
  | DropPlateOt2 ot2_ID profile => returns_none (drop_plate_ot2 ot2_ID profile)
  | PickPlateFromRack ot2_ID profile => returns_none (pick_plate_from_rack ot2_ID profile)
  | DropCompletePlate profile => returns_none (drop_complete_plate profile)
  | ProgramRobotTarget job robot_ID_list =>
      returns_none (program_robot_target elided job robot_ID_list)
  | LocateRobot => coordinate_list <- locate_robot ;; ret (VList coordinate_list)
  | TeachLocation location robot_id => returns_none (teach_location location robot_id)
  end.

(** ** Reading a command line back *)

(** The arguments joined as the commands carry them: each one after a space. *)
Definition join_arguments (args : list string) : string :=
  fold_right (fun a rest => " " +:+ a +:+ rest) "" args.

Fixpoint spaceless (s : string) : bool :=
  match s with
  | EmptyString => true
  | String c s' => negb (Ascii.eqb c space) && spaceless s'
  end.

(** The line without its final newline. *)
Fixpoint chomp (s : string) : string :=
  match s with
  | EmptyString => EmptyString
  | String c EmptyString => if Ascii.eqb c "010"%char then EmptyString else s
  | String c s' => String c (chomp s')
  end.

(** The fields of a command line after the verb and the profile number. *)
Definition command_arguments (command : string) : list string :=
  drop 2 (str_split space (chomp command)).

(** The argument the loop of [set_move_command] writes at position [count]. *)
Definition argument_at (grab release : bool) (count : nat) (joint : number) : string :=
  if (count =? 4)%nat
  then if grab then "120.0" else if release then "127.0" else str joint
  else str joint.

(** The arguments of a move command, for joint values numbered from [start]. *)
Definition arguments_from (grab release : bool) (start : nat) (joints : list number)
    : list string :=
  map (fun item => argument_at grab release (fst item) (snd item))
      (enumerate_from start joints).

(** Lower case for the ASCII letters; every other byte stays. *)
Definition lower_ascii (c : ascii) : ascii :=
  let n := nat_of_ascii c in
  if ((65 <=? n) && (n <=? 90))%nat then ascii_of_nat (n + 32) else c.

Fixpoint ascii_lower (s : string) : string :=
  match s with
  | EmptyString => EmptyString
  | String c s' => String (lower_ascii c) (ascii_lower s')
  end.

(** The names the branches of [teach_location] look for, in any letter case:
    four global locations without a station identifier, four station
    locations with one.  The global names are ASCII and hold no [k], the one
    ASCII letter that is also the lower case of a character outside ASCII, so
    a text is one of them in lower case exactly when it is ASCII and lowering
    its ASCII letters gives the name. *)
Definition recognized (location : string) (robot_id : option Z) : bool :=
  match robot_id with
  | None =>
      bool_decide
        (ascii_lower location ∈ ["homeall"; "homearm"; "mobile_robot"; "trash"])
  | Some _ =>
      bool_decide (upper location ∈ ["FRONT"; "ABOVE_PLATE"; "PICK_PLATE"; "PLATE_RACK"])
  end.

(** ** Observing a run *)

(** [recv] returns on this socket: nothing of the transport fails. *)
Definition is_reply (s : conn_script) : bool :=
  match s with Replies _ | Undecodable => true | _ => false end.

(** The script lets the command go out: create, connect and send succeed. *)
Definition sends (s : conn_script) : bool :=
  match s with RecvFails | Replies _ | Undecodable => true | _ => false end.

(** The events a computation added to the trace. *)
Definition new_events (st st' : state) : list event :=
  drop (length (trace st)) (trace st').

(** The commands that went out, oldest first. *)
Fixpoint sent (evs : list event) : list string :=
  match evs with
  | [] => []
  | Sent _ command :: evs' => command :: sent evs'
  | _ :: evs' => sent evs'
  end.

(** Some socket opened between [st] and [st'] failed at creation, connect, send
    or receive. *)
Definition transport_failed (st st' : state) : Prop :=
  exists i : nat,
    (opened st <= i < opened st')%nat /\ is_reply (net st i) = false.

(** The caller is told of a transport failure: the call ends in
    [socket.error]. *)
Definition transport_error {A} (r : result A) : Prop := r = Raise SocketError.

(** A reply that [locate_robot] can read: every field is an [int] literal. *)
Definition parses (text : string) : bool :=
  match map_result int (str_split space text) with
  | Ok _ => true
  | Raise _ => false
  end.

Definition any_reply (text : string) : bool := true.

(** The replies after which an operation reaches its [disconnect_robot]:
    [locate_robot] parses the reply inside the [try] body. *)
Definition accepts (op : operation) : string -> bool :=
  match op with
  | LocateRobot | TeachLocation _ _ => parses
  | _ => any_reply
  end.

(** ** Specifications of computations *)

(** [preserves f m]: running [m] leaves the component [f] of the state as it
    was, whether [m] returns or raises. *)
Definition preserves {A B} (f : state -> B) (m : M A) : Prop :=
  forall st : state, f (snd (m st)) = f st.

(** The sockets evolve in an orderly way from [st] to [st']: the network and
    earlier events stay, a receive agrees with the script of its socket, and a
    socket is closed exactly when it received a reply that [ok] accepts. *)
Record step (ok : string -> bool) (st st' : state) : Prop := mkStep {
  step_net : net st' = net st;
  step_opened : (opened st <= opened st')%nat;
  step_events : exists evs : list event,
    trace st' = (trace st ++ evs)%list
    /\ (forall s r, In (Received s r) evs -> net st s = Replies r)
    /\ (forall s, In (Closed s) evs <-> exists r, In (Received s r) evs /\ ok r = true)
}.

(** [sound ok m]: [m] makes such a step, and ends in [socket.error] only when
    one of the sockets it opened could not connect. *)
Definition sound (ok : string -> bool) {A} (m : M A) : Prop :=
  forall st : state,
    step ok st (snd (m st))
    /\ (fst (m st) = Raise SocketError ->
        exists i : nat,
          (opened st <= i < opened (snd (m st)))%nat /\ net st i = ConnectFails).

(** ** A sample cell *)

Definition sample_joints (n : Z) : list number :=
  [NFloat "231.788"; NInt n; NFloat "70.5"; NInt 4; NFloat "79.0"; NInt 995].

Definition sample_locations : gmap string (list number) :=
  list_to_map
    [("HomeALL", [NInt 1; NInt 2; NInt 3; NInt 4; NInt 5; NInt 6]);
     ("OT2_1_front", sample_joints 10);
     ("OT2_1_above_plate", sample_joints 20);
     ("OT2_1_pick_plate", sample_joints 30)].

Definition sample_profiles : list dict :=
  [[("Speed", NInt 30); ("Speed2", NInt 0); ("Accel", NInt 100); ("Decel", NInt 100);
    ("AccelRamp", NFloat "0.1"); ("DecelRamp", NFloat "0.1"); ("InRange", NInt 0);
    ("Straight", NInt 0)];
   [("Speed", NInt 60); ("Speed2", NInt 0); ("Accel", NInt 100); ("Decel", NInt 100);
    ("AccelRamp", NFloat "0.1"); ("DecelRamp", NFloat "0.1"); ("InRange", NInt 0);
    ("Straight", NInt 0)]].

(** The sample robot on a network where every socket behaves as [script]. *)
Definition sample (script : nat -> conn_script) : state :=
  mkState "192.168.0.1" 10100 sample_profiles sample_locations script 0 [].

Definition always (s : conn_script) : nat -> conn_script := fun _ => s.

(** ** Further observations *)

(** The socket can be created and connected. *)
Definition connects (s : conn_script) : bool :=
  match s with CreateFails | ConnectFails => false | _ => true end.

(** What the socket receives, if anything, is UTF-8. *)
Definition decodes (s : conn_script) : bool :=
  match s with Undecodable => false | _ => true end.

(** A routine goes on to its next command after this socket: the socket
    connects and its reply, if one comes, decodes.  A send or a receive that
    fails is caught and logged. *)
Definition goes_on (s : conn_script) : bool := connects s && decodes s.

(** The commands of a list that go out when the [i]-th one is tried on socket
    [start + i]: those whose socket lets the send through. *)
Fixpoint delivered (script : nat -> conn_script) (start : nat) (commands : list string)
    : list string :=
  match commands with
  | [] => []
  | command :: commands' =>
      if sends (script start)
      then command :: delivered script (S start) commands'
      else delivered script (S start) commands'
  end.

(** The line of a move to the joint values [joints]. *)
Definition move_line (profile : Z) (grab release : bool) (joints : list number) : string :=
  "MoveJ " +:+ str_int profile
  +:+ join_arguments (arguments_from grab release 0 joints) +:+ nl.

(** [m] returns after trying the commands [moves] in order, each on a socket of
    its own, and touches neither the network script nor the location table. *)
Definition tries (m : M unit) (st : state) (moves : list string) : Prop :=
  exists st' : state,
    m st = (Ok tt, st')
    /\ opened st' = (opened st + length moves)%nat
    /\ net st' = net st
    /\ location_dictionary st' = location_dictionary st
    /\ exists evs : list event,
         trace st' = (trace st ++ evs)%list
         /\ sent evs = delivered (net st) (opened st) moves.

(** A second sample cell, with the rack of station 1 and the bin for completed
    plates. *)
Definition rack_locations : gmap string (list number) :=
  list_to_map
    [("OT2_1_approach_plate_rack", sample_joints 40);
     ("OT2_1_front_plate_rack", sample_joints 50);
     ("OT2_1_plate_rack", sample_joints 60);
     ("Completed_plate_above", sample_joints 70);
     ("Completed_plate", sample_joints 80)].

Definition rack_cell (script : nat -> conn_script) : state :=
  mkState "192.168.0.1" 10100 sample_profiles rack_locations script 0 [].

(** A network where every socket answers ["0"] but socket [n], whose send
    fails. *)
Definition send_fails_at (n : nat) : nat -> conn_script :=
  fun i => if (i =? n)%nat then SendFails else Replies "0".

(** What a call ends in when a socket stops it: [AttributeError] when the
    socket could not be created ([connect_robot] returned [None]), the socket
    error itself when [connect] raised, [UnicodeDecodeError] when the reply did
    not decode. *)
Definition stop_error (s : conn_script) : exn :=
  match s with
  | CreateFails => AttributeError
  | Undecodable => UnicodeDecodeError
  | _ => SocketError
  end.

(** A network where every socket answers ["0"] but socket [n], whose reply
    does not decode. *)
Definition undecodable_at (n : nat) : nat -> conn_script :=
  fun i => if (i =? n)%nat then Undecodable else Replies "0".

(** A network where every socket answers ["0"] but socket [n], which cannot
    connect. *)
Definition connect_fails_at (n : nat) : nat -> conn_script :=
  fun i => if (i =? n)%nat then ConnectFails else Replies "0".

(** The locations a job reads, and the moves it makes, for a table that holds
    [joints key] at [key]; profile 0 of the routines gives slow = 1, fast = 2. *)
Definition station_keys (ot2_ID : Z) : list string :=
  [ot2_key ot2_ID "_front"; ot2_key ot2_ID "_above_plate"; ot2_key ot2_ID "_pick_plate"].

Definition rack_keys (ot2_ID : Z) : list string :=
  [ot2_key ot2_ID "_approach_plate_rack"; ot2_key ot2_ID "_front_plate_rack";
   ot2_key ot2_ID "_plate_rack"].

Definition bin_keys : list string := ["Completed_plate_above"; "Completed_plate"].

Definition home_move (joints : string -> list number) : string :=
  move_line 2 false false (joints "HomeALL").

Definition pick_moves (joints : string -> list number) (elided : list pick_up_command)
    (ot2_ID : Z) : list string :=
  let front := joints (ot2_key ot2_ID "_front") in
  let above := joints (ot2_key ot2_ID "_above_plate") in
  let pick := joints (ot2_key ot2_ID "_pick_plate") in
  ([move_line 2 false false front; move_line 2 false false above]
   ++ map (pick_up_named
             (move_line 2 false false front) (move_line 2 false false above)
             (move_line 2 false false pick) (move_line 1 true false pick)
             (move_line 1 true false above) (move_line 1 true false front))
          elided)%list.

Definition drop_moves (joints : string -> list number) (ot2_ID : Z) : list string :=
  [move_line 1 true false (joints (ot2_key ot2_ID "_front"));
   move_line 1 true false (joints (ot2_key ot2_ID "_above_plate"));
   move_line 1 true false (joints (ot2_key ot2_ID "_pick_plate"));
   move_line 1 false true (joints (ot2_key ot2_ID "_pick_plate"));
   move_line 2 false false (joints (ot2_key ot2_ID "_above_plate"));
   move_line 2 false false (joints (ot2_key ot2_ID "_front"))].

Definition rack_moves (joints : string -> list number) (ot2_ID : Z) : list string :=
  [move_line 2 false false (joints (ot2_key ot2_ID "_approach_plate_rack"));
   move_line 1 false false (joints (ot2_key ot2_ID "_front_plate_rack"));
   move_line 1 false false (joints (ot2_key ot2_ID "_plate_rack"));
   move_line 1 true false (joints (ot2_key ot2_ID "_plate_rack"));
   move_line 1 true false (joints (ot2_key ot2_ID "_front_plate_rack"));
   move_line 1 true false (joints (ot2_key ot2_ID "_approach_plate_rack"))].

Definition bin_moves (joints : string -> list number) : list string :=
  [move_line 1 true false (joints "Completed_plate_above");
   move_line 1 true false (joints "Completed_plate");
   move_line 1 false true (joints "Completed_plate");
   move_line 1 false false (joints "Completed_plate_above")].

Definition transfer_keys (source target : Z) : list string :=
  "HomeALL" :: station_keys source ++ station_keys target.

Definition transfer_moves (joints : string -> list number)
    (elided : list pick_up_command) (source target : Z) : list string :=
  home_move joints :: pick_moves joints elided source ++ drop_moves joints target.

Definition full_transfer_keys : list string :=
  "HomeALL" :: rack_keys 1 ++ station_keys 1 ++ station_keys 2 ++ station_keys 3
  ++ bin_keys.

Definition full_transfer_moves (joints : string -> list number)
    (elided : list pick_up_command) : list string :=
  home_move joints :: rack_moves joints 1 ++ drop_moves joints 1
  ++ pick_moves joints elided 1 ++ drop_moves joints 2
  ++ pick_moves joints elided 2 ++ drop_moves joints 3
  ++ pick_moves joints elided 3 ++ bin_moves joints.

(** [tries], for any state that differs from [st0] by [off] more sockets
    opened and by its trace only. *)
Definition tries_from (st0 : state) (off : nat) (m : M unit) (moves : list string)
    : Prop :=
  forall st : state,
    net st = net st0 -> location_dictionary st = location_dictionary st0 ->
    opened st = (opened st0 + off)%nat ->
    tries m st moves.

(** A cell that holds every location of the job [FULL_TRANSFER]. *)
Definition full_cell (script : nat -> conn_script) : state :=
  mkState "192.168.0.1" 10100 sample_profiles
    (list_to_map (map (fun key => (key, sample_joints 1)) full_transfer_keys))
    script 0 [].

(** The key the station branch of [teach_location] binds to [key_name]. *)
Definition station_location (location : string) (robot_id : Z) : option string :=
  if String.eqb (upper location) "FRONT" then Some (ot2_key robot_id "_front")
  else if String.eqb (upper location) "ABOVE_PLATE"
       then Some (ot2_key robot_id "_above_plate")
  else if String.eqb (upper location) "PICK_PLATE"
       then Some (ot2_key robot_id "_pick_plate")
  else if String.eqb (upper location) "PLATE_RACK"
       then Some (ot2_key robot_id "_plate_rack")
  else None.

(** An entry after the overwrite loop ran over it with the coordinates
    [current_location]: the coordinates replace the joint values from the
    front, as far as both lists go. *)
Definition taught (joints : list number) (current_location : list Z) : list number :=
  (NInt <$> take (length joints) current_location)
  ++ drop (length current_location) joints.

(** [" ".join(fields)] *)
Fixpoint join_with_spaces (fields : list string) : string :=
  match fields with
  | [] => EmptyString
  | [field] => field
  | field :: fields' => field +:+ String space (join_with_spaces fields')
  end.

(** The number a run of decimal digits stands for, after the digits read so
    far gave [acc]. *)
Fixpoint uint_value (d : Decimal.uint) (acc : Z) : Z :=
  match d with
  | Decimal.Nil => acc
  | Decimal.D0 d' => uint_value d' (10 * acc + 0)
  | Decimal.D1 d' => uint_value d' (10 * acc + 1)
  | Decimal.D2 d' => uint_value d' (10 * acc + 2)
  | Decimal.D3 d' => uint_value d' (10 * acc + 3)
  | Decimal.D4 d' => uint_value d' (10 * acc + 4)
  | Decimal.D5 d' => uint_value d' (10 * acc + 5)
  | Decimal.D6 d' => uint_value d' (10 * acc + 6)
  | Decimal.D7 d' => uint_value d' (10 * acc + 7)
  | Decimal.D8 d' => uint_value d' (10 * acc + 8)
  | Decimal.D9 d' => uint_value d' (10 * acc + 9)
  end.

(** * Part II: properties *)

Section Text.

Lemma append_cons (c : ascii) (s t : string) : String c s +:+ t = String c (s +:+ t).
Proof. reflexivity. Qed.

Lemma append_nil_r (s : string) : s +:+ "" = s.
Proof.
  induction s as [|c s IH]; [reflexivity |]. now rewrite append_cons, IH.
Qed.

Lemma append_assoc (s t u : string) : (s +:+ t) +:+ u = s +:+ t +:+ u.
Proof.
  induction s as [|c s IH]; [reflexivity |]. now rewrite !append_cons, IH.
Qed.

Lemma chomp_line (s : string) : chomp (s +:+ nl) = s.
Proof.
  induction s as [|c s IH]; [reflexivity |].
  rewrite append_cons. destruct s as [|d s]; [reflexivity |].
  rewrite append_cons in *. simpl in *. now rewrite IH.
Qed.

Lemma str_split_field (t rest : string) :
  spaceless t = true ->
  str_split space (t +:+ String space rest) = t :: str_split space rest.
Proof.
  induction t as [|c t IH]; intros Ht.
  - reflexivity.
  - simpl in Ht. apply andb_prop in Ht as [Hc Ht].
    rewrite append_cons. simpl. apply negb_true_iff in Hc. rewrite Hc.
    rewrite (IH Ht). reflexivity.
Qed.

Lemma str_split_last (t : string) :
  spaceless t = true -> str_split space t = [t].
Proof.
  induction t as [|c t IH]; intros Ht; [reflexivity |].
  simpl in Ht. apply andb_prop in Ht as [Hc Ht].
  simpl. apply negb_true_iff in Hc. rewrite Hc.
  rewrite (IH Ht). reflexivity.
Qed.

Lemma str_split_join (args : list string) : forall t : string,
  spaceless t = true ->
  Forall (fun a => spaceless a = true) args ->
  str_split space (t +:+ join_arguments args) = t :: args.
Proof.
  induction args as [|a args IH]; intros t Ht Hargs; simpl.
  - rewrite append_nil_r. now apply str_split_last.
  - inversion Hargs as [|? ? Ha Hrest]; subst.
    change (" " +:+ a +:+ join_arguments args)
      with (String space (a +:+ join_arguments args)).
    rewrite (str_split_field _ _ Ht). now rewrite (IH a Ha Hrest).
Qed.

End Text.

Section MoveCommand.

Variables grab release : bool.

Lemma move_argument_appends (robot_command : string) (count : nat) (joint : number) :
  move_argument grab release robot_command (count, joint)
  = robot_command +:+ " " +:+ argument_at grab release count joint.
Proof.
  unfold move_argument, argument_at.
  destruct (count =? 4)%nat, grab, release; reflexivity.
Qed.

Lemma move_loop (joints : list number) : forall (start : nat) (robot_command : string),
  fold_left (move_argument grab release) (enumerate_from start joints) robot_command
  = robot_command +:+ join_arguments (arguments_from grab release start joints).
Proof.
  induction joints as [|joint joints IH]; intros start robot_command.
  - simpl. now rewrite append_nil_r.
  - cbn [enumerate_from fold_left].
    rewrite move_argument_appends, IH.
    unfold arguments_from.
    cbn [enumerate_from map join_arguments fold_right fst snd].
    now rewrite !append_assoc.
Qed.

Lemma arguments_from_length (joints : list number) (start : nat) :
  length (arguments_from grab release start joints) = length joints.
Proof.
  unfold arguments_from. rewrite length_map.
  revert start. induction joints as [|j joints IH]; intros start; simpl;
    [reflexivity | now rewrite IH].
Qed.

Lemma arguments_from_lookup (joints : list number) : forall (start i : nat) (joint : number),
  joints !! i = Some joint ->
  arguments_from grab release start joints !! i = Some (argument_at grab release (start + i) joint).
Proof.
  induction joints as [|j joints IH]; intros start i joint Hi; [discriminate |].
  destruct i as [|i].
  - injection Hi as ->. unfold arguments_from. simpl. now rewrite Nat.add_0_r.
  - change (arguments_from grab release (S start) joints !! i
            = Some (argument_at grab release (start + S i) joint)).
    rewrite (IH (S start) i joint Hi). now rewrite Nat.add_succ_r.
Qed.

Lemma arguments_from_spaceless (joints : list number) (start : nat) :
  Forall (fun joint => spaceless (str joint) = true) joints ->
  Forall (fun a => spaceless a = true) (arguments_from grab release start joints).
Proof.
  intros Hjoints. revert start.
  induction Hjoints as [|joint joints Hjoint _ IH]; intros start.
  - constructor.
  - unfold arguments_from. cbn [enumerate_from map fst snd].
    constructor; [| apply IH].
    unfold argument_at. destruct (start =? 4)%nat, grab, release; auto.
Qed.

(** The command as one equation: prefix, joined arguments, newline. *)
Lemma set_move_command_text (self : state) (robot_location : string)
    (joints : list number) (profile : Z) :
  location_dictionary self !! robot_location = Some joints ->
  profile = 1 \/ profile = 2 \/ profile = 3 ->
  set_move_command self robot_location profile grab release
  = Ok ("MoveJ " +:+ str_int profile
        +:+ join_arguments (arguments_from grab release 0 joints) +:+ nl).
Proof.
  intros Hloc Hprofile. unfold set_move_command. rewrite Hloc.
  destruct Hprofile as [-> | [-> | ->]]; simpl; unfold enumerate;
    rewrite move_loop; now rewrite append_assoc.
Qed.

End MoveCommand.

(** ** Motion command formatting: C1, C9 *)

(** C1. For a location of the table and a profile in 1..3, [set_move_command]
    returns the line [MoveJ <profile>] followed by one argument per joint value
    of the location and a newline.  Away from index 4 each argument is the
    joint value as [str] prints it; at index 4 it is 120.0 under [grab], else
    127.0 under [release], else the joint value.  When no joint value prints
    with a space, splitting the line on spaces gives back these arguments. *)
Theorem set_move_command_arguments (self : state) (robot_location : string)
    (joints : list number) (profile : Z) (grab release : bool) :
  location_dictionary self !! robot_location = Some joints ->
  profile = 1 \/ profile = 2 \/ profile = 3 ->
  exists args : list string,
    set_move_command self robot_location profile grab release
      = Ok ("MoveJ " +:+ str_int profile +:+ join_arguments args +:+ nl)
    /\ length args = length joints
    /\ (forall (i : nat) (joint : number),
          joints !! i = Some joint -> i <> 4%nat -> args !! i = Some (str joint))
    /\ (forall joint : number,
          joints !! 4%nat = Some joint ->
          args !! 4%nat
          = Some (if grab then "120.0" else if release then "127.0" else str joint))
    /\ (Forall (fun joint => spaceless (str joint) = true) joints ->
        command_arguments ("MoveJ " +:+ str_int profile +:+ join_arguments args +:+ nl)
        = args).
Proof.
  intros Hloc Hprofile.
  exists (arguments_from grab release 0 joints).
  split; [now apply set_move_command_text |].
  split; [apply arguments_from_length |].
  split; [| split].
  - intros i joint Hi Hne.
    rewrite (arguments_from_lookup _ _ _ _ _ _ Hi). simpl.
    unfold argument_at. apply Nat.eqb_neq in Hne. now rewrite Hne.
  - intros joint Hi. now rewrite (arguments_from_lookup _ _ _ _ _ _ Hi).
  - intros Hjoints. unfold command_arguments.
    rewrite <- !append_assoc, chomp_line.
    pose proof (arguments_from_spaceless grab release joints 0 Hjoints) as Hargs.
    change ("MoveJ " +:+ str_int profile) with ("MoveJ" +:+ String space (str_int profile)).
    rewrite append_assoc, (append_cons space (str_int profile)).
    rewrite str_split_field by reflexivity.
    rewrite str_split_join; [reflexivity | | exact Hargs].
    destruct Hprofile as [-> | [-> | ->]]; reflexivity.
Qed.

Lemma set_move_command_arguments_witness :
  sample_locations !! "OT2_1_front" = Some (sample_joints 10)
  /\ (2 = 1 \/ 2 = 2 \/ 2 = 3)
  /\ exists args : list string,
       set_move_command (sample (always (Replies "0"))) "OT2_1_front" 2 false true
         = Ok ("MoveJ " +:+ str_int 2 +:+ join_arguments args +:+ nl)
       /\ length args = 6%nat
       /\ (forall (i : nat) (joint : number),
             sample_joints 10 !! i = Some joint -> i <> 4%nat ->
             args !! i = Some (str joint))
       /\ (forall joint : number,
             sample_joints 10 !! 4%nat = Some joint ->
             args !! 4%nat = Some "127.0")
       /\ (Forall (fun joint => spaceless (str joint) = true) (sample_joints 10) ->
           command_arguments ("MoveJ " +:+ str_int 2 +:+ join_arguments args +:+ nl)
           = args).
Proof.
  split; [reflexivity |]. split; [right; left; reflexivity |].
  apply (set_move_command_arguments (sample (always (Replies "0"))) "OT2_1_front"
           (sample_joints 10) 2 false true);
    [reflexivity | right; left; reflexivity].
Defined.

(** C9. With [grab] and [release] both set, the argument at index 4 is the
    grip value 120.0 and not the release value 127.0, for every location of
    the table that has an index 4 and every profile in 1..3. *)
Theorem grab_overrides_release (self : state) (robot_location : string)
    (joints : list number) (profile : Z) :
  location_dictionary self !! robot_location = Some joints ->
  profile = 1 \/ profile = 2 \/ profile = 3 ->
  (4 < length joints)%nat ->
  exists args : list string,
    set_move_command self robot_location profile true true
      = Ok ("MoveJ " +:+ str_int profile +:+ join_arguments args +:+ nl)
    /\ length args = length joints
    /\ args !! 4%nat = Some "120.0"
    /\ args !! 4%nat <> Some "127.0".
Proof.
  intros Hloc Hprofile Hlen.
  exists (arguments_from true true 0 joints).
  split; [now apply set_move_command_text |].
  split; [apply arguments_from_length |].
  destruct (lookup_lt_is_Some_2 joints 4 Hlen) as [joint Hjoint].
  rewrite (arguments_from_lookup _ _ _ _ _ _ Hjoint). simpl.
  split; [reflexivity | discriminate].
Qed.

Lemma grab_overrides_release_witness :
  sample_locations !! "OT2_1_pick_plate" = Some (sample_joints 30)
  /\ (1 = 1 \/ 1 = 2 \/ 1 = 3)
  /\ (4 < length (sample_joints 30))%nat
  /\ exists args : list string,
       set_move_command (sample (always (Replies "0"))) "OT2_1_pick_plate" 1 true true
         = Ok ("MoveJ " +:+ str_int 1 +:+ join_arguments args +:+ nl)
       /\ length args = length (sample_joints 30)
       /\ args !! 4%nat = Some "120.0"
       /\ args !! 4%nat <> Some "127.0".
Proof.
  split; [reflexivity |]. split; [left; reflexivity |].
  split; [simpl; lia |].
  apply (grab_overrides_release (sample (always (Replies "0"))) "OT2_1_pick_plate"
           (sample_joints 30) 1);
    [reflexivity | left; reflexivity | simpl; lia].
Defined.

(** ** What a method does to the object and to the sockets *)

Section Preserves.

Context {B : Type} (f : state -> B).

Lemma preserves_ret {A} (a : A) : preserves f (ret a).
Proof. intros st. reflexivity. Qed.

Lemma preserves_raise {A} (e : exn) : preserves f (@raise A e).
Proof. intros st. reflexivity. Qed.

Lemma preserves_lift {A} (r : result A) : preserves f (lift r).
Proof. intros st. reflexivity. Qed.

Lemma preserves_get : preserves f get.
Proof. intros st. reflexivity. Qed.

Lemma preserves_sleep (seconds : Z) : preserves f (sleep seconds).
Proof. intros st. reflexivity. Qed.

Lemma preserves_getitem {A} (l : list A) (i : nat) : preserves f (getitem l i).
Proof. intros st. unfold getitem. destruct (l !! i); reflexivity. Qed.

Lemma preserves_location (key : string) : preserves f (location key).
Proof.
  intros st. unfold location. destruct (location_dictionary st !! key); reflexivity.
Qed.

Lemma preserves_move_command (name : string) (profile : Z) (grab release : bool) :
  preserves f (move_command name profile grab release).
Proof. intros st. reflexivity. Qed.

Lemma preserves_bind {A C} (m : M A) (k : A -> M C) :
  preserves f m -> (forall a, preserves f (k a)) -> preserves f (bind m k).
Proof.
  intros Hm Hk st. unfold bind. specialize (Hm st).
  destruct (m st) as [[a | e] st1]; simpl in *.
  - now rewrite Hk.
  - exact Hm.
Qed.

Lemma preserves_try {A C} (body : M A) (catches : exn -> bool)
    (handler : exn -> M C) (orelse : A -> M C) :
  preserves f body -> (forall e, preserves f (handler e)) ->
  (forall a, preserves f (orelse a)) ->
  preserves f (try_except_else body catches handler orelse).
Proof.
  intros Hbody Hhandler Horelse st. unfold try_except_else.
  specialize (Hbody st).
  destruct (body st) as [[a | e] st1]; simpl in *.
  - now rewrite Horelse.
  - destruct (catches e); [now rewrite Hhandler | exact Hbody].
Qed.

Lemma preserves_for_each {A} (xs : list A) (body : A -> M unit) :
  (forall x, preserves f (body x)) -> preserves f (for_each xs body).
Proof.
  intros Hbody. induction xs as [|x xs IH]; simpl.
  - apply preserves_ret.
  - apply preserves_bind; [apply Hbody | intros _; exact IH].
Qed.

End Preserves.

Create HintDb pf400.

#[local] Hint Resolve preserves_ret preserves_raise preserves_lift preserves_get
  preserves_sleep preserves_getitem preserves_location preserves_move_command
  : pf400.

(** Breaks a method into its statements and closes each with the lemmas of
    the hint database. *)
Ltac statements :=
  repeat first
    [ progress intros
    | solve [auto with pf400]
    | apply preserves_bind
    | apply preserves_try
    | apply preserves_for_each
    | match goal with
      | |- context [let '(_, _) := ?p in _] => destruct p
      | |- context [if ?b then _ else _] => destruct b
      | |- context [match ?o with Some _ => _ | None => _ end] => destruct o
      end ].

Section Sockets.

Lemma preserves_connect_locations :
  preserves location_dictionary connect_robot.
Proof.
  intros st. unfold connect_robot. destruct (net st (opened st)); reflexivity.
Qed.

Lemma preserves_send_receive {B} (f : state -> B) (PF400 : option sock)
    (command : string) :
  (forall evs st, f (record evs st) = f st) ->
  preserves f (send_receive PF400 command).
Proof.
  intros Hf st.
  unfold send_receive, try_except_else, bind, send, recv, disconnect_robot, ret.
  destruct PF400 as [s |]; [| reflexivity].
  destruct (net st s) eqn:Hs; simpl; rewrite ?Hs; simpl; rewrite ?Hf; reflexivity.
Qed.

Lemma preserves_send_receive_locations (PF400 : option sock) (command : string) :
  preserves location_dictionary (send_receive PF400 command).
Proof. apply preserves_send_receive. reflexivity. Qed.

Lemma preserves_send_all_locations (commands : list string) :
  preserves location_dictionary (send_all commands).
Proof.
  unfold send_all. apply preserves_for_each. intros item.
  apply preserves_bind; [apply preserves_connect_locations |].
  intros PF400. apply preserves_send_receive_locations.
Qed.

End Sockets.

#[local] Hint Resolve preserves_connect_locations preserves_send_receive_locations
  preserves_send_all_locations : pf400.

Section Sound.

Variable ok : string -> bool.

Lemma step_refl (st : state) : step ok st st.
Proof.
  split; [reflexivity | lia |].
  exists []. rewrite app_nil_r. split; [reflexivity |].
  split; [intros s r [] |].
  intros s. split; [intros [] | intros [r [[] _]]].
Qed.

Lemma step_trans (st1 st2 st3 : state) :
  step ok st1 st2 -> step ok st2 st3 -> step ok st1 st3.
Proof.
  intros [Hnet1 Hop1 (evs1 & Htr1 & Hrecv1 & Hclose1)]
         [Hnet2 Hop2 (evs2 & Htr2 & Hrecv2 & Hclose2)].
  split; [congruence | lia |].
  exists (evs1 ++ evs2)%list. split; [rewrite Htr2, Htr1; now rewrite app_assoc |].
  split.
  - intros s r Hin. apply in_app_or in Hin as [Hin | Hin].
    + now apply Hrecv1.
    + rewrite <- Hnet1. now apply Hrecv2.
  - intros s. rewrite in_app_iff, Hclose1, Hclose2. split.
    + intros [[r [Hin Hr]] | [r [Hin Hr]]]; exists r;
        (split; [apply in_or_app; auto | exact Hr]).
    + intros [r [Hin Hr]]. apply in_app_or in Hin as [Hin | Hin]; eauto.
Qed.

(** A computation that leaves the sockets alone and never ends in
    [socket.error] is sound. *)
Lemma sound_quiet {A} (m : M A) :
  preserves net m -> preserves opened m -> preserves trace m ->
  (forall st, fst (m st) <> Raise SocketError) ->
  sound ok m.
Proof.
  intros Hnet Hopened Htrace Hres st. split.
  - split; [apply Hnet | rewrite Hopened; lia |].
    exists []. rewrite app_nil_r. split; [apply Htrace |].
    split; [intros s r [] |].
    intros s. split; [intros [] | intros [r [[] _]]].
  - intros Hr. destruct (Hres st Hr).
Qed.

Lemma sound_ret {A} (a : A) : sound ok (ret a).
Proof. apply sound_quiet; try apply preserves_ret. discriminate. Qed.

Lemma sound_raise {A} (e : exn) : is_socket_error e = false -> sound ok (@raise A e).
Proof.
  intros He. apply sound_quiet; try apply preserves_raise.
  intros st Hr. injection Hr as ->. discriminate.
Qed.

Lemma sound_get : sound ok get.
Proof. apply sound_quiet; try apply preserves_get. discriminate. Qed.

Lemma sound_sleep (seconds : Z) : sound ok (sleep seconds).
Proof. apply sound_ret. Qed.

Lemma sound_getitem {A} (l : list A) (i : nat) : sound ok (getitem l i).
Proof.
  apply sound_quiet; try apply preserves_getitem.
  intros st. unfold getitem. destruct (l !! i); discriminate.
Qed.

Lemma sound_location (key : string) : sound ok (location key).
Proof.
  apply sound_quiet; try apply preserves_location.
  intros st. unfold location. destruct (location_dictionary st !! key); discriminate.
Qed.

Lemma set_move_command_raises (self : state) (name : string) (profile : Z)
    (grab release : bool) (e : exn) :
  set_move_command self name profile grab release = Raise e ->
  is_socket_error e = false.
Proof.
  unfold set_move_command.
  destruct (profile =? 1)%Z, (profile =? 2)%Z, (profile =? 3)%Z,
    (location_dictionary self !! name);
    intros H; inversion H; reflexivity.
Qed.

Lemma sound_move_command (name : string) (profile : Z) (grab release : bool) :
  sound ok (move_command name profile grab release).
Proof.
  apply sound_quiet; try apply preserves_move_command.
  intros st Hr. simpl in Hr. apply set_move_command_raises in Hr. discriminate.
Qed.

Lemma sound_bind {A C} (m : M A) (k : A -> M C) :
  sound ok m -> (forall a, sound ok (k a)) -> sound ok (bind m k).
Proof.
  intros Hm Hk st. unfold bind.
  destruct (Hm st) as [Hstep Herr].
  destruct (m st) as [[a | e] st1]; simpl in *.
  - destruct (Hk a st1) as [Hstep' Herr'].
    split; [eapply step_trans; eassumption |].
    intros Hr. destruct (Herr' Hr) as (i & Hi & Hnet).
    exists i. split.
    + pose proof (step_opened _ _ _ Hstep). lia.
    + now rewrite <- (step_net _ _ _ Hstep).
  - split; [assumption |].
    intros Hr. injection Hr as ->. now apply Herr.
Qed.

Lemma sound_for_each {A} (xs : list A) (body : A -> M unit) :
  (forall x, sound ok (body x)) -> sound ok (for_each xs body).
Proof.
  intros Hbody. induction xs as [|x xs IH]; simpl.
  - apply sound_ret.
  - apply sound_bind; [apply Hbody | intros _; exact IH].
Qed.

Lemma sound_connect_robot : sound ok connect_robot.
Proof.
  intros st. unfold connect_robot.
  destruct (net st (opened st)) eqn:Hs; simpl.
  all: split;
    [ split; [reflexivity | simpl; lia |];
      eexists; split; [reflexivity |];
      split;
        [ intros s r Hin; simpl in Hin; intuition discriminate
        | intros s; split;
            [ intros Hin; simpl in Hin; intuition discriminate
            | intros [r [Hin _]]; simpl in Hin; intuition discriminate ] ]
    | intros Hr; try discriminate ].
  exists (opened st). split; [lia | exact Hs].
Qed.

End Sound.

Section SoundSockets.

Lemma sound_send_receive (PF400 : option sock) (command : string) :
  sound any_reply (send_receive PF400 command).
Proof.
  intros st.
  unfold send_receive, try_except_else, bind, send, recv, disconnect_robot, ret.
  destruct PF400 as [s |].
  2: { simpl. split; [apply step_refl | discriminate]. }
  destruct (net st s) eqn:Hs; simpl; rewrite ?Hs; simpl.
  1-3: split; [apply step_refl | discriminate].
  - split; [| discriminate].
    split; [reflexivity | simpl; lia |].
    exists [Sent s command]. split; [reflexivity |].
    split; [intros s' r Hin; simpl in Hin; intuition discriminate |].
    intros s'. split.
    + intros Hin; simpl in Hin; intuition discriminate.
    + intros [r [Hin _]]; simpl in Hin; intuition discriminate.
  - split; [| discriminate].
    split; [reflexivity | simpl; lia |].
    exists [Sent s command; Received s text; Closed s].
    split; [unfold record; simpl; now rewrite <- !app_assoc |].
    split.
    + intros s' r Hin. simpl in Hin.
      destruct Hin as [Hin | [Hin | [Hin | []]]]; try discriminate.
      injection Hin as <- <-. exact Hs.
    + intros s'. split.
      * intros Hin. exists text. split; [| reflexivity].
        simpl in Hin. destruct Hin as [Hin | [Hin | [Hin | []]]]; try discriminate.
        injection Hin as <-. simpl. auto.
      * intros [r [Hin _]]. simpl in Hin.
        destruct Hin as [Hin | [Hin | [Hin | []]]]; try discriminate.
        injection Hin as <- <-. simpl. auto.
  - split; [| discriminate].
    split; [reflexivity | simpl; lia |].
    exists [Sent s command; Undecoded s].
    split; [unfold record; simpl; now rewrite <- !app_assoc |].
    split; [intros s' r Hin; simpl in Hin; intuition discriminate |].
    intros s'. split.
    + intros Hin; simpl in Hin; intuition discriminate.
    + intros [r [Hin _]]; simpl in Hin; intuition discriminate.
Qed.

Lemma sound_send_all (commands : list string) : sound any_reply (send_all commands).
Proof.
  unfold send_all. apply sound_for_each. intros item.
  apply sound_bind; [apply sound_connect_robot |].
  intros PF400. apply sound_send_receive.
Qed.

End SoundSockets.

#[local] Hint Resolve sound_ret sound_get sound_sleep sound_getitem sound_location
  sound_move_command sound_connect_robot sound_send_receive sound_send_all : pf400.

(** ** Soundness of the operations *)

(** Breaks a method into its statements for [sound]. *)
Ltac sound_statements :=
  repeat first
    [ progress intros
    | solve [auto with pf400]
    | apply sound_raise; reflexivity
    | apply sound_bind
    | apply sound_for_each
    | match goal with
      | |- context [let '(_, _) := ?p in _] => destruct p
      | |- context [if ?b then _ else _] => destruct b
      end ].

Lemma sound_set_profile (profile_dict : dict) : sound any_reply (set_profile profile_dict).
Proof. unfold set_profile. sound_statements. Qed.

Lemma sound_check_robot_heartbeat : sound any_reply check_robot_heartbeat.
Proof. unfold check_robot_heartbeat. sound_statements. Qed.

Lemma sound_stop_robot : sound any_reply stop_robot.
Proof. unfold stop_robot. sound_statements. Qed.

Lemma sound_set_speed (speed : number) : sound any_reply (set_speed speed).
Proof. unfold set_speed. sound_statements. Qed.

Lemma sound_move_single (target_location : string) (profile : Z) (grap release : bool) :
  sound any_reply (move_single target_location profile grap release).
Proof. unfold move_single. sound_statements. Qed.

Lemma sound_pick_plate_ot2 (elided : list pick_up_command) (ot2_ID profile : Z) :
  sound any_reply (pick_plate_ot2 elided ot2_ID profile).
Proof. unfold pick_plate_ot2. sound_statements. Qed.

Lemma sound_drop_plate_ot2 (ot2_ID profile : Z) :
  sound any_reply (drop_plate_ot2 ot2_ID profile).
Proof. unfold drop_plate_ot2. sound_statements. Qed.

Lemma sound_pick_plate_from_rack (ot2_ID profile : Z) :
  sound any_reply (pick_plate_from_rack ot2_ID profile).
Proof. unfold pick_plate_from_rack. sound_statements. Qed.

Lemma sound_drop_complete_plate (profile : Z) :
  sound any_reply (drop_complete_plate profile).
Proof. unfold drop_complete_plate. sound_statements. Qed.

#[local] Hint Resolve sound_move_single sound_pick_plate_ot2 sound_drop_plate_ot2
  sound_pick_plate_from_rack sound_drop_complete_plate : pf400.

Lemma sound_program_robot_target (elided : list pick_up_command) (job : string)
    (robot_ID_list : list Z) :
  sound any_reply (program_robot_target elided job robot_ID_list).
Proof. unfold program_robot_target. sound_statements. Qed.

(** The same for the location table. *)

Lemma locations_set_profile (profile_dict : dict) :
  preserves location_dictionary (set_profile profile_dict).
Proof. unfold set_profile. statements. Qed.

Lemma locations_check_robot_heartbeat :
  preserves location_dictionary check_robot_heartbeat.
Proof. unfold check_robot_heartbeat. statements. Qed.

Lemma locations_stop_robot : preserves location_dictionary stop_robot.
Proof. unfold stop_robot. statements. Qed.

Lemma locations_set_speed (speed : number) :
  preserves location_dictionary (set_speed speed).
Proof. unfold set_speed. statements. Qed.

Lemma locations_move_single (target_location : string) (profile : Z)
    (grap release : bool) :
  preserves location_dictionary (move_single target_location profile grap release).
Proof. unfold move_single. statements. Qed.

Lemma locations_pick_plate_ot2 (elided : list pick_up_command) (ot2_ID profile : Z) :
  preserves location_dictionary (pick_plate_ot2 elided ot2_ID profile).
Proof. unfold pick_plate_ot2. statements. Qed.

Lemma locations_drop_plate_ot2 (ot2_ID profile : Z) :
  preserves location_dictionary (drop_plate_ot2 ot2_ID profile).
Proof. unfold drop_plate_ot2. statements. Qed.

Lemma locations_pick_plate_from_rack (ot2_ID profile : Z) :
  preserves location_dictionary (pick_plate_from_rack ot2_ID profile).
Proof. unfold pick_plate_from_rack. statements. Qed.

Lemma locations_drop_complete_plate (profile : Z) :
  preserves location_dictionary (drop_complete_plate profile).
Proof. unfold drop_complete_plate. statements. Qed.

#[local] Hint Resolve locations_move_single locations_pick_plate_ot2
  locations_drop_plate_ot2 locations_pick_plate_from_rack
  locations_drop_complete_plate : pf400.

Lemma locations_program_robot_target (elided : list pick_up_command) (job : string)
    (robot_ID_list : list Z) :
  preserves location_dictionary (program_robot_target elided job robot_ID_list).
Proof. unfold program_robot_target. statements. Qed.

(** ** Locate *)

Lemma int_raises (s : string) (e : exn) : int s = Raise e -> e = ValueError.
Proof.
  unfold int.
  match goal with |- match ?parsed with _ => _ end = _ -> _ => destruct parsed end.
  - discriminate.
  - intros H. now injection H as <-.
Qed.

Lemma map_result_int_raises (fields : list string) (e : exn) :
  map_result int fields = Raise e -> e = ValueError.
Proof.
  induction fields as [|x fields IH]; simpl; [discriminate |].
  destruct (int x) as [z | e'] eqn:Hx.
  - destruct (map_result int fields) as [zs | e'']; [discriminate |].
    intros H. injection H as <-. now apply IH.
  - intros H. injection H as <-. now apply int_raises in Hx.
Qed.

(** [locate_robot] case by case on what its socket does. *)
Lemma locate_robot_cases (st : state) :
  locate_robot st =
  let s := opened st in
  let connected := open_next [Created s; Connected s (host st) (port st)] st in
  let command := "wherej" +:+ nl in
  match net st s with
  | CreateFails => (Raise AttributeError, open_next [] st)
  | ConnectFails => (Raise SocketError, open_next [Created s] st)
  | SendFails => (Raise (UnboundLocalError "coordinate_list"), connected)
  | RecvFails =>
      (Raise (UnboundLocalError "coordinate_list"), record [Sent s command] connected)
  | Replies text =>
      let received := record [Received s text] (record [Sent s command] connected) in
      match map_result int (str_split space text) with
      | Ok coordinate_list => (Ok coordinate_list, record [Closed s] received)
      | Raise _ => (Raise ValueError, received)
      end
  | Undecodable =>
      (Raise UnicodeDecodeError,
       record [Undecoded s] (record [Sent s command] connected))
  end.
Proof.
  unfold locate_robot, bind, connect_robot, try_except_else, send, recv, lift,
    disconnect_robot, ret, raise.
  destruct (net st (opened st)) as [ | | | | text | ] eqn:Hs; cbn;
    repeat (rewrite Hs; cbn); try reflexivity.
  unfold space.
  destruct (map_result int (str_split " " text)) as [l | e] eqn:Hparse.
  - reflexivity.
  - apply map_result_int_raises in Hparse. subst e. reflexivity.
Qed.

Lemma locate_robot_opened (st : state) :
  opened (snd (locate_robot st)) = S (opened st).
Proof.
  rewrite locate_robot_cases. cbv zeta.
  destruct (net st (opened st)); try reflexivity.
  destruct (map_result int (str_split space text)); reflexivity.
Qed.

Lemma locations_locate_robot : preserves location_dictionary locate_robot.
Proof.
  intros st. rewrite locate_robot_cases. cbv zeta.
  destruct (net st (opened st)); try reflexivity.
  destruct (map_result int (str_split space text)); reflexivity.
Qed.

Lemma locate_robot_needs_reply (st : state) :
  is_reply (net st (opened st)) = false ->
  exists e : exn, fst (locate_robot st) = Raise e.
Proof.
  intros Hs. rewrite locate_robot_cases. cbv zeta.
  destruct (net st (opened st)); try discriminate; eexists; reflexivity.
Qed.

Lemma sound_locate_robot : sound parses locate_robot.
Proof.
  intros st. rewrite locate_robot_cases. cbv zeta.
  destruct (net st (opened st)) as [ | | | | text | ] eqn:Hs.
  5: destruct (map_result int (str_split space text)) as [l | e] eqn:Hparse.
  all: split; [| intros Hr; try discriminate].
  all: try (exists (opened st); split; [simpl; lia | exact Hs]).
  all: split; [reflexivity | simpl; lia |].
  - exists []. split; [unfold open_next; simpl; reflexivity |].
    split; [intros s r [] |]. intros s. split; [intros [] | intros [r [[] _]]].
  - exists [Created (opened st)]. split; [reflexivity |].
    split; [intros s r Hin; simpl in Hin; intuition discriminate |].
    intros s. split; [intros Hin | intros [r [Hin _]]];
      simpl in Hin; intuition discriminate.
  - eexists. split; [reflexivity |].
    split; [intros s r Hin; simpl in Hin; intuition discriminate |].
    intros s. split; [intros Hin | intros [r [Hin _]]];
      simpl in Hin; intuition discriminate.
  - eexists. split; [unfold record, open_next; simpl; rewrite <- !app_assoc; reflexivity |].
    split; [intros s r Hin; simpl in Hin; intuition discriminate |].
    intros s. split; [intros Hin | intros [r [Hin _]]];
      simpl in Hin; intuition discriminate.
  - eexists. split; [unfold record, open_next; simpl; rewrite <- !app_assoc; reflexivity |].
    split.
    + intros s r Hin. simpl in Hin.
      destruct Hin as [Hin | [Hin | [Hin | [Hin | [Hin | []]]]]]; try discriminate.
      injection Hin as <- <-. exact Hs.
    + intros s. split.
      * intros Hin. exists text. simpl in Hin.
        destruct Hin as [Hin | [Hin | [Hin | [Hin | [Hin | []]]]]]; try discriminate.
        injection Hin as <-. split; [simpl; auto |].
        unfold parses. now rewrite Hparse.
      * intros [r [Hin _]]. simpl in Hin.
        destruct Hin as [Hin | [Hin | [Hin | [Hin | [Hin | []]]]]]; try discriminate.
        injection Hin as <- <-. simpl. auto 6.
  - eexists. split; [unfold record, open_next; simpl; rewrite <- !app_assoc; reflexivity |].
    split.
    + intros s r Hin. simpl in Hin.
      destruct Hin as [Hin | [Hin | [Hin | [Hin | []]]]]; try discriminate.
      injection Hin as <- <-. exact Hs.
    + intros s. split.
      * intros Hin. simpl in Hin. intuition discriminate.
      * intros [r [Hin Hr]]. simpl in Hin.
        destruct Hin as [Hin | [Hin | [Hin | [Hin | []]]]]; try discriminate.
        injection Hin as <- <-. unfold parses in Hr. rewrite Hparse in Hr. discriminate.
  - eexists. split; [unfold record, open_next; simpl; rewrite <- !app_assoc; reflexivity |].
    split; [intros s r Hin; simpl in Hin; intuition discriminate |].
    intros s. split; [intros Hin | intros [r [Hin _]]];
      simpl in Hin; intuition discriminate.
Qed.

(** ** Teach *)

Lemma preserves_set_joint {B} (f : state -> B) (key : string) (count : nat)
    (value : number) :
  (forall d st, f (set_location_dictionary d st) = f st) ->
  preserves f (set_joint key count value).
Proof.
  intros Hf st. unfold set_joint, bind, location, raise.
  destruct (location_dictionary st !! key) as [joints |]; [| reflexivity].
  destruct (count <? length joints)%nat; simpl; [apply Hf | reflexivity].
Qed.

Lemma preserves_set_joint_net key count value :
  preserves net (set_joint key count value).
Proof. apply preserves_set_joint. reflexivity. Qed.

Lemma preserves_set_joint_opened key count value :
  preserves opened (set_joint key count value).
Proof. apply preserves_set_joint. reflexivity. Qed.

Lemma preserves_set_joint_trace key count value :
  preserves trace (set_joint key count value).
Proof. apply preserves_set_joint. reflexivity. Qed.

#[local] Hint Resolve preserves_set_joint_net preserves_set_joint_opened
  preserves_set_joint_trace : pf400.

(** A [try] whose handler catches every exception and falls through. *)
Lemma try_catch_all {A C} (body : M A) (c : C) (st : state) :
  try_except_else body is_exception (fun _ => ret c) (fun _ => ret c) st
  = (Ok c, snd (body st)).
Proof.
  unfold try_except_else. destruct (body st) as [[a | e] st1]; reflexivity.
Qed.

Lemma snd_bind {A C B} (f : state -> B) (m : M A) (k : A -> M C) (st : state) :
  (forall a, preserves f (k a)) -> f (snd (bind m k st)) = f (snd (m st)).
Proof.
  intros Hk. unfold bind. destruct (m st) as [[a | e] st1]; simpl;
    [apply Hk | reflexivity].
Qed.

Lemma teach_location_opened (location : string) (robot_id : option Z) (st : state) :
  opened (snd (teach_location location robot_id st)) = S (opened st).
Proof.
  unfold teach_location. rewrite snd_bind; [apply locate_robot_opened |].
  intros current_location. unfold overwrite. statements.
Qed.

Lemma teach_location_after_failed_locate (location : string) (robot_id : option Z)
    (st : state) (e : exn) :
  fst (locate_robot st) = Raise e ->
  teach_location location robot_id st = (Raise e, snd (locate_robot st)).
Proof.
  intros He. unfold teach_location, bind.
  destruct (locate_robot st) as [[l | e'] st1]; simpl in *; congruence.
Qed.

(** Without a station identifier no branch of [teach_location] writes: the
    comparison of the method object fails for every name, the [raise] of the
    last branch is caught by the handler, and the call returns. *)
Lemma teach_location_global (location : string) (st : state) :
  teach_location location None st =
  match locate_robot st with
  | (Ok _, st1) => (Ok tt, st1)
  | (Raise e, st1) => (Raise e, st1)
  end.
Proof.
  unfold teach_location, bind at 1.
  destruct (locate_robot st) as [[l | e] st1]; [| reflexivity].
  rewrite try_catch_all. reflexivity.
Qed.

Lemma sound_teach_location (location : string) (robot_id : option Z) :
  sound parses (teach_location location robot_id).
Proof.
  unfold teach_location. apply sound_bind; [apply sound_locate_robot |].
  intros current_location.
  apply sound_quiet; [unfold overwrite; statements .. |].
  intros st. rewrite try_catch_all. discriminate.
Qed.

(** ** Every operation *)

Lemma sound_returns_none (ok : string -> bool) (m : M unit) :
  sound ok m -> sound ok (returns_none m).
Proof.
  intros Hm. unfold returns_none. apply sound_bind; [exact Hm |].
  intros _. apply sound_ret.
Qed.

Lemma sound_run (elided : list pick_up_command) (op : operation) :
  sound (accepts op) (run elided op).
Proof.
  destruct op; simpl; try apply sound_returns_none.
  - apply sound_set_profile.
  - apply sound_check_robot_heartbeat.
  - apply sound_stop_robot.
  - apply sound_set_speed.
  - apply sound_move_single.
  - apply sound_pick_plate_ot2.
  - apply sound_drop_plate_ot2.
  - apply sound_pick_plate_from_rack.
  - apply sound_drop_complete_plate.
  - apply sound_program_robot_target.
  - apply sound_bind; [apply sound_locate_robot | intros l; apply sound_ret].
  - apply sound_teach_location.
Qed.

Lemma locations_returns_none (m : M unit) :
  preserves location_dictionary m -> preserves location_dictionary (returns_none m).
Proof.
  intros Hm. unfold returns_none. apply preserves_bind; [exact Hm |].
  intros _. apply preserves_ret.
Qed.

(** Only [teach_location] writes the location table. *)
Lemma locations_run (elided : list pick_up_command) (op : operation) :
  (forall location robot_id, op <> TeachLocation location robot_id) ->
  preserves location_dictionary (run elided op).
Proof.
  intros Hop. destruct op; simpl; try apply locations_returns_none.
  - apply locations_set_profile.
  - apply locations_check_robot_heartbeat.
  - apply locations_stop_robot.
  - apply locations_set_speed.
  - apply locations_move_single.
  - apply locations_pick_plate_ot2.
  - apply locations_drop_plate_ot2.
  - apply locations_pick_plate_from_rack.
  - apply locations_drop_complete_plate.
  - apply locations_program_robot_target.
  - apply preserves_bind; [apply locations_locate_robot | intros l; apply preserves_ret].
  - destruct (Hop location0 robot_id eq_refl).
Qed.

Lemma trace_record (evs : list event) (st : state) :
  trace (record evs st) = (trace st ++ evs)%list.
Proof. reflexivity. Qed.

Lemma trace_open_next (evs : list event) (st : state) :
  trace (open_next evs st) = (trace st ++ evs)%list.
Proof. reflexivity. Qed.

Lemma new_events_app (st st' : state) (evs : list event) :
  trace st' = (trace st ++ evs)%list -> new_events st st' = evs.
Proof. intros H. unfold new_events. rewrite H. apply drop_app_length. Qed.

(** A transport failure during [teach_location] is a failure of the one socket
    [locate_robot] opens, and then nothing is written. *)
Lemma teach_location_transport_failure (location : string) (robot_id : option Z)
    (st : state) :
  transport_failed st (snd (teach_location location robot_id st)) ->
  location_dictionary (snd (teach_location location robot_id st))
  = location_dictionary st.
Proof.
  intros (i & Hi & Hfail). rewrite teach_location_opened in Hi.
  assert (i = opened st) as -> by lia.
  destruct (locate_robot_needs_reply st Hfail) as [e He].
  rewrite (teach_location_after_failed_locate _ _ _ _ He). simpl.
  apply locations_locate_robot.
Qed.

(** ** Transport failures: C5 *)

(** C5, as the client behaves.  If the transport fails during an operation,
    the location table is the same after the call as before it.  The failure
    reaches the caller as a socket error only when a socket could not connect:
    a failed send or receive is caught inside the operation, which goes on. *)
Theorem transport_failure_effects (elided : list pick_up_command) (op : operation)
    (st : state) :
  transport_failed st (snd (run elided op st)) ->
  location_dictionary (snd (run elided op st)) = location_dictionary st
  /\ ((forall i : nat,
         (opened st <= i < opened (snd (run elided op st)))%nat ->
         net st i <> ConnectFails) ->
      ~ transport_error (fst (run elided op st))).
Proof.
  intros Hfail. split.
  - destruct op;
      try (apply locations_run; intros location' robot_id'; discriminate).
    simpl in *. unfold returns_none in *.
    rewrite (snd_bind location_dictionary) by (intros a; apply preserves_ret).
    apply teach_location_transport_failure.
    destruct Hfail as (i & Hi & Hs). exists i. split; [| exact Hs].
    rewrite (snd_bind opened) in Hi by (intros a; apply preserves_ret).
    exact Hi.
  - intros Hconnect Herr.
    destruct (sound_run elided op st) as [_ Hsock].
    destruct (Hsock Herr) as (i & Hi & Hs).
    exact (Hconnect i Hi Hs).
Qed.

Lemma transport_failure_effects_witness :
  let st := sample (always SendFails) in
  let op := MoveSingle "HomeALL" 2 false false in
  transport_failed st (snd (run documented_rest op st))
  /\ location_dictionary (snd (run documented_rest op st)) = location_dictionary st
  /\ ((forall i : nat,
         (opened st <= i < opened (snd (run documented_rest op st)))%nat ->
         net st i <> ConnectFails) ->
      ~ transport_error (fst (run documented_rest op st))).
Proof.
  intros st op.
  assert (Hfail : transport_failed st (snd (run documented_rest op st))).
  { exists 0%nat. split; [vm_compute; lia | reflexivity]. }
  split; [exact Hfail | exact (transport_failure_effects documented_rest op st Hfail)].
Defined.

(** The one-command methods without arguments to look up return [None] when
    their send or receive fails, as they do after a reply. *)
Lemma one_command_failure_returns_none (elided : list pick_up_command) (st : state) :
  net st (opened st) = SendFails \/ net st (opened st) = RecvFails ->
  fst (run elided StopRobot st) = Ok VNone
  /\ fst (run elided CheckRobotHeartbeat st) = Ok VNone
  /\ forall speed : number, fst (run elided (SetSpeed speed) st) = Ok VNone.
Proof.
  intros Hs.
  unfold run, returns_none, stop_robot, check_robot_heartbeat, set_speed,
    send_receive, try_except_else, bind, connect_robot, send, recv, ret.
  destruct Hs as [Hs | Hs]; repeat (rewrite Hs; cbn); auto.
Qed.

(** C5, as stated, fails: on a network where every send fails, [move_single]
    to a location of the table has its socket fail and returns [None] as after
    a successful move; no transport error reaches the caller. *)
Lemma move_single_swallows_send_failure :
  let st := sample (always SendFails) in
  let call := move_single "HomeALL" 2 false false st in
  transport_failed st (snd call)
  /\ fst call = Ok tt
  /\ fst call = fst (move_single "HomeALL" 2 false false (sample (always (Replies "0"))))
  /\ ~ transport_error (fst call).
Proof.
  intros st call. split; [| split; [| split]].
  - exists 0%nat. split; [vm_compute; lia | reflexivity].
  - reflexivity.
  - reflexivity.
  - discriminate.
Qed.

(** ** Closing sockets: C6 *)

(** C6, as the client behaves.  During any operation a socket is closed
    exactly when it received a reply that decoded (for [locate_robot] and
    [teach_location]: and parsed as integers).  A socket whose send or receive
    fails is not closed, and neither is one whose reply does not decode. *)
Theorem socket_closed_after_reply (elided : list pick_up_command) (op : operation)
    (st : state) (s : sock) :
  let evs := new_events st (snd (run elided op st)) in
  (In (Closed s) evs <-> exists r : string, In (Received s r) evs /\ accepts op r = true)
  /\ (forall r : string, In (Received s r) evs -> net st s = Replies r)
  /\ (net st s = SendFails \/ net st s = RecvFails \/ net st s = Undecodable ->
      ~ In (Closed s) evs).
Proof.
  destruct (sound_run elided op st) as [[_ _ (evs & Htrace & Hrecv & Hclose)] _].
  rewrite (new_events_app _ _ _ Htrace). cbv zeta.
  split; [apply Hclose |]. split; [apply Hrecv |].
  intros Hs Hin. apply Hclose in Hin as (r & Hin & _).
  apply Hrecv in Hin. destruct Hs as [Hs | [Hs | Hs]]; congruence.
Qed.

(** C6, as stated, fails: when the send of [stop_robot] fails, the socket that
    was created and connected is never closed, and the call returns. *)
Lemma stop_robot_leaves_socket_open :
  let st := sample (always SendFails) in
  fst (stop_robot st) = Ok tt
  /\ trace (snd (stop_robot st)) = [Created 0%nat; Connected 0%nat "192.168.0.1" 10100]
  /\ ~ In (Closed 0%nat) (trace (snd (stop_robot st))).
Proof.
  intros st. split; [reflexivity |]. split; [reflexivity |].
  intros Hin. vm_compute in Hin. intuition discriminate.
Qed.

(** ** Profiles: C2 *)

Lemma profile_loop (d : dict) : forall command : string,
  fold_left (fun command item => command +:+ " " +:+ str (snd item)) d command
  = command +:+ join_arguments (map (fun item => str (snd item)) d).
Proof.
  induction d as [|item d IH]; intros command.
  - simpl. now rewrite append_nil_r.
  - cbn [fold_left map join_arguments fold_right]. rewrite IH.
    now rewrite !append_assoc.
Qed.

(** A profile command is its name, one argument per entry of the dictionary in
    order, and a newline. *)
Lemma profile_command_text (name : string) (d : dict) :
  profile_command name d
  = name +:+ join_arguments (map (fun item => str (snd item)) d) +:+ nl.
Proof. unfold profile_command. rewrite profile_loop. apply append_assoc. Qed.

Lemma set_profile_defaults (profile_dict slow fast : dict) (st : state) :
  length profile_dict = 1%nat ->
  motion_profile st !! 0%nat = Some slow ->
  motion_profile st !! 1%nat = Some fast ->
  sends (net st (opened st)) = true ->
  decodes (net st (opened st)) = true ->
  sends (net st (S (opened st))) = true ->
  decodes (net st (S (opened st))) = true ->
  fst (set_profile profile_dict st) = Ok tt
  /\ sent (new_events st (snd (set_profile profile_dict st)))
     = [profile_command "Profile 1" slow; profile_command "Profile 2" fast].
Proof.
  intros Hlen Hslow Hfast H0 D0 H1 D1.
  unfold set_profile. rewrite Hlen. cbn [Nat.eqb].
  generalize (profile_command "Profile 1"), (profile_command "Profile 2").
  intros command1 command2.
  unfold bind, connect_robot, get, getitem, send_receive, try_except_else, bind,
    send, recv, disconnect_robot, ret, raise.
  destruct (net st (opened st)) eqn:E0; try discriminate; cbn;
    repeat (rewrite ?E0, ?Hslow, ?Hfast; cbn);
    destruct (net st (S (opened st))) eqn:E1; try discriminate; cbn;
    repeat (rewrite ?E1, ?Hslow, ?Hfast; cbn).
  all: split; [reflexivity |].
  all: unfold new_events;
    repeat first [rewrite trace_record | rewrite trace_open_next];
    rewrite <- !app_assoc, drop_app_length; reflexivity.
Qed.

Lemma set_profile_custom (profile_dict : dict) (st : state) :
  length profile_dict = 8%nat ->
  sends (net st (opened st)) = true ->
  decodes (net st (opened st)) = true ->
  fst (set_profile profile_dict st) = Ok tt
  /\ sent (new_events st (snd (set_profile profile_dict st)))
     = [profile_command "Profile 3" profile_dict].
Proof.
  intros Hlen H0 D0.
  unfold set_profile. rewrite Hlen. cbn [Nat.eqb].
  generalize (profile_command "Profile 3" profile_dict). intros command.
  unfold bind, connect_robot, get, getitem, send_receive, try_except_else, bind,
    send, recv, disconnect_robot, ret, raise.
  destruct (net st (opened st)) eqn:E0; try discriminate; cbn;
    repeat (rewrite ?E0; cbn).
  all: split; [reflexivity |].
  all: unfold new_events;
    repeat first [rewrite trace_record | rewrite trace_open_next];
    rewrite <- !app_assoc, drop_app_length; reflexivity.
Qed.

Lemma set_profile_rejects (profile_dict : dict) (st : state) :
  length profile_dict <> 1%nat ->
  length profile_dict <> 8%nat ->
  set_profile profile_dict st
  = (Raise (Exception ("Motion profile takes 8 arguments, "
                       +:+ str_int (Z.of_nat (length profile_dict)) +:+ " where given")),
     st).
Proof.
  intros H1 H8. unfold set_profile.
  apply Nat.eqb_neq in H1, H8. rewrite H1, H8. reflexivity.
Qed.

(** C2. A dictionary of one entry makes [set_profile] send exactly two
    commands, [Profile 1] and [Profile 2] with the values of the two default
    profiles, when the robot is configured with both, the network lets the
    two commands out and what comes back decodes; a dictionary of eight
    entries makes it send exactly one, [Profile 3] with the values of the
    dictionary, under the same condition on its socket; for any other size it
    sends nothing, leaves the state as it was and raises an [Exception]. *)
Theorem set_profile_commands (profile_dict slow fast : dict) (st : state) :
  let call := set_profile profile_dict st in
  let values (d : dict) := join_arguments (map (fun item => str (snd item)) d) in
  match length profile_dict with
  | 1%nat =>
      motion_profile st !! 0%nat = Some slow ->
      motion_profile st !! 1%nat = Some fast ->
      sends (net st (opened st)) = true ->
      decodes (net st (opened st)) = true ->
      sends (net st (S (opened st))) = true ->
      decodes (net st (S (opened st))) = true ->
      fst call = Ok tt
      /\ sent (new_events st (snd call))
         = ["Profile 1" +:+ values slow +:+ nl; "Profile 2" +:+ values fast +:+ nl]
  | 8%nat =>
      sends (net st (opened st)) = true ->
      decodes (net st (opened st)) = true ->
      fst call = Ok tt
      /\ sent (new_events st (snd call)) = ["Profile 3" +:+ values profile_dict +:+ nl]
  | _ =>
      (exists msg : string, fst call = Raise (Exception msg))
      /\ snd call = st
      /\ sent (new_events st (snd call)) = []
  end.
Proof.
  intros call values.
  destruct (Nat.eq_dec (length profile_dict) 1%nat) as [Hone | Hone];
    [| destruct (Nat.eq_dec (length profile_dict) 8%nat) as [Height | Height]].
  - rewrite Hone. intros Hslow Hfast H0 D0 H1 D1.
    subst values. cbv beta. rewrite <- !profile_command_text.
    now apply set_profile_defaults.
  - rewrite Height. intros H0 D0.
    subst values. cbv beta. rewrite <- !profile_command_text.
    now apply set_profile_custom.
  - assert (Hcall : call = (Raise (Exception ("Motion profile takes 8 arguments, "
                       +:+ str_int (Z.of_nat (length profile_dict)) +:+ " where given")),
                            st))
      by now apply set_profile_rejects.
    assert (Hgoal : (exists msg : string, fst call = Raise (Exception msg))
                    /\ snd call = st /\ sent (new_events st (snd call)) = []).
    { rewrite Hcall. simpl. split; [eexists; reflexivity |]. split; [reflexivity |].
      unfold new_events. now rewrite drop_all. }
    destruct (length profile_dict) as [|[|[|[|[|[|[|[|[|n]]]]]]]]];
      try exact Hgoal; congruence.
Qed.

Lemma set_profile_commands_witness :
  let st := sample (always (Replies "0")) in
  motion_profile st !! 0%nat = Some (sample_profiles !!! 0%nat)
  /\ motion_profile st !! 1%nat = Some (sample_profiles !!! 1%nat)
  /\ sends (net st (opened st)) = true
  /\ decodes (net st (opened st)) = true
  /\ sends (net st (S (opened st))) = true
  /\ decodes (net st (S (opened st))) = true
  /\ fst (set_profile [("0", NInt 0)] st) = Ok tt
  /\ sent (new_events st (snd (set_profile [("0", NInt 0)] st)))
     = ["Profile 1 30 0 100 100 0.1 0.1 0 0" +:+ nl;
        "Profile 2 60 0 100 100 0.1 0.1 0 0" +:+ nl].
Proof.
  intros st. do 6 (split; [reflexivity |]).
  exact (set_profile_commands [("0", NInt 0)] (sample_profiles !!! 0%nat)
           (sample_profiles !!! 1%nat) st
           eq_refl eq_refl eq_refl eq_refl eq_refl eq_refl).
Defined.

(** ** Routines as lists of commands: C3 *)

Lemma sent_app (evs1 evs2 : list event) :
  sent (evs1 ++ evs2) = (sent evs1 ++ sent evs2)%list.
Proof.
  induction evs1 as [|ev evs1 IH]; [reflexivity |].
  destruct ev; simpl; now rewrite ?IH.
Qed.

(** ** One command on its own socket *)

(** The pair [PF400 = connect_robot()] and the [try] statement that follows it,
    case by case on what the socket does. *)
Lemma exchange_cases (command : string) (st : state) :
  bind connect_robot (fun PF400 => send_receive PF400 command) st =
  let s := opened st in
  let connected := open_next [Created s; Connected s (host st) (port st)] st in
  match net st s with
  | CreateFails => (Raise AttributeError, open_next [] st)
  | ConnectFails => (Raise SocketError, open_next [Created s] st)
  | SendFails => (Ok tt, connected)
  | RecvFails => (Ok tt, record [Sent s command] connected)
  | Replies text =>
      (Ok tt, record [Closed s] (record [Received s text]
                                   (record [Sent s command] connected)))
  | Undecodable =>
      (Raise UnicodeDecodeError,
       record [Undecoded s] (record [Sent s command] connected))
  end.
Proof.
  unfold bind, connect_robot, send_receive, try_except_else, bind, send, recv,
    disconnect_robot, ret.
  destruct (net st (opened st)) eqn:Hs; cbn; repeat (rewrite Hs; cbn); reflexivity.
Qed.

(** What one such exchange leaves behind when its socket connects and its
    reply, if any, decodes. *)
Lemma exchange_connected (command : string) (st : state) :
  goes_on (net st (opened st)) = true ->
  exists st1 : state,
    bind connect_robot (fun PF400 => send_receive PF400 command) st = (Ok tt, st1)
    /\ opened st1 = S (opened st)
    /\ net st1 = net st
    /\ location_dictionary st1 = location_dictionary st
    /\ exists evs : list event,
         trace st1 = (trace st ++ evs)%list
         /\ sent evs = if sends (net st (opened st)) then [command] else [].
Proof.
  intros Hc. rewrite exchange_cases. cbv zeta.
  destruct (net st (opened st)); try discriminate; eexists;
    (split; [reflexivity |]); (split; [reflexivity |]); (split; [reflexivity |]);
    (split; [reflexivity |]); eexists;
    (split; [repeat first [rewrite trace_record | rewrite trace_open_next];
             rewrite <- ?app_assoc; reflexivity | reflexivity]).
Qed.

(** ** The loop over a list of commands *)

Lemma bind_ok {A C} (m : M A) (k : A -> M C) (st st1 : state) (a : A) :
  m st = (Ok a, st1) -> bind m k st = k a st1.
Proof. intros H. unfold bind. now rewrite H. Qed.

Lemma bind_raise {A C} (m : M A) (k : A -> M C) (st st1 : state) (e : exn) :
  m st = (Raise e, st1) -> bind m k st = (Raise e, st1).
Proof. intros H. unfold bind. now rewrite H. Qed.

Lemma send_loop (commands : list string) : forall (k : nat) (st : state),
  (forall i : nat, (i < length commands)%nat ->
                   goes_on (net st (opened st + i)) = true) ->
  exists st' : state,
    for_each (enumerate_from k commands)
      (fun item => PF400 <- connect_robot ;; send_receive PF400 (snd item)) st
    = (Ok tt, st')
    /\ opened st' = (opened st + length commands)%nat
    /\ net st' = net st
    /\ location_dictionary st' = location_dictionary st
    /\ exists evs : list event,
         trace st' = (trace st ++ evs)%list
         /\ sent evs = delivered (net st) (opened st) commands.
Proof.
  induction commands as [|command commands IH]; intros k st Hconn.
  - exists st. simpl. rewrite Nat.add_0_r. repeat split.
    exists []. now rewrite app_nil_r.
  - cbn [enumerate_from for_each snd].
    assert (H0 : goes_on (net st (opened st)) = true).
    { rewrite <- (Nat.add_0_r (opened st)). apply Hconn. simpl. lia. }
    destruct (exchange_connected command st H0)
      as (st1 & Hrun & Hop1 & Hnet1 & Hloc1 & evs1 & Htr1 & Hsent1).
    destruct (IH (S k) st1) as (st' & Hrest & Hop & Hnet & Hloc & evs & Htr & Hsent).
    { intros i Hi. rewrite Hnet1, Hop1.
      replace (S (opened st) + i)%nat with (opened st + S i)%nat by lia.
      apply Hconn. simpl. lia. }
    exists st'. split.
    { rewrite (bind_ok _ _ _ _ _ Hrun). exact Hrest. }
    split; [rewrite Hop, Hop1; simpl; lia |].
    split; [congruence |]. split; [congruence |].
    exists (evs1 ++ evs)%list. split; [rewrite Htr, Htr1; now rewrite app_assoc |].
    rewrite sent_app, Hsent1, Hsent, Hnet1, Hop1. cbn [delivered].
    destruct (sends (net st (opened st))); reflexivity.
Qed.

Lemma send_all_connected (commands : list string) (st : state) :
  (forall i : nat, (i < length commands)%nat ->
                   goes_on (net st (opened st + i)) = true) ->
  fst (send_all commands st) = Ok tt
  /\ opened (snd (send_all commands st)) = (opened st + length commands)%nat
  /\ location_dictionary (snd (send_all commands st)) = location_dictionary st
  /\ sent (new_events st (snd (send_all commands st)))
     = delivered (net st) (opened st) commands.
Proof.
  intros Hconn. unfold send_all, enumerate.
  destruct (send_loop commands 0 st Hconn)
    as (st' & Hrun & Hop & _ & Hloc & evs & Htr & Hsent).
  rewrite Hrun. cbn [fst snd]. repeat split; try assumption.
  now rewrite (new_events_app _ _ _ Htr).
Qed.

Lemma delivered_all (script : nat -> conn_script) (commands : list string) :
  forall start : nat,
    (forall i : nat, (i < length commands)%nat -> sends (script (start + i)%nat) = true) ->
    delivered script start commands = commands.
Proof.
  induction commands as [|command commands IH]; intros start Hs; [reflexivity |].
  cbn [delivered].
  rewrite <- (Nat.add_0_r start) at 1. rewrite (Hs 0%nat) by (simpl; lia).
  f_equal. apply IH. intros i Hi.
  replace (S start + i)%nat with (start + S i)%nat by lia. apply Hs. simpl. lia.
Qed.

(** ** Routines as lists of moves *)

Lemma tries_send_all (commands : list string) (st : state) :
  (forall i : nat, (i < length commands)%nat ->
                   goes_on (net st (opened st + i)) = true) ->
  tries (send_all commands) st commands.
Proof. intros Hconn. unfold send_all, enumerate. now apply send_loop. Qed.

Lemma delivered_app (script : nat -> conn_script) (a b : list string) :
  forall start : nat,
    delivered script start (a ++ b)
    = (delivered script start a ++ delivered script (start + length a) b)%list.
Proof.
  induction a as [|x a IH]; intros start.
  - simpl. now rewrite Nat.add_0_r.
  - cbn [app delivered length]. rewrite IH.
    replace (S start + length a)%nat with (start + S (length a))%nat by lia.
    destruct (sends (script start)); reflexivity.
Qed.

Lemma tries_seq (m : M unit) (k : M unit) (st : state) (a b : list string) :
  tries m st a ->
  (forall st1 : state,
     opened st1 = (opened st + length a)%nat -> net st1 = net st ->
     location_dictionary st1 = location_dictionary st -> tries k st1 b) ->
  tries (bind m (fun _ => k)) st (a ++ b).
Proof.
  intros (st1 & Hrun & Hop1 & Hnet1 & Hloc1 & evs1 & Htr1 & Hsent1) Hk.
  destruct (Hk st1 Hop1 Hnet1 Hloc1)
    as (st2 & Hrun2 & Hop2 & Hnet2 & Hloc2 & evs2 & Htr2 & Hsent2).
  exists st2. split; [rewrite (bind_ok _ _ _ _ _ Hrun); exact Hrun2 |].
  split; [rewrite Hop2, Hop1, length_app; lia |].
  split; [congruence |]. split; [congruence |].
  exists (evs1 ++ evs2)%list. split; [rewrite Htr2, Htr1; now rewrite app_assoc |].
  rewrite sent_app, Hsent1, Hsent2, delivered_app, Hnet1, Hop1. reflexivity.
Qed.

(** What [tries] says about a call, in terms of its result and its events. *)
Lemma tries_result (m : M unit) (st : state) (moves : list string) :
  tries m st moves ->
  fst (m st) = Ok tt
  /\ opened (snd (m st)) = (opened st + length moves)%nat
  /\ location_dictionary (snd (m st)) = location_dictionary st
  /\ sent (new_events st (snd (m st))) = delivered (net st) (opened st) moves.
Proof.
  intros (st' & Hrun & Hop & _ & Hloc & evs & Htr & Hsent). rewrite Hrun.
  cbn [fst snd]. repeat split; try assumption.
  now rewrite (new_events_app _ _ _ Htr).
Qed.

Lemma move_command_ok (key : string) (joints : list number) (profile : Z)
    (grab release : bool) (st : state) :
  location_dictionary st !! key = Some joints ->
  profile = 1 \/ profile = 2 \/ profile = 3 ->
  move_command key profile grab release st
  = (Ok (move_line profile grab release joints), st).
Proof.
  intros Hkey Hprofile. unfold move_command, move_line.
  now rewrite (set_move_command_text grab release st key joints profile Hkey Hprofile).
Qed.

Lemma move_command_missing (key : string) (profile : Z) (grab release : bool)
    (st : state) :
  location_dictionary st !! key = None ->
  profile = 1 \/ profile = 2 \/ profile = 3 ->
  move_command key profile grab release st = (Raise (KeyError key), st).
Proof.
  intros Hkey Hprofile. unfold move_command, set_move_command. rewrite Hkey.
  destruct Hprofile as [-> | [-> | ->]]; reflexivity.
Qed.

Lemma speeds_valid (profile : Z) :
  (fst (speeds profile) = 1 \/ fst (speeds profile) = 2 \/ fst (speeds profile) = 3)
  /\ (snd (speeds profile) = 1 \/ snd (speeds profile) = 2 \/ snd (speeds profile) = 3).
Proof. unfold speeds. destruct (profile =? 3)%Z; simpl; auto. Qed.

(** Steps through the [set_move_command] calls at the head of a routine; the
    table entries and the profile bounds are among the hypotheses. *)
Ltac build_moves :=
  unfold tries;
  repeat (erewrite bind_ok; [| apply move_command_ok; eassumption]);
  fold tries.

Lemma tries_pick_plate_ot2 (elided : list pick_up_command) (ot2_ID profile : Z)
    (st : state) (front above pick : list number) :
  location_dictionary st !! ot2_key ot2_ID "_front" = Some front ->
  location_dictionary st !! ot2_key ot2_ID "_above_plate" = Some above ->
  location_dictionary st !! ot2_key ot2_ID "_pick_plate" = Some pick ->
  (forall i : nat, (i < 2 + length elided)%nat ->
                   goes_on (net st (opened st + i)) = true) ->
  tries (pick_plate_ot2 elided ot2_ID profile) st
    ([move_line (snd (speeds profile)) false false front;
      move_line (snd (speeds profile)) false false above]
     ++ map (pick_up_named
               (move_line (snd (speeds profile)) false false front)
               (move_line (snd (speeds profile)) false false above)
               (move_line (snd (speeds profile)) false false pick)
               (move_line (fst (speeds profile)) true false pick)
               (move_line (fst (speeds profile)) true false above)
               (move_line (fst (speeds profile)) true false front))
            elided)%list.
Proof.
  intros Hfront Habove Hpick Hconn. unfold pick_plate_ot2.
  destruct (speeds_valid profile) as [Hslow Hfast].
  destruct (speeds profile) as [slow fast]. cbn [fst snd] in *.
  build_moves. apply tries_send_all.
  intros i Hi. apply Hconn. rewrite length_app, length_map in Hi. exact Hi.
Qed.

Lemma tries_drop_plate_ot2 (ot2_ID profile : Z) (st : state)
    (front above pick : list number) :
  location_dictionary st !! ot2_key ot2_ID "_front" = Some front ->
  location_dictionary st !! ot2_key ot2_ID "_above_plate" = Some above ->
  location_dictionary st !! ot2_key ot2_ID "_pick_plate" = Some pick ->
  (forall i : nat, (i < 6)%nat -> goes_on (net st (opened st + i)) = true) ->
  tries (drop_plate_ot2 ot2_ID profile) st
    [move_line (fst (speeds profile)) true false front;
     move_line (fst (speeds profile)) true false above;
     move_line (fst (speeds profile)) true false pick;
     move_line (fst (speeds profile)) false true pick;
     move_line (snd (speeds profile)) false false above;
     move_line (snd (speeds profile)) false false front].
Proof.
  intros Hfront Habove Hpick Hconn. unfold drop_plate_ot2.
  destruct (speeds_valid profile) as [Hslow Hfast].
  destruct (speeds profile) as [slow fast]. cbn [fst snd] in *.
  build_moves. now apply tries_send_all.
Qed.

Lemma tries_pick_plate_from_rack (ot2_ID profile : Z) (st : state)
    (approach front rack : list number) :
  location_dictionary st !! ot2_key ot2_ID "_approach_plate_rack" = Some approach ->
  location_dictionary st !! ot2_key ot2_ID "_front_plate_rack" = Some front ->
  location_dictionary st !! ot2_key ot2_ID "_plate_rack" = Some rack ->
  (forall i : nat, (i < 6)%nat -> goes_on (net st (opened st + i)) = true) ->
  tries (pick_plate_from_rack ot2_ID profile) st
    [move_line (snd (speeds profile)) false false approach;
     move_line (fst (speeds profile)) false false front;
     move_line (fst (speeds profile)) false false rack;
     move_line (fst (speeds profile)) true false rack;
     move_line (fst (speeds profile)) true false front;
     move_line (fst (speeds profile)) true false approach].
Proof.
  intros Happroach Hfront Hrack Hconn. unfold pick_plate_from_rack.
  destruct (speeds_valid profile) as [Hslow Hfast].
  destruct (speeds profile) as [slow fast]. cbn [fst snd] in *.
  build_moves. now apply tries_send_all.
Qed.

Lemma tries_drop_complete_plate (profile : Z) (st : state)
    (above plate : list number) :
  location_dictionary st !! "Completed_plate_above" = Some above ->
  location_dictionary st !! "Completed_plate" = Some plate ->
  (forall i : nat, (i < 4)%nat -> goes_on (net st (opened st + i)) = true) ->
  tries (drop_complete_plate profile) st
    [move_line (fst (speeds profile)) true false above;
     move_line (fst (speeds profile)) true false plate;
     move_line (fst (speeds profile)) false true plate;
     move_line (fst (speeds profile)) false false above].
Proof.
  intros Habove Hplate Hconn. unfold drop_complete_plate.
  destruct (speeds_valid profile) as [Hslow Hfast].
  destruct (speeds profile) as [slow fast]. cbn [fst snd] in *.
  build_moves. now apply tries_send_all.
Qed.

Lemma tries_move_single (target_location : string) (profile : Z) (grap release : bool)
    (st : state) (joints : list number) :
  location_dictionary st !! target_location = Some joints ->
  profile = 1 \/ profile = 2 \/ profile = 3 ->
  goes_on (net st (opened st)) = true ->
  tries (move_single target_location profile grap release) st
    [move_line profile grap release joints].
Proof.
  intros Hkey Hprofile Hconn.
  assert (Heq : move_single target_location profile grap release st
                = bind connect_robot
                    (fun PF400 =>
                       send_receive PF400 (move_line profile grap release joints)) st).
  { unfold move_single, bind at 1 3.
    pose proof (preserves_connect_locations st) as Hloc.
    destruct (connect_robot st) as [[PF400 | e] st1]; [| reflexivity].
    cbn [snd] in Hloc. rewrite <- Hloc in Hkey.
    now rewrite (bind_ok _ _ _ _ _
                   (move_command_ok _ _ _ grap release st1 Hkey Hprofile)). }
  destruct (exchange_connected (move_line profile grap release joints) st Hconn)
    as (st1 & Hrun & Hop & Hnet & Hloc & evs & Htr & Hsent).
  exists st1. rewrite Heq. split; [exact Hrun |].
  split; [rewrite Hop; simpl; lia |]. split; [exact Hnet |]. split; [exact Hloc |].
  exists evs. split; [exact Htr |]. rewrite Hsent. cbn [delivered].
  destruct (sends (net st (opened st))); reflexivity.
Qed.

(** C3.  With the rest of [pick_up_commands] as the specification documents
    it, [pick_plate_ot2] makes six moves for a station whose three locations
    are in the table, station 1 among them, in this order: front, above the
    plate and the pick position at the fast profile; then, at the slow profile
    and with the grip value, the pick position, above the plate and front.
    Each move is tried on a socket of its own, and the call returns, when the
    sockets connect and their replies decode; when every socket also lets its
    command out, exactly these six commands are sent. *)
Theorem pick_plate_ot2_sends_six_moves (ot2_ID profile : Z) (st : state)
    (front above pick : list number) :
  location_dictionary st !! ot2_key ot2_ID "_front" = Some front ->
  location_dictionary st !! ot2_key ot2_ID "_above_plate" = Some above ->
  location_dictionary st !! ot2_key ot2_ID "_pick_plate" = Some pick ->
  (forall i : nat, (i < 6)%nat -> goes_on (net st (opened st + i)) = true) ->
  let slow := fst (speeds profile) in
  let fast := snd (speeds profile) in
  let moves :=
    [move_line fast false false front; move_line fast false false above;
     move_line fast false false pick; move_line slow true false pick;
     move_line slow true false above; move_line slow true false front] in
  let call := pick_plate_ot2 documented_rest ot2_ID profile st in
  fst call = Ok tt
  /\ opened (snd call) = (opened st + 6)%nat
  /\ sent (new_events st (snd call)) = delivered (net st) (opened st) moves
  /\ ((forall i : nat, (i < 6)%nat -> sends (net st (opened st + i)) = true) ->
      sent (new_events st (snd call)) = moves).
Proof.
  intros Hfront Habove Hpick Hconn slow fast moves call.
  destruct (tries_result _ _ _
              (tries_pick_plate_ot2 documented_rest ot2_ID profile st front above pick
                 Hfront Habove Hpick Hconn))
    as (Hres & Hop & _ & Hsent).
  split; [exact Hres |]. split; [exact Hop |]. split; [exact Hsent |].
  intros Hsends. subst call. rewrite Hsent. now apply delivered_all.
Qed.

Lemma pick_plate_ot2_sends_six_moves_witness :
  let st := sample (always (Replies "0")) in
  location_dictionary st !! ot2_key 1 "_front" = Some (sample_joints 10)
  /\ location_dictionary st !! ot2_key 1 "_above_plate" = Some (sample_joints 20)
  /\ location_dictionary st !! ot2_key 1 "_pick_plate" = Some (sample_joints 30)
  /\ (forall i : nat, (i < 6)%nat -> goes_on (net st (opened st + i)) = true)
  /\ (forall i : nat, (i < 6)%nat -> sends (net st (opened st + i)) = true)
  /\ fst (pick_plate_ot2 documented_rest 1 0 st) = Ok tt
  /\ sent (new_events st (snd (pick_plate_ot2 documented_rest 1 0 st)))
     = ["MoveJ 2 231.788 10 70.5 4 79.0 995" +:+ nl;
        "MoveJ 2 231.788 20 70.5 4 79.0 995" +:+ nl;
        "MoveJ 2 231.788 30 70.5 4 79.0 995" +:+ nl;
        "MoveJ 1 231.788 30 70.5 4 120.0 995" +:+ nl;
        "MoveJ 1 231.788 20 70.5 4 120.0 995" +:+ nl;
        "MoveJ 1 231.788 10 70.5 4 120.0 995" +:+ nl].
Proof.
  intros st.
  assert (Hconn : forall i : nat, (i < 6)%nat ->
                                  goes_on (net st (opened st + i)) = true)
    by (intros i _; reflexivity).
  assert (Hsends : forall i : nat, (i < 6)%nat ->
                                   sends (net st (opened st + i)) = true)
    by (intros i _; reflexivity).
  do 3 (split; [reflexivity |]). split; [exact Hconn |]. split; [exact Hsends |].
  destruct (pick_plate_ot2_sends_six_moves 1 0 st (sample_joints 10)
              (sample_joints 20) (sample_joints 30) eq_refl eq_refl eq_refl Hconn)
    as (Hres & _ & _ & Hall).
  split; [exact Hres |]. rewrite (Hall Hsends). reflexivity.
Defined.

(** ** Locate: C8, C10 *)

(** C8. When the robot answers the position query with ["5 6 7 8 9 10"],
    [locate_robot] returns the list [5; 6; 7; 8; 9; 10]. *)
Theorem locate_robot_parses_reply (st : state) :
  net st (opened st) = Replies "5 6 7 8 9 10" ->
  fst (locate_robot st) = Ok [5; 6; 7; 8; 9; 10]
  /\ sent (new_events st (snd (locate_robot st))) = ["wherej" +:+ nl].
Proof.
  intros Hs. rewrite locate_robot_cases. cbv zeta. rewrite Hs.
  change (map_result int (str_split space "5 6 7 8 9 10")) with (Ok [5; 6; 7; 8; 9; 10]).
  cbv beta iota. cbn [fst snd]. split; [reflexivity |].
  unfold new_events. repeat first [rewrite trace_record | rewrite trace_open_next].
  rewrite <- !app_assoc, drop_app_length. reflexivity.
Qed.

Lemma locate_robot_parses_reply_witness :
  let st := sample (always (Replies "5 6 7 8 9 10")) in
  net st (opened st) = Replies "5 6 7 8 9 10"
  /\ fst (locate_robot st) = Ok [5; 6; 7; 8; 9; 10]
  /\ sent (new_events st (snd (locate_robot st))) = ["wherej" +:+ nl].
Proof.
  intros st. split; [reflexivity |].
  exact (locate_robot_parses_reply st eq_refl).
Defined.

(** C10. When the send or the receive fails inside [locate_robot], the call
    returns no coordinate list: the handler leaves [coordinate_list] unbound
    and the final [return] raises [UnboundLocalError], a [NameError], which
    nothing in the method catches. *)
Theorem locate_robot_unbound_on_failure (st : state) :
  net st (opened st) = SendFails \/ net st (opened st) = RecvFails ->
  fst (locate_robot st) = Raise (UnboundLocalError "coordinate_list")
  /\ is_name_error (UnboundLocalError "coordinate_list") = true
  /\ forall coordinate_list : list Z, fst (locate_robot st) <> Ok coordinate_list.
Proof.
  intros Hs. rewrite locate_robot_cases. cbv zeta.
  destruct Hs as [-> | ->]; (split; [reflexivity | split; [reflexivity | discriminate]]).
Qed.

Lemma locate_robot_unbound_on_failure_witness :
  let st := sample (always RecvFails) in
  (net st (opened st) = SendFails \/ net st (opened st) = RecvFails)
  /\ fst (locate_robot st) = Raise (UnboundLocalError "coordinate_list")
  /\ is_name_error (UnboundLocalError "coordinate_list") = true
  /\ forall coordinate_list : list Z, fst (locate_robot st) <> Ok coordinate_list.
Proof.
  intros st. split; [right; reflexivity |].
  exact (locate_robot_unbound_on_failure st (or_intror eq_refl)).
Defined.

(** ** Teach: C4 *)

(** C4, on the code.  On the sample cell the robot reports [5 6 7 8 9 10];
    [teach_location "HomeALL"] then returns and the entry [HomeALL] still holds
    its six old values.  The same holds on any cell, for any name taught
    without a station identifier: the table is left as it was. *)
Theorem teach_location_HomeALL_keeps_old_values :
  let st := sample (always (Replies "5 6 7 8 9 10")) in
  let call := teach_location "HomeALL" None st in
  fst (locate_robot st) = Ok [5; 6; 7; 8; 9; 10]
  /\ fst call = Ok tt
  /\ location_dictionary (snd call) !! "HomeALL"
     = Some [NInt 1; NInt 2; NInt 3; NInt 4; NInt 5; NInt 6]
  /\ forall (location : string) (st' : state),
       location_dictionary (snd (teach_location location None st'))
       = location_dictionary st'.
Proof.
  intros st call. do 3 (split; [vm_compute; reflexivity |]).
  intros location st'. rewrite teach_location_global.
  pose proof (locations_locate_robot st') as Hloc.
  destruct (locate_robot st') as [[l | e] st1]; exact Hloc.
Qed.

(** The station branch of [teach_location] does overwrite its entry. *)
Lemma teach_location_station_overwrites :
  let st := sample (always (Replies "5 6 7 8 9 10")) in
  location_dictionary (snd (teach_location "front" (Some 1) st)) !! "OT2_1_front"
  = Some [NInt 5; NInt 6; NInt 7; NInt 8; NInt 9; NInt 10].
Proof. vm_compute. reflexivity. Qed.

(** ** Invalid arguments: C7 *)

Lemma teach_location_unrecognized (location : string) (robot_id : option Z)
    (st : state) (current_location : list Z) :
  recognized location robot_id = false ->
  fst (locate_robot st) = Ok current_location ->
  teach_location location robot_id st = (Ok tt, snd (locate_robot st)).
Proof.
  intros Hname Hlocate. destruct robot_id as [robot_id |].
  - unfold teach_location, bind at 1.
    destruct (locate_robot st) as [[l | e] st1]; [| discriminate].
    rewrite try_catch_all. simpl in Hname.
    apply bool_decide_eq_false in Hname.
    rewrite !not_elem_of_cons in Hname.
    destruct Hname as (Hfront & Habove & Hpick & Hrack & _).
    apply String.eqb_neq in Hfront, Habove, Hpick, Hrack.
    unfold bind. simpl. rewrite Hfront, Habove, Hpick, Hrack. reflexivity.
  - rewrite teach_location_global.
    destruct (locate_robot st) as [[l | e] st1]; [reflexivity | discriminate].
Qed.

(** C7, as the client behaves.  [set_profile] with a size other than 1 or 8
    and [set_move_command] with a profile outside 1..3 raise an [Exception] to
    the caller.  [teach_location] with a name that none of its branches looks
    for returns normally once the position query has succeeded, and leaves
    the state as the query left it.  [program_robot_target] with a job that is
    neither [TRANSFER] nor [FULL_TRANSFER] does nothing and returns. *)
Theorem invalid_arguments (st : state) :
  (forall profile_dict : dict,
     length profile_dict <> 1%nat -> length profile_dict <> 8%nat ->
     exists msg : string, set_profile profile_dict st = (Raise (Exception msg), st))
  /\ (forall (robot_location : string) (profile : Z) (grab release : bool),
        profile <> 1 -> profile <> 2 -> profile <> 3 ->
        exists msg : string,
          set_move_command st robot_location profile grab release
          = Raise (Exception msg))
  /\ (forall (location : string) (robot_id : option Z) (current_location : list Z),
        recognized location robot_id = false ->
        fst (locate_robot st) = Ok current_location ->
        teach_location location robot_id st = (Ok tt, snd (locate_robot st)))
  /\ (forall (elided : list pick_up_command) (job : string) (robot_ID_list : list Z),
        upper job <> "TRANSFER" -> upper job <> "FULL_TRANSFER" ->
        program_robot_target elided job robot_ID_list st = (Ok tt, st)).
Proof.
  split; [| split; [| split]].
  - intros profile_dict H1 H8. eexists. now apply set_profile_rejects.
  - intros robot_location profile grab release H1 H2 H3.
    unfold set_move_command.
    apply Z.eqb_neq in H1, H2, H3. rewrite H1, H2, H3. eexists. reflexivity.
  - intros location robot_id current_location.
    apply teach_location_unrecognized.
  - intros elided job robot_ID_list Htransfer Hfull.
    unfold program_robot_target.
    apply String.eqb_neq in Htransfer, Hfull. now rewrite Htransfer, Hfull.
Qed.

Lemma invalid_arguments_witness :
  let st := sample (always (Replies "5 6 7 8 9 10")) in
  (exists msg : string, set_profile [] st = (Raise (Exception msg), st))
  /\ (exists msg : string,
        set_move_command st "HomeALL" 0 false false = Raise (Exception msg))
  /\ teach_location "nowhere" (Some 1) st = (Ok tt, snd (locate_robot st))
  /\ program_robot_target documented_rest "dance" [0; 0] st = (Ok tt, st).
Proof.
  intros st.
  destruct (invalid_arguments st) as (Hprofile & Hmove & Hteach & Hjob).
  split; [apply Hprofile; simpl; lia |].
  split; [apply Hmove; lia |].
  split; [apply (Hteach _ _ [5; 6; 7; 8; 9; 10]); reflexivity |].
  apply Hjob; discriminate.
Defined.

(** C7, as stated, fails: an unknown job and an unknown location name both
    return normally; no error reaches the caller. *)
Lemma unknown_names_return_normally :
  let st := sample (always (Replies "5 6 7 8 9 10")) in
  program_robot_target documented_rest "dance" [0; 0] st = (Ok tt, st)
  /\ fst (teach_location "nowhere" None st) = Ok tt
  /\ fst (teach_location "nowhere" (Some 1) st) = Ok tt.
Proof. intros st. repeat split; vm_compute; reflexivity. Qed.


(** * Part III: further properties of the routines *)

(** ** The moves of the routines *)

(** X1. With its three station locations in the table and six sockets that
    connect and whose replies, if they come, decode, [drop_plate_ot2] returns
    [None] after trying six moves, each on a socket of its own: front, above
    and pick position with the grip value at the slow profile, pick position
    with the release value, then above and front at the fast profile.  A move
    whose send fails is skipped and the routine goes on: the moves that go out
    are those whose socket lets the send through, and all six when every
    socket does. *)
Theorem drop_plate_ot2_moves (ot2_ID profile : Z) (st : state)
    (front above pick : list number) :
  location_dictionary st !! ot2_key ot2_ID "_front" = Some front ->
  location_dictionary st !! ot2_key ot2_ID "_above_plate" = Some above ->
  location_dictionary st !! ot2_key ot2_ID "_pick_plate" = Some pick ->
  (forall i : nat, (i < 6)%nat -> goes_on (net st (opened st + i)) = true) ->
  let slow := fst (speeds profile) in
  let fast := snd (speeds profile) in
  let moves :=
    [move_line slow true false front; move_line slow true false above;
     move_line slow true false pick; move_line slow false true pick;
     move_line fast false false above; move_line fast false false front] in
  let call := drop_plate_ot2 ot2_ID profile st in
  fst call = Ok tt
  /\ opened (snd call) = (opened st + 6)%nat
  /\ location_dictionary (snd call) = location_dictionary st
  /\ sent (new_events st (snd call)) = delivered (net st) (opened st) moves
  /\ ((forall i : nat, (i < 6)%nat -> sends (net st (opened st + i)) = true) ->
      sent (new_events st (snd call)) = moves).
Proof.
  intros Hfront Habove Hpick Hconn slow fast moves call.
  destruct (tries_result _ _ _
              (tries_drop_plate_ot2 ot2_ID profile st front above pick
                 Hfront Habove Hpick Hconn))
    as (Hres & Hop & Hloc & Hsent).
  repeat split; try assumption.
  intros Hsends. subst call. rewrite Hsent. now apply delivered_all.
Qed.

Lemma drop_plate_ot2_moves_witness :
  let st := sample (send_fails_at 3) in
  location_dictionary st !! ot2_key 1 "_front" = Some (sample_joints 10)
  /\ location_dictionary st !! ot2_key 1 "_above_plate" = Some (sample_joints 20)
  /\ location_dictionary st !! ot2_key 1 "_pick_plate" = Some (sample_joints 30)
  /\ (forall i : nat, (i < 6)%nat -> goes_on (net st (opened st + i)) = true)
  /\ fst (drop_plate_ot2 1 0 st) = Ok tt
  /\ sent (new_events st (snd (drop_plate_ot2 1 0 st)))
     = ["MoveJ 1 231.788 10 70.5 4 120.0 995" +:+ nl;
        "MoveJ 1 231.788 20 70.5 4 120.0 995" +:+ nl;
        "MoveJ 1 231.788 30 70.5 4 120.0 995" +:+ nl;
        "MoveJ 2 231.788 20 70.5 4 79.0 995" +:+ nl;
        "MoveJ 2 231.788 10 70.5 4 79.0 995" +:+ nl].
Proof.
  intros st.
  assert (Hconn : forall i : nat, (i < 6)%nat ->
                                  goes_on (net st (opened st + i)) = true).
  { intros i _. simpl. unfold send_fails_at. destruct (i =? 3)%nat; reflexivity. }
  do 3 (split; [reflexivity |]). split; [exact Hconn |].
  destruct (drop_plate_ot2_moves 1 0 st (sample_joints 10) (sample_joints 20)
              (sample_joints 30) eq_refl eq_refl eq_refl Hconn)
    as (Hres & _ & _ & Hsent & _).
  split; [exact Hres |]. rewrite Hsent. reflexivity.
Defined.

(** X2. With the three rack locations of its station in the table and six
    sockets that connect and whose replies, if they come, decode,
    [pick_plate_from_rack] returns [None] after trying six moves in this
    order: approach at the fast profile, then at the slow profile front of the
    rack, rack, rack with the grip value, front with the grip value, approach
    with the grip value.  The moves that go out are those whose socket lets
    the send through. *)
Theorem pick_plate_from_rack_moves (ot2_ID profile : Z) (st : state)
    (approach front rack : list number) :
  location_dictionary st !! ot2_key ot2_ID "_approach_plate_rack" = Some approach ->
  location_dictionary st !! ot2_key ot2_ID "_front_plate_rack" = Some front ->
  location_dictionary st !! ot2_key ot2_ID "_plate_rack" = Some rack ->
  (forall i : nat, (i < 6)%nat -> goes_on (net st (opened st + i)) = true) ->
  let slow := fst (speeds profile) in
  let fast := snd (speeds profile) in
  let moves :=
    [move_line fast false false approach; move_line slow false false front;
     move_line slow false false rack; move_line slow true false rack;
     move_line slow true false front; move_line slow true false approach] in
  let call := pick_plate_from_rack ot2_ID profile st in
  fst call = Ok tt
  /\ opened (snd call) = (opened st + 6)%nat
  /\ location_dictionary (snd call) = location_dictionary st
  /\ sent (new_events st (snd call)) = delivered (net st) (opened st) moves
  /\ ((forall i : nat, (i < 6)%nat -> sends (net st (opened st + i)) = true) ->
      sent (new_events st (snd call)) = moves).
Proof.
  intros Happroach Hfront Hrack Hconn slow fast moves call.
  destruct (tries_result _ _ _
              (tries_pick_plate_from_rack ot2_ID profile st approach front rack
                 Happroach Hfront Hrack Hconn))
    as (Hres & Hop & Hloc & Hsent).
  repeat split; try assumption.
  intros Hsends. subst call. rewrite Hsent. now apply delivered_all.
Qed.

Lemma pick_plate_from_rack_moves_witness :
  let st := rack_cell (always (Replies "0")) in
  location_dictionary st !! ot2_key 1 "_approach_plate_rack" = Some (sample_joints 40)
  /\ location_dictionary st !! ot2_key 1 "_front_plate_rack" = Some (sample_joints 50)
  /\ location_dictionary st !! ot2_key 1 "_plate_rack" = Some (sample_joints 60)
  /\ (forall i : nat, (i < 6)%nat -> goes_on (net st (opened st + i)) = true)
  /\ fst (pick_plate_from_rack 1 3 st) = Ok tt
  /\ sent (new_events st (snd (pick_plate_from_rack 1 3 st)))
     = ["MoveJ 3 231.788 40 70.5 4 79.0 995" +:+ nl;
        "MoveJ 3 231.788 50 70.5 4 79.0 995" +:+ nl;
        "MoveJ 3 231.788 60 70.5 4 79.0 995" +:+ nl;
        "MoveJ 3 231.788 60 70.5 4 120.0 995" +:+ nl;
        "MoveJ 3 231.788 50 70.5 4 120.0 995" +:+ nl;
        "MoveJ 3 231.788 40 70.5 4 120.0 995" +:+ nl].
Proof.
  intros st.
  assert (Hconn : forall i : nat, (i < 6)%nat ->
                                  goes_on (net st (opened st + i)) = true)
    by (intros i _; reflexivity).
  do 3 (split; [reflexivity |]). split; [exact Hconn |].
  destruct (pick_plate_from_rack_moves 1 3 st (sample_joints 40) (sample_joints 50)
              (sample_joints 60) eq_refl eq_refl eq_refl Hconn)
    as (Hres & _ & _ & Hsent & _).
  split; [exact Hres |]. rewrite Hsent. reflexivity.
Defined.

(** X3. With [Completed_plate_above] and [Completed_plate] in the table and
    four sockets that connect and whose replies, if they come, decode,
    [drop_complete_plate] returns [None] after trying four moves, all at the
    slow profile: above the bin and into the bin with the grip value, into the
    bin with the release value, above the bin with the joint values as they
    are.  The moves that go out are those whose socket lets the send
    through. *)
Theorem drop_complete_plate_moves (profile : Z) (st : state)
    (above plate : list number) :
  location_dictionary st !! "Completed_plate_above" = Some above ->
  location_dictionary st !! "Completed_plate" = Some plate ->
  (forall i : nat, (i < 4)%nat -> goes_on (net st (opened st + i)) = true) ->
  let slow := fst (speeds profile) in
  let moves :=
    [move_line slow true false above; move_line slow true false plate;
     move_line slow false true plate; move_line slow false false above] in
  let call := drop_complete_plate profile st in
  fst call = Ok tt
  /\ opened (snd call) = (opened st + 4)%nat
  /\ location_dictionary (snd call) = location_dictionary st
  /\ sent (new_events st (snd call)) = delivered (net st) (opened st) moves
  /\ ((forall i : nat, (i < 4)%nat -> sends (net st (opened st + i)) = true) ->
      sent (new_events st (snd call)) = moves).
Proof.
  intros Habove Hplate Hconn slow moves call.
  destruct (tries_result _ _ _
              (tries_drop_complete_plate profile st above plate Habove Hplate Hconn))
    as (Hres & Hop & Hloc & Hsent).
  repeat split; try assumption.
  intros Hsends. subst call. rewrite Hsent. now apply delivered_all.
Qed.

Lemma drop_complete_plate_moves_witness :
  let st := rack_cell (always (Replies "0")) in
  location_dictionary st !! "Completed_plate_above" = Some (sample_joints 70)
  /\ location_dictionary st !! "Completed_plate" = Some (sample_joints 80)
  /\ (forall i : nat, (i < 4)%nat -> goes_on (net st (opened st + i)) = true)
  /\ fst (drop_complete_plate 0 st) = Ok tt
  /\ sent (new_events st (snd (drop_complete_plate 0 st)))
     = ["MoveJ 1 231.788 70 70.5 4 120.0 995" +:+ nl;
        "MoveJ 1 231.788 80 70.5 4 120.0 995" +:+ nl;
        "MoveJ 1 231.788 80 70.5 4 127.0 995" +:+ nl;
        "MoveJ 1 231.788 70 70.5 4 79.0 995" +:+ nl].
Proof.
  intros st.
  assert (Hconn : forall i : nat, (i < 4)%nat ->
                                  goes_on (net st (opened st + i)) = true)
    by (intros i _; reflexivity).
  do 2 (split; [reflexivity |]). split; [exact Hconn |].
  destruct (drop_complete_plate_moves 0 st (sample_joints 70) (sample_joints 80)
              eq_refl eq_refl Hconn)
    as (Hres & _ & _ & Hsent & _).
  split; [exact Hres |]. rewrite Hsent. reflexivity.
Defined.

(** X20. Whatever line 335 elides, [pick_plate_ot2] starts with the move to
    the front and the move above the plate, both at the fast profile and with
    the joint values as they are, and goes on with the elided commands in
    their order.  With its three station locations in the table and sockets
    that connect and whose replies, if they come, decode, it returns [None]
    after trying these moves, each on a socket of its own. *)
Theorem pick_plate_ot2_moves (elided : list pick_up_command) (ot2_ID profile : Z)
    (st : state) (front above pick : list number) :
  location_dictionary st !! ot2_key ot2_ID "_front" = Some front ->
  location_dictionary st !! ot2_key ot2_ID "_above_plate" = Some above ->
  location_dictionary st !! ot2_key ot2_ID "_pick_plate" = Some pick ->
  (forall i : nat, (i < 2 + length elided)%nat ->
                   goes_on (net st (opened st + i)) = true) ->
  let slow := fst (speeds profile) in
  let fast := snd (speeds profile) in
  let moves :=
    ([move_line fast false false front; move_line fast false false above]
     ++ map (pick_up_named
               (move_line fast false false front) (move_line fast false false above)
               (move_line fast false false pick) (move_line slow true false pick)
               (move_line slow true false above) (move_line slow true false front))
            elided)%list in
  let call := pick_plate_ot2 elided ot2_ID profile st in
  fst call = Ok tt
  /\ opened (snd call) = (opened st + (2 + length elided))%nat
  /\ location_dictionary (snd call) = location_dictionary st
  /\ sent (new_events st (snd call)) = delivered (net st) (opened st) moves.
Proof.
  intros Hfront Habove Hpick Hconn slow fast moves call.
  destruct (tries_result _ _ _
              (tries_pick_plate_ot2 elided ot2_ID profile st front above pick
                 Hfront Habove Hpick Hconn))
    as (Hres & Hop & Hloc & Hsent).
  repeat split; try assumption.
  subst call. rewrite Hop, length_app, length_map. reflexivity.
Qed.

Lemma pick_plate_ot2_moves_witness :
  let st := sample (send_fails_at 1) in
  let elided := [PickUpPlate] in
  location_dictionary st !! ot2_key 1 "_front" = Some (sample_joints 10)
  /\ location_dictionary st !! ot2_key 1 "_above_plate" = Some (sample_joints 20)
  /\ location_dictionary st !! ot2_key 1 "_pick_plate" = Some (sample_joints 30)
  /\ (forall i : nat, (i < 2 + length elided)%nat ->
                      goes_on (net st (opened st + i)) = true)
  /\ fst (pick_plate_ot2 elided 1 3 st) = Ok tt
  /\ sent (new_events st (snd (pick_plate_ot2 elided 1 3 st)))
     = ["MoveJ 3 231.788 10 70.5 4 79.0 995" +:+ nl;
        "MoveJ 3 231.788 30 70.5 4 120.0 995" +:+ nl].
Proof.
  intros st elided.
  assert (Hconn : forall i : nat, (i < 2 + length elided)%nat ->
                                  goes_on (net st (opened st + i)) = true).
  { intros i _. simpl. unfold send_fails_at. destruct (i =? 1)%nat; reflexivity. }
  do 3 (split; [reflexivity |]). split; [exact Hconn |].
  destruct (pick_plate_ot2_moves elided 1 3 st (sample_joints 10) (sample_joints 20)
              (sample_joints 30) eq_refl eq_refl eq_refl Hconn)
    as (Hres & _ & _ & Hsent).
  split; [exact Hres |]. rewrite Hsent. reflexivity.
Defined.

(** ** A socket that stops the routine *)

Lemma exchange_stopped (command : string) (st : state) :
  goes_on (net st (opened st)) = false ->
  exists st1 : state,
    bind connect_robot (fun PF400 => send_receive PF400 command) st
    = (Raise (stop_error (net st (opened st))), st1)
    /\ opened st1 = S (opened st)
    /\ location_dictionary st1 = location_dictionary st
    /\ exists evs : list event,
         trace st1 = (trace st ++ evs)%list
         /\ sent evs = if sends (net st (opened st)) then [command] else [].
Proof.
  intros Hc. rewrite exchange_cases. cbv zeta.
  destruct (net st (opened st)); try discriminate; eexists;
    (split; [reflexivity |]); (split; [reflexivity |]); (split; [reflexivity |]);
    eexists;
    (split; [repeat first [rewrite trace_record | rewrite trace_open_next];
             rewrite <- ?app_assoc; reflexivity | reflexivity]).
Qed.

Lemma send_loop_abort (n : nat) : forall (commands : list string) (k : nat) (st : state),
  (n < length commands)%nat ->
  (forall i : nat, (i < n)%nat -> goes_on (net st (opened st + i)) = true) ->
  goes_on (net st (opened st + n)) = false ->
  exists st' : state,
    for_each (enumerate_from k commands)
      (fun item => PF400 <- connect_robot ;; send_receive PF400 (snd item)) st
    = (Raise (stop_error (net st (opened st + n))), st')
    /\ opened st' = S (opened st + n)
    /\ location_dictionary st' = location_dictionary st
    /\ exists evs : list event,
         trace st' = (trace st ++ evs)%list
         /\ sent evs = delivered (net st) (opened st) (take (S n) commands).
Proof.
  induction n as [|n IH]; intros commands k st Hlen Hconn Hfail;
    destruct commands as [|command commands]; try (simpl in Hlen; lia).
  - rewrite Nat.add_0_r in *. cbn [enumerate_from for_each snd].
    destruct (exchange_stopped command st Hfail)
      as (st1 & Hrun & Hop & Hloc & evs & Htr & Hsent).
    exists st1. split; [now rewrite (bind_raise _ _ _ _ _ Hrun) |].
    split; [exact Hop |]. split; [exact Hloc |].
    exists evs. split; [exact Htr |]. rewrite Hsent.
    cbn [firstn delivered].
    destruct (sends (net st (opened st))); reflexivity.
  - cbn [enumerate_from for_each snd].
    assert (H0 : goes_on (net st (opened st)) = true).
    { rewrite <- (Nat.add_0_r (opened st)). apply Hconn. lia. }
    destruct (exchange_connected command st H0)
      as (st1 & Hrun & Hop1 & Hnet1 & Hloc1 & evs1 & Htr1 & Hsent1).
    destruct (IH commands (S k) st1) as (st' & Hrest & Hop & Hloc & evs & Htr & Hsent).
    { simpl in Hlen. lia. }
    { intros i Hi. rewrite Hnet1, Hop1.
      replace (S (opened st) + i)%nat with (opened st + S i)%nat by lia.
      apply Hconn. lia. }
    { rewrite Hnet1, Hop1.
      replace (S (opened st) + n)%nat with (opened st + S n)%nat by lia.
      exact Hfail. }
    exists st'. split.
    { rewrite (bind_ok _ _ _ _ _ Hrun), Hrest, Hnet1, Hop1.
      now replace (S (opened st) + n)%nat with (opened st + S n)%nat by lia. }
    split; [rewrite Hop, Hop1; lia |]. split; [congruence |].
    exists (evs1 ++ evs)%list. split; [rewrite Htr, Htr1; now rewrite app_assoc |].
    rewrite sent_app, Hsent1, Hsent, Hnet1, Hop1.
    change (take (S (S n)) (command :: commands))
      with (command :: take (S n) commands).
    cbn [delivered]. destruct (sends (net st (opened st))); reflexivity.
Qed.

(** X4. [drop_plate_ot2] stops at the first socket that cannot connect or
    whose reply does not decode.  When that is the socket of move [n], counted
    from 0, the call ends in the error of that socket: the socket error,
    [AttributeError] when the socket could not even be created,
    [UnicodeDecodeError] when the reply did not decode.  The moves after it
    are never tried and the location table is as before.  This is unlike a
    failed send or receive, after which the routine goes on. *)
Theorem drop_plate_ot2_stops_at_first_failure (ot2_ID profile : Z) (st : state)
    (front above pick : list number) (n : nat) :
  location_dictionary st !! ot2_key ot2_ID "_front" = Some front ->
  location_dictionary st !! ot2_key ot2_ID "_above_plate" = Some above ->
  location_dictionary st !! ot2_key ot2_ID "_pick_plate" = Some pick ->
  (n < 6)%nat ->
  (forall i : nat, (i < n)%nat -> goes_on (net st (opened st + i)) = true) ->
  goes_on (net st (opened st + n)) = false ->
  let slow := fst (speeds profile) in
  let fast := snd (speeds profile) in
  let moves :=
    [move_line slow true false front; move_line slow true false above;
     move_line slow true false pick; move_line slow false true pick;
     move_line fast false false above; move_line fast false false front] in
  let call := drop_plate_ot2 ot2_ID profile st in
  fst call = Raise (stop_error (net st (opened st + n)))
  /\ opened (snd call) = S (opened st + n)
  /\ location_dictionary (snd call) = location_dictionary st
  /\ sent (new_events st (snd call))
     = delivered (net st) (opened st) (take (S n) moves).
Proof.
  intros Hfront Habove Hpick Hn Hconn Hfail slow fast moves call.
  subst call slow fast moves. unfold drop_plate_ot2.
  destruct (speeds_valid profile) as [Hslow Hfast].
  destruct (speeds profile) as [slow fast]. cbn [fst snd] in *.
  repeat (erewrite bind_ok; [| apply move_command_ok; eassumption]).
  unfold send_all, enumerate.
  match goal with
  | |- context [for_each (enumerate_from 0 ?moves)] =>
      destruct (send_loop_abort n moves 0 st Hn Hconn Hfail)
        as (st' & Hrun & Hop & Hloc & evs & Htr & Hsent)
  end.
  rewrite Hrun. cbn [fst snd]. repeat split; try assumption.
  now rewrite (new_events_app _ _ _ Htr).
Qed.

Lemma drop_plate_ot2_stops_at_first_failure_witness :
  let st := sample (undecodable_at 2) in
  location_dictionary st !! ot2_key 1 "_front" = Some (sample_joints 10)
  /\ location_dictionary st !! ot2_key 1 "_above_plate" = Some (sample_joints 20)
  /\ location_dictionary st !! ot2_key 1 "_pick_plate" = Some (sample_joints 30)
  /\ (2 < 6)%nat
  /\ (forall i : nat, (i < 2)%nat -> goes_on (net st (opened st + i)) = true)
  /\ goes_on (net st (opened st + 2)) = false
  /\ fst (drop_plate_ot2 1 0 st) = Raise UnicodeDecodeError
  /\ opened (snd (drop_plate_ot2 1 0 st)) = 3%nat
  /\ sent (new_events st (snd (drop_plate_ot2 1 0 st)))
     = ["MoveJ 1 231.788 10 70.5 4 120.0 995" +:+ nl;
        "MoveJ 1 231.788 20 70.5 4 120.0 995" +:+ nl;
        "MoveJ 1 231.788 30 70.5 4 120.0 995" +:+ nl].
Proof.
  intros st.
  assert (Hconn : forall i : nat, (i < 2)%nat ->
                                  goes_on (net st (opened st + i)) = true).
  { intros i Hi. simpl. unfold undecodable_at.
    destruct (Nat.eqb_spec i 2); [lia | reflexivity]. }
  assert (Hlt : (2 < 6)%nat) by lia.
  do 3 (split; [reflexivity |]). split; [exact Hlt |]. split; [exact Hconn |].
  split; [reflexivity |].
  destruct (drop_plate_ot2_stops_at_first_failure 1 0 st (sample_joints 10)
              (sample_joints 20) (sample_joints 30) 2 eq_refl eq_refl eq_refl
              Hlt Hconn eq_refl)
    as (Hres & Hop & _ & Hsent).
  split; [exact Hres |]. split; [exact Hop |]. rewrite Hsent. reflexivity.
Defined.

(** ** Locations are looked up before anything moves *)

(** Steps through the [set_move_command] calls of a routine, splitting on
    whether each location is in the table; a missing one ends the call. *)
Ltac check_moves :=
  repeat first
    [ erewrite bind_ok; [| apply move_command_ok; eassumption]
    | match goal with
      | |- context [bind (move_command ?key ?p ?g ?r) _ ?st] =>
          let H := fresh "Hkey" in
          destruct (location_dictionary st !! key) eqn:H;
          [| exists key; split;
             [apply list_elem_of_In; simpl; tauto |]; split; [exact H |];
             erewrite bind_raise; [reflexivity |];
             apply move_command_missing; assumption ]
      end ].

(** X5. The four routines build all their commands before they open a socket:
    when one of the locations a routine names is missing from the table, the
    call raises [KeyError] for a missing location and the state is untouched,
    so no socket is opened and nothing is sent.  For [pick_plate_ot2] this
    holds whatever line 335 elides. *)
Theorem routines_look_up_locations_first (elided : list pick_up_command)
    (ot2_ID profile : Z) (st : state) :
  let station := [ot2_key ot2_ID "_front"; ot2_key ot2_ID "_above_plate";
                  ot2_key ot2_ID "_pick_plate"] in
  let rack := [ot2_key ot2_ID "_approach_plate_rack";
               ot2_key ot2_ID "_front_plate_rack"; ot2_key ot2_ID "_plate_rack"] in
  let bin := ["Completed_plate_above"; "Completed_plate"] in
  let missing (keys : list string) :=
    exists key : string, key ∈ keys /\ location_dictionary st !! key = None in
  let stopped (keys : list string) (m : M unit) :=
    exists key : string,
      key ∈ keys /\ location_dictionary st !! key = None
      /\ m st = (Raise (KeyError key), st) in
  (missing station -> stopped station (pick_plate_ot2 elided ot2_ID profile))
  /\ (missing station -> stopped station (drop_plate_ot2 ot2_ID profile))
  /\ (missing rack -> stopped rack (pick_plate_from_rack ot2_ID profile))
  /\ (missing bin -> stopped bin (drop_complete_plate profile)).
Proof.
  cbv zeta.
  destruct (speeds_valid profile) as [Hslow Hfast].
  unfold pick_plate_ot2, drop_plate_ot2, pick_plate_from_rack, drop_complete_plate.
  destruct (speeds profile) as [slow fast]. cbn [fst snd] in *.
  repeat split; intros (key & Hin & Hnone); check_moves;
    exfalso; apply list_elem_of_In in Hin; simpl in Hin;
    intuition (subst; congruence).
Qed.

Lemma routines_look_up_locations_first_witness :
  let st := sample (always (Replies "0")) in
  (exists key : string, drop_plate_ot2 2 0 st = (Raise (KeyError key), st))
  /\ (exists key : string, drop_complete_plate 0 st = (Raise (KeyError key), st)).
Proof.
  intros st.
  destruct (routines_look_up_locations_first documented_rest 2 0 st)
    as (_ & Hdrop & _ & Hbin).
  split.
  - destruct Hdrop as (key & Hin & Hnone & Hrun); [| exists key; exact Hrun].
    exists "OT2_2_front". split; [apply list_elem_of_In; simpl; tauto | reflexivity].
  - destruct Hbin as (key & Hin & Hnone & Hrun); [| exists key; exact Hrun].
    exists "Completed_plate".
    split; [apply list_elem_of_In; simpl; tauto | reflexivity].
Defined.

(** ** Sockets opened before the command is built *)

Lemma set_move_command_table (a b : state) (name : string) (profile : Z)
    (grab release : bool) :
  location_dictionary a = location_dictionary b ->
  set_move_command a name profile grab release
  = set_move_command b name profile grab release.
Proof. intros H. unfold set_move_command. now rewrite H. Qed.

Lemma connect_robot_connected (st : state) :
  connects (net st (opened st)) = true ->
  connect_robot st
  = (Ok (Some (opened st)),
     open_next [Created (opened st); Connected (opened st) (host st) (port st)] st).
Proof.
  intros Hconn. unfold connect_robot.
  destruct (net st (opened st)); try discriminate; reflexivity.
Qed.

(** X6. [move_single] connects its socket before it builds the command.  When
    the command cannot be built (a profile outside 1..3, as with the default
    profile 0, or a location missing from the table) the error of
    [set_move_command] reaches the caller with the socket created and
    connected and never closed, and nothing is sent. *)
Theorem move_single_leaves_socket_when_command_fails (target_location : string)
    (profile : Z) (grap release : bool) (st : state) (e : exn) :
  connects (net st (opened st)) = true ->
  set_move_command st target_location profile grap release = Raise e ->
  let call := move_single target_location profile grap release st in
  fst call = Raise e
  /\ opened (snd call) = S (opened st)
  /\ new_events st (snd call)
     = [Created (opened st); Connected (opened st) (host st) (port st)].
Proof.
  intros Hconn Hcommand call. subst call. unfold move_single.
  rewrite (bind_ok _ _ _ _ _ (connect_robot_connected st Hconn)).
  rewrite (bind_raise _ _ _
             (open_next [Created (opened st);
                         Connected (opened st) (host st) (port st)] st) e)
    by (unfold move_command;
        rewrite (set_move_command_table _ st) by reflexivity;
        now rewrite Hcommand).
  cbn [fst snd]. split; [reflexivity |]. split; [reflexivity |].
  apply new_events_app. apply trace_open_next.
Qed.

Lemma move_single_leaves_socket_when_command_fails_witness :
  let st := sample (always (Replies "0")) in
  connects (net st (opened st)) = true
  /\ (exists msg : string,
        set_move_command st "HomeALL" 0 false false = Raise (Exception msg)
        /\ fst (move_single "HomeALL" 0 false false st) = Raise (Exception msg))
  /\ new_events st (snd (move_single "HomeALL" 0 false false st))
     = [Created 0%nat; Connected 0%nat "192.168.0.1" 10100].
Proof.
  intros st. split; [reflexivity |].
  destruct (move_single_leaves_socket_when_command_fails "HomeALL" 0 false false st
              _ eq_refl eq_refl) as (Hres & _ & Hevents).
  split; [eexists; split; [reflexivity | exact Hres] | exact Hevents].
Defined.

(** X7. [set_profile] with a one-entry dictionary opens each socket before it
    reads the default profile.  With no default profile at all it raises
    [IndexError] after connecting the first socket and sends nothing.  On a
    robot configured with a single default profile, when what the first socket
    receives decodes, the call tries [Profile 1], opens a second socket, and
    raises [IndexError] with that socket connected and never closed. *)
Theorem set_profile_missing_default_profile (profile_dict : dict) (st : state) :
  length profile_dict = 1%nat ->
  connects (net st (opened st)) = true ->
  let call := set_profile profile_dict st in
  (motion_profile st !! 0%nat = None ->
   fst call = Raise IndexError
   /\ new_events st (snd call)
      = [Created (opened st); Connected (opened st) (host st) (port st)])
  /\ (forall slow : dict,
        motion_profile st !! 0%nat = Some slow ->
        motion_profile st !! 1%nat = None ->
        decodes (net st (opened st)) = true ->
        connects (net st (S (opened st))) = true ->
        fst call = Raise IndexError
        /\ sent (new_events st (snd call))
           = delivered (net st) (opened st) [profile_command "Profile 1" slow]
        /\ In (Connected (S (opened st)) (host st) (port st)) (new_events st (snd call))
        /\ ~ In (Closed (S (opened st))) (new_events st (snd call))).
Proof.
  intros Hlen Hconn call. subst call.
  unfold set_profile. rewrite Hlen. cbn [Nat.eqb]. split.
  - intros Hnone.
    unfold bind, connect_robot, get, getitem, raise.
    destruct (net st (opened st)) eqn:Hs; try discriminate; cbn;
      rewrite Hnone; cbn; (split; [reflexivity |]);
      apply new_events_app; apply trace_open_next.
  - intros slow Hslow Hnone Hdec Hconn1.
    generalize (profile_command "Profile 1"), (profile_command "Profile 2").
    intros command1 command2.
    unfold bind, connect_robot, get, getitem, send_receive, try_except_else, bind,
      send, recv, disconnect_robot, ret, raise.
    destruct (net st (opened st)) eqn:E0; try discriminate; cbn;
      repeat (rewrite ?E0, ?Hslow, ?Hnone; cbn);
      destruct (net st (S (opened st))) eqn:E1; try discriminate; cbn;
      repeat (rewrite ?E1, ?Hslow, ?Hnone; cbn).
    all: split; [reflexivity |].
    all: unfold new_events;
      repeat first [rewrite trace_record | rewrite trace_open_next];
      rewrite <- ?app_assoc, drop_app_length.
    all: split; [reflexivity |]; split; [simpl; tauto |].
    all: simpl; intros H; repeat destruct H as [H | H]; try discriminate H;
      try (injection H as H; lia); try exact H.
Qed.

Lemma set_profile_missing_default_profile_witness :
  let st := mkState "192.168.0.1" 10100 (take 1 sample_profiles) sample_locations
              (always (Replies "0")) 0 [] in
  length [("0", NInt 0)] = 1%nat
  /\ connects (net st (opened st)) = true
  /\ fst (set_profile [("0", NInt 0)] st) = Raise IndexError
  /\ sent (new_events st (snd (set_profile [("0", NInt 0)] st)))
     = ["Profile 1 30 0 100 100 0.1 0.1 0 0" +:+ nl]
  /\ ~ In (Closed 1%nat) (new_events st (snd (set_profile [("0", NInt 0)] st))).
Proof.
  intros st. split; [reflexivity |]. split; [reflexivity |].
  destruct (set_profile_missing_default_profile [("0", NInt 0)] st eq_refl eq_refl)
    as (_ & Hsecond).
  destruct (Hsecond _ eq_refl eq_refl eq_refl eq_refl) as (Hres & Hsent & _ & Hopen).
  split; [exact Hres |]. split; [rewrite Hsent; reflexivity | exact Hopen].
Defined.

(** X8. When the socket cannot be created, [connect_robot] logs and returns
    [None], and the method that called it fails on [None.send]: the one-command
    methods, [locate_robot], [teach_location] and [set_profile] with eight
    entries all end in [AttributeError], with no socket event and the location
    table as it was. *)
Theorem socket_creation_failure_is_attribute_error (elided : list pick_up_command)
    (st : state) :
  net st (opened st) = CreateFails ->
  (forall op : operation,
     op = StopRobot \/ op = CheckRobotHeartbeat \/ (exists speed, op = SetSpeed speed)
     \/ op = LocateRobot
     \/ (exists location robot_id, op = TeachLocation location robot_id)
     \/ (exists profile_dict, op = SetProfile profile_dict
                              /\ length profile_dict = 8%nat) ->
     fst (run elided op st) = Raise AttributeError
     /\ new_events st (snd (run elided op st)) = []
     /\ location_dictionary (snd (run elided op st)) = location_dictionary st).
Proof.
  intros Hs op Hop.
  assert (Hexchange : forall command : string,
             bind connect_robot (fun PF400 => send_receive PF400 command) st
             = (Raise AttributeError, open_next [] st)).
  { intros command. rewrite exchange_cases. cbv zeta. now rewrite Hs. }
  assert (Hlocate : locate_robot st = (Raise AttributeError, open_next [] st)).
  { rewrite locate_robot_cases. cbv zeta. now rewrite Hs. }
  assert (Hnew : new_events st (open_next [] st) = []).
  { apply new_events_app. apply trace_open_next. }
  destruct Hop as [-> | [-> | [[speed ->] | [-> | [(location & robot_id & ->)
                  | (profile_dict & -> & Hlen)]]]]]; cbn [run]; unfold returns_none.
  - unfold stop_robot. rewrite (bind_raise _ _ _ _ _ (Hexchange _)). auto.
  - unfold check_robot_heartbeat. rewrite (bind_raise _ _ _ _ _ (Hexchange _)). auto.
  - unfold set_speed. rewrite (bind_raise _ _ _ _ _ (Hexchange _)). auto.
  - rewrite (bind_raise _ _ _ _ _ Hlocate). auto.
  - rewrite (bind_raise _ _ _ _ _
               (teach_location_after_failed_locate location robot_id st _
                  ltac:(rewrite Hlocate; reflexivity))).
    rewrite Hlocate. auto.
  - unfold set_profile. rewrite Hlen. cbn [Nat.eqb].
    rewrite (bind_raise _ _ _ _ _ (Hexchange _)). auto.
Qed.

Lemma socket_creation_failure_is_attribute_error_witness :
  let st := sample (always CreateFails) in
  net st (opened st) = CreateFails
  /\ fst (run documented_rest LocateRobot st) = Raise AttributeError
  /\ fst (run documented_rest StopRobot st) = Raise AttributeError.
Proof.
  intros st. split; [reflexivity |].
  pose proof (socket_creation_failure_is_attribute_error documented_rest st eq_refl)
    as H.
  split.
  - apply (H LocateRobot). tauto.
  - apply (H StopRobot). tauto.
Defined.

(** ** A reply that does not decode *)

(** X19. When the reply on its socket is not UTF-8, [decode] raises inside the
    [try] statement, past the handler for [socket.error]: the one-command
    methods, [locate_robot], [teach_location] and [set_profile] with eight
    entries all end in [UnicodeDecodeError], after sending their command, with
    the socket left open and the location table as it was. *)
Theorem undecodable_reply_reaches_the_caller (elided : list pick_up_command)
    (st : state) :
  net st (opened st) = Undecodable ->
  (forall op : operation,
     op = StopRobot \/ op = CheckRobotHeartbeat \/ (exists speed, op = SetSpeed speed)
     \/ op = LocateRobot
     \/ (exists location robot_id, op = TeachLocation location robot_id)
     \/ (exists profile_dict, op = SetProfile profile_dict
                              /\ length profile_dict = 8%nat) ->
     fst (run elided op st) = Raise UnicodeDecodeError
     /\ (exists command : string,
           new_events st (snd (run elided op st))
           = [Created (opened st); Connected (opened st) (host st) (port st);
              Sent (opened st) command; Undecoded (opened st)])
     /\ location_dictionary (snd (run elided op st)) = location_dictionary st).
Proof.
  intros Hs op Hop.
  pose (left_open command :=
          record [Undecoded (opened st)]
            (record [Sent (opened st) command]
               (open_next [Created (opened st);
                           Connected (opened st) (host st) (port st)] st))).
  assert (Hexchange : forall command : string,
             bind connect_robot (fun PF400 => send_receive PF400 command) st
             = (Raise UnicodeDecodeError, left_open command)).
  { intros command. rewrite exchange_cases. cbv zeta. now rewrite Hs. }
  assert (Hlocate : locate_robot st
                    = (Raise UnicodeDecodeError, left_open ("wherej" +:+ nl))).
  { rewrite locate_robot_cases. cbv zeta. now rewrite Hs. }
  assert (Hnew : forall command : string,
             new_events st (left_open command)
             = [Created (opened st); Connected (opened st) (host st) (port st);
                Sent (opened st) command; Undecoded (opened st)]).
  { intros command. apply new_events_app. unfold left_open.
    repeat first [rewrite trace_record | rewrite trace_open_next].
    now rewrite <- !app_assoc. }
  destruct Hop as [-> | [-> | [[speed ->] | [-> | [(location & robot_id & ->)
                  | (profile_dict & -> & Hlen)]]]]]; cbn [run]; unfold returns_none.
  - unfold stop_robot. rewrite (bind_raise _ _ _ _ _ (Hexchange _)). eauto.
  - unfold check_robot_heartbeat. rewrite (bind_raise _ _ _ _ _ (Hexchange _)). eauto.
  - unfold set_speed. rewrite (bind_raise _ _ _ _ _ (Hexchange _)). eauto.
  - rewrite (bind_raise _ _ _ _ _ Hlocate). eauto.
  - rewrite (bind_raise _ _ _ _ _
               (teach_location_after_failed_locate location robot_id st _
                  ltac:(rewrite Hlocate; reflexivity))).
    rewrite Hlocate. eauto.
  - unfold set_profile. rewrite Hlen. cbn [Nat.eqb].
    rewrite (bind_raise _ _ _ _ _ (Hexchange _)). eauto.
Qed.

Lemma undecodable_reply_reaches_the_caller_witness :
  let st := sample (always Undecodable) in
  net st (opened st) = Undecodable
  /\ fst (run documented_rest StopRobot st) = Raise UnicodeDecodeError
  /\ new_events st (snd (run documented_rest StopRobot st))
     = [Created 0%nat; Connected 0%nat "192.168.0.1" 10100;
        Sent 0%nat ("halt" +:+ nl); Undecoded 0%nat]
  /\ fst (run documented_rest LocateRobot st) = Raise UnicodeDecodeError.
Proof.
  intros st. split; [reflexivity |].
  pose proof (undecodable_reply_reaches_the_caller documented_rest st eq_refl) as H.
  split; [apply (H StopRobot); tauto |].
  split; [reflexivity |].
  apply (H LocateRobot). tauto.
Defined.

(** ** Jobs *)

Section Jobs.

Variable st0 : state.
Variable joints : string -> list number.

Lemma tries_from_seq (off : nat) (m k : M unit) (a b : list string) :
  tries_from st0 off m a ->
  tries_from st0 (off + length a) k b ->
  tries_from st0 off (bind m (fun _ => k)) (a ++ b).
Proof.
  intros Hm Hk st Hnet Hloc Hop. apply tries_seq; [now apply Hm |].
  intros st1 Hop1 Hnet1 Hloc1. apply Hk; [congruence | congruence | lia].
Qed.

Lemma tries_from_sleep (off : nat) (seconds : Z) (k : M unit) (b : list string) :
  tries_from st0 off k b -> tries_from st0 off (bind (sleep seconds) (fun _ => k)) b.
Proof. intros Hk st Hnet Hloc Hop. now apply Hk. Qed.

Lemma tries_from_getitem {A} (off : nat) (l : list A) (i : nat) (x : A)
    (k : A -> M unit) (b : list string) :
  l !! i = Some x -> tries_from st0 off (k x) b ->
  tries_from st0 off (bind (getitem l i) k) b.
Proof.
  intros Hx Hk st Hnet Hloc Hop. unfold tries, bind, getitem. rewrite Hx.
  now apply Hk.
Qed.

Lemma tries_from_move_single (off : nat) :
  location_dictionary st0 !! "HomeALL" = Some (joints "HomeALL") ->
  goes_on (net st0 (opened st0 + off)) = true ->
  tries_from st0 off (move_single "HomeALL" 2 false false) [home_move joints].
Proof.
  intros Hkey Hconn st Hnet Hloc Hop. apply tries_move_single.
  - now rewrite Hloc.
  - auto.
  - now rewrite Hnet, Hop.
Qed.

(** The hypotheses of a routine, read from those on [st0]. *)
Ltac from_start Hkeys Hconn Hnet Hloc Hop :=
  first
    [ rewrite Hloc; apply Hkeys; apply list_elem_of_In; simpl; tauto
    | let i := fresh "i" in
      let Hi := fresh "Hi" in
      intros i Hi; rewrite Hnet, Hop, <- Nat.add_assoc; apply Hconn; lia ].

Lemma tries_from_pick_plate_ot2 (off : nat) (elided : list pick_up_command)
    (ot2_ID : Z) :
  (forall key : string, key ∈ station_keys ot2_ID ->
                        location_dictionary st0 !! key = Some (joints key)) ->
  (forall i : nat, (off <= i < off + (2 + length elided))%nat ->
                   goes_on (net st0 (opened st0 + i)) = true) ->
  tries_from st0 off (pick_plate_ot2 elided ot2_ID 0) (pick_moves joints elided ot2_ID).
Proof.
  intros Hkeys Hconn st Hnet Hloc Hop.
  apply (tries_pick_plate_ot2 elided ot2_ID 0 st);
    from_start Hkeys Hconn Hnet Hloc Hop.
Qed.

Lemma tries_from_drop_plate_ot2 (off : nat) (ot2_ID : Z) :
  (forall key : string, key ∈ station_keys ot2_ID ->
                        location_dictionary st0 !! key = Some (joints key)) ->
  (forall i : nat, (off <= i < off + 6)%nat ->
                   goes_on (net st0 (opened st0 + i)) = true) ->
  tries_from st0 off (drop_plate_ot2 ot2_ID 0) (drop_moves joints ot2_ID).
Proof.
  intros Hkeys Hconn st Hnet Hloc Hop.
  apply (tries_drop_plate_ot2 ot2_ID 0 st); from_start Hkeys Hconn Hnet Hloc Hop.
Qed.

Lemma tries_from_pick_plate_from_rack (off : nat) (ot2_ID : Z) :
  (forall key : string, key ∈ rack_keys ot2_ID ->
                        location_dictionary st0 !! key = Some (joints key)) ->
  (forall i : nat, (off <= i < off + 6)%nat ->
                   goes_on (net st0 (opened st0 + i)) = true) ->
  tries_from st0 off (pick_plate_from_rack ot2_ID 0) (rack_moves joints ot2_ID).
Proof.
  intros Hkeys Hconn st Hnet Hloc Hop.
  apply (tries_pick_plate_from_rack ot2_ID 0 st);
    from_start Hkeys Hconn Hnet Hloc Hop.
Qed.

Lemma tries_from_drop_complete_plate (off : nat) :
  (forall key : string, key ∈ bin_keys ->
                        location_dictionary st0 !! key = Some (joints key)) ->
  (forall i : nat, (off <= i < off + 4)%nat ->
                   goes_on (net st0 (opened st0 + i)) = true) ->
  tries_from st0 off (drop_complete_plate 0) (bin_moves joints).
Proof.
  intros Hkeys Hconn st Hnet Hloc Hop.
  apply (tries_drop_complete_plate 0 st); from_start Hkeys Hconn Hnet Hloc Hop.
Qed.

End Jobs.

Lemma pick_moves_length (joints : string -> list number)
    (elided : list pick_up_command) (ot2_ID : Z) :
  length (pick_moves joints elided ot2_ID) = (2 + length elided)%nat.
Proof. unfold pick_moves. cbv zeta. now rewrite length_app, length_map. Qed.

(** Discharges the table and network hypotheses of each step of a job. *)
Ltac job_step Hkeys Hconn :=
  intros;
  first
    [ apply Hkeys; unfold transfer_keys, full_transfer_keys;
      rewrite ?elem_of_cons, ?elem_of_app; intuition auto
    | apply Hconn; rewrite ?length_app, ?pick_moves_length in *;
      unfold drop_moves, rack_moves, bin_moves in *;
      cbn [length Nat.add] in *; lia ].

(** X9. The job [TRANSFER], in any letter case, on station identifiers
    [source] and [target].  With [HomeALL] and the three locations of each
    station in the table, and sockets that connect and whose replies decode,
    [program_robot_target] returns [None] after trying, each on a socket of
    its own: the move to [HomeALL] at profile 2; the moves of [pick_plate_ot2]
    on [source], which are front and above the plate at profile 2 and then
    whatever line 335 elides; the six moves of [drop_plate_ot2] on [target].
    The moves that go out are those whose socket lets the send through. *)
Theorem program_robot_target_transfer (elided : list pick_up_command) (job : string)
    (robot_ID_list : list Z) (source target : Z) (joints : string -> list number)
    (st : state) :
  upper job = "TRANSFER" ->
  robot_ID_list !! 0%nat = Some source ->
  robot_ID_list !! 1%nat = Some target ->
  (forall key : string, key ∈ transfer_keys source target ->
                        location_dictionary st !! key = Some (joints key)) ->
  (forall i : nat, (i < 9 + length elided)%nat ->
                   goes_on (net st (opened st + i)) = true) ->
  let call := program_robot_target elided job robot_ID_list st in
  fst call = Ok tt
  /\ opened (snd call) = (opened st + (9 + length elided))%nat
  /\ location_dictionary (snd call) = location_dictionary st
  /\ sent (new_events st (snd call))
     = delivered (net st) (opened st) (transfer_moves joints elided source target).
Proof.
  intros Hjob Hsource Htarget Hkeys Hconn call. subst call.
  assert (H : tries_from st 0 (program_robot_target elided job robot_ID_list)
                (transfer_moves joints elided source target)).
  { unfold program_robot_target. rewrite Hjob. cbn [String.eqb Ascii.eqb Bool.eqb].
    apply (tries_from_getitem st 0 _ _ _ _ _ Hsource).
    apply (tries_from_getitem st 0 _ _ _ _ _ Htarget).
    apply (tries_from_seq st 0 _ _ [home_move joints]).
    { apply tries_from_move_single; job_step Hkeys Hconn. }
    apply (tries_from_getitem st _ _ _ _ _ _ Hsource).
    apply tries_from_seq.
    { apply tries_from_pick_plate_ot2; job_step Hkeys Hconn. }
    apply (tries_from_getitem st _ _ _ _ _ _ Htarget).
    apply tries_from_drop_plate_ot2; job_step Hkeys Hconn. }
  destruct (tries_result _ _ _ (H st eq_refl eq_refl (eq_sym (Nat.add_0_r _))))
    as (Hres & Hop & Hloc & Hsent).
  repeat split; try assumption.
  rewrite Hop. unfold transfer_moves. cbn [length].
  rewrite length_app, pick_moves_length. cbn [drop_moves length]. lia.
Qed.

Lemma program_robot_target_transfer_witness :
  let st := sample (always (Replies "0")) in
  let joints := fun key => default [] (sample_locations !! key) in
  upper "Transfer" = "TRANSFER"
  /\ [1; 1] !! 0%nat = Some 1
  /\ [1; 1] !! 1%nat = Some 1
  /\ (forall key : string, key ∈ transfer_keys 1 1 ->
                           location_dictionary st !! key = Some (joints key))
  /\ (forall i : nat, (i < 9 + length documented_rest)%nat ->
                      goes_on (net st (opened st + i)) = true)
  /\ fst (program_robot_target documented_rest "Transfer" [1; 1] st) = Ok tt
  /\ length (sent (new_events st
                    (snd (program_robot_target documented_rest "Transfer" [1; 1] st))))
     = 13%nat
  /\ sent (new_events st (snd (program_robot_target [] "Transfer" [1; 1] st)))
     = transfer_moves joints [] 1 1.
Proof.
  intros st joints.
  assert (Hkeys : forall key : string, key ∈ transfer_keys 1 1 ->
                    location_dictionary st !! key = Some (joints key)).
  { intros key Hin. apply list_elem_of_In in Hin. simpl in Hin.
    repeat destruct Hin as [<- | Hin]; try reflexivity. destruct Hin. }
  assert (Hconn : forall n i : nat, (i < n)%nat ->
                    goes_on (net st (opened st + i)) = true)
    by (intros n i _; reflexivity).
  do 3 (split; [reflexivity |]). split; [exact Hkeys |]. split; [apply Hconn |].
  destruct (program_robot_target_transfer documented_rest "Transfer" [1; 1] 1 1 joints st
              eq_refl eq_refl eq_refl Hkeys (Hconn _)) as (Hres & _ & _ & Hsent).
  destruct (program_robot_target_transfer [] "Transfer" [1; 1] 1 1 joints st
              eq_refl eq_refl eq_refl Hkeys (Hconn _)) as (_ & _ & _ & Hsent0).
  split; [exact Hres |]. split; [rewrite Hsent; reflexivity |].
  rewrite Hsent0. reflexivity.
Defined.

(** X10. The job [FULL_TRANSFER], in any letter case, ignores the identifier
    list.  With [HomeALL], the rack of station 1, stations 1 to 3 and the bin
    in the table, and sockets that connect and whose replies decode,
    [program_robot_target] returns [None] after trying its moves in this
    order: [HomeALL]; rack pick and drop on station 1; pick on 1 and drop on
    2; pick on 2 and drop on 3; pick on 3 and drop into the bin.  Each pick on
    a station is front and above the plate at profile 2 and then whatever line
    335 elides: 35 moves, and three times what is elided. *)
Theorem program_robot_target_full_transfer (elided : list pick_up_command)
    (job : string) (robot_ID_list : list Z) (joints : string -> list number)
    (st : state) :
  upper job = "FULL_TRANSFER" ->
  (forall key : string, key ∈ full_transfer_keys ->
                        location_dictionary st !! key = Some (joints key)) ->
  (forall i : nat, (i < 35 + 3 * length elided)%nat ->
                   goes_on (net st (opened st + i)) = true) ->
  let call := program_robot_target elided job robot_ID_list st in
  fst call = Ok tt
  /\ opened (snd call) = (opened st + (35 + 3 * length elided))%nat
  /\ location_dictionary (snd call) = location_dictionary st
  /\ sent (new_events st (snd call))
     = delivered (net st) (opened st) (full_transfer_moves joints elided).
Proof.
  intros Hjob Hkeys Hconn call. subst call.
  assert (H : tries_from st 0 (program_robot_target elided job robot_ID_list)
                (full_transfer_moves joints elided)).
  { unfold program_robot_target. rewrite Hjob. cbn [String.eqb Ascii.eqb Bool.eqb].
    apply (tries_from_seq st 0 _ _ [home_move joints]).
    { apply tries_from_move_single; job_step Hkeys Hconn. }
    apply tries_from_seq.
    { apply tries_from_pick_plate_from_rack; job_step Hkeys Hconn. }
    apply tries_from_seq.
    { apply tries_from_drop_plate_ot2; job_step Hkeys Hconn. }
    apply tries_from_sleep. apply tries_from_seq.
    { apply tries_from_pick_plate_ot2; job_step Hkeys Hconn. }
    apply tries_from_seq.
    { apply tries_from_drop_plate_ot2; job_step Hkeys Hconn. }
    apply tries_from_sleep. apply tries_from_seq.
    { apply tries_from_pick_plate_ot2; job_step Hkeys Hconn. }
    apply tries_from_seq.
    { apply tries_from_drop_plate_ot2; job_step Hkeys Hconn. }
    apply tries_from_sleep. apply tries_from_seq.
    { apply tries_from_pick_plate_ot2; job_step Hkeys Hconn. }
    apply tries_from_drop_complete_plate; job_step Hkeys Hconn. }
  destruct (tries_result _ _ _ (H st eq_refl eq_refl (eq_sym (Nat.add_0_r _))))
    as (Hres & Hop & Hloc & Hsent).
  repeat split; try assumption.
  rewrite Hop. unfold full_transfer_moves. cbn [length].
  rewrite !length_app, !pick_moves_length.
  cbn [drop_moves rack_moves bin_moves length]. lia.
Qed.

Lemma program_robot_target_full_transfer_witness :
  let st := full_cell (always (Replies "0")) in
  let joints := fun _ : string => sample_joints 1 in
  upper "full_transfer" = "FULL_TRANSFER"
  /\ (forall key : string, key ∈ full_transfer_keys ->
                           location_dictionary st !! key = Some (joints key))
  /\ (forall i : nat, (i < 35 + 3 * length documented_rest)%nat ->
                      goes_on (net st (opened st + i)) = true)
  /\ fst (program_robot_target documented_rest "full_transfer" [] st) = Ok tt
  /\ length (sent (new_events st
                    (snd (program_robot_target documented_rest "full_transfer" [] st))))
     = 47%nat.
Proof.
  intros st joints.
  assert (Hkeys : forall key : string, key ∈ full_transfer_keys ->
                    location_dictionary st !! key = Some (joints key)).
  { intros key Hin. apply list_elem_of_In in Hin. simpl in Hin.
    repeat destruct Hin as [<- | Hin]; try reflexivity. destruct Hin. }
  assert (Hconn : forall i : nat, (i < 35 + 3 * length documented_rest)%nat ->
                    goes_on (net st (opened st + i)) = true)
    by (intros i _; reflexivity).
  split; [reflexivity |]. split; [exact Hkeys |]. split; [exact Hconn |].
  destruct (program_robot_target_full_transfer documented_rest "full_transfer" []
              joints st eq_refl Hkeys Hconn) as (Hres & _ & _ & Hsent).
  split; [exact Hres |]. rewrite Hsent. reflexivity.
Defined.

(** ** The overwrite loop of teach *)

Lemma set_joint_ok (key : string) (count : nat) (value : number) (st : state)
    (joints : list number) :
  location_dictionary st !! key = Some joints ->
  (count < length joints)%nat ->
  set_joint key count value st
  = (Ok tt, set_location_dictionary
              (<[key := <[count := value]> joints]> (location_dictionary st)) st).
Proof.
  intros Hkey Hlt. unfold set_joint, bind, location. rewrite Hkey.
  apply Nat.ltb_lt in Hlt. now rewrite Hlt.
Qed.

Lemma overwrite_loop (key : string) (current_location : list Z) (rest : list number) :
  forall (done : list number) (st : state),
    location_dictionary st !! key = Some (done ++ rest)%list ->
    let call :=
      for_each (enumerate_from (length done) rest)
        (fun item =>
           value <- getitem current_location (fst item) ;;
           set_joint key (fst item) (NInt value)) st in
    location_dictionary (snd call)
    = <[key := (done ++ taught rest (drop (length done) current_location))%list]>
        (location_dictionary st)
    /\ fst call
       = if (length rest <=? length (drop (length done) current_location))%nat
         then Ok tt else Raise IndexError.
Proof.
  induction rest as [|joint rest IH]; intros done st Hkey call; subst call.
  - simpl. unfold taught. simpl. rewrite drop_nil, !app_nil_r.
    rewrite app_nil_r in Hkey. split; [now rewrite insert_id | reflexivity].
  - cbn [enumerate_from for_each fst].
    destruct (current_location !! length done) as [value |] eqn:Hvalue.
    + assert (Hlt : (length done < length (done ++ joint :: rest))%nat)
        by (rewrite length_app; simpl; lia).
      assert (Hstep :
                (value <- getitem current_location (length done) ;;
                 set_joint key (length done) (NInt value)) st
                = (Ok tt, set_location_dictionary
                            (<[key := <[length done := NInt value]>
                                        (done ++ joint :: rest)%list]>
                               (location_dictionary st)) st)).
      { unfold bind at 1, getitem. rewrite Hvalue. cbn [ret].
        exact (set_joint_ok key (length done) (NInt value) st _ Hkey Hlt). }
      rewrite (bind_ok _ _ _ _ _ Hstep).
      rewrite insert_app_r_alt by lia. rewrite Nat.sub_diag.
      change (<[0%nat := NInt value]> (joint :: rest)) with (NInt value :: rest).
      specialize (IH (done ++ [NInt value])%list
                    (set_location_dictionary
                       (<[key := (done ++ NInt value :: rest)%list]>
                          (location_dictionary st)) st)).
      rewrite length_app, Nat.add_1_r in IH. cbn [length] in IH.
      destruct IH as [IHtable IHresult].
      { cbn. rewrite lookup_insert_eq. now rewrite <- app_assoc. }
      rewrite IHtable, IHresult. cbn [location_dictionary set_location_dictionary].
      rewrite insert_insert_eq.
      rewrite (drop_S _ _ _ Hvalue). unfold taught. cbn [length take drop fmap list_fmap].
      rewrite <- !app_assoc. split; reflexivity.
    + assert (Hstep :
                (value <- getitem current_location (length done) ;;
                 set_joint key (length done) (NInt value)) st
                = (Raise IndexError, st)).
      { unfold bind, getitem. rewrite Hvalue. reflexivity. }
      rewrite (bind_raise _ _ _ _ _ Hstep).
      apply lookup_ge_None in Hvalue.
      rewrite drop_ge by lia. unfold taught. cbn [length take fmap list_fmap drop app].
      cbn [fst snd]. split; [now rewrite insert_id | reflexivity].
Qed.

Lemma overwrite_spec (key : string) (current_location : list Z) (st : state)
    (joints : list number) :
  location_dictionary st !! key = Some joints ->
  location_dictionary (snd (overwrite key current_location st))
  = <[key := taught joints current_location]> (location_dictionary st)
  /\ fst (overwrite key current_location st)
     = if (length joints <=? length current_location)%nat
       then Ok tt else Raise IndexError.
Proof.
  intros Hkey. unfold overwrite.
  assert (Hlookup : location key st = (Ok joints, st))
    by (unfold location; now rewrite Hkey).
  rewrite (bind_ok _ _ _ _ _ Hlookup).
  exact (overwrite_loop key current_location joints [] st Hkey).
Qed.

Lemma overwrite_missing (key : string) (current_location : list Z) (st : state) :
  location_dictionary st !! key = None ->
  overwrite key current_location st = (Raise (KeyError key), st).
Proof.
  intros Hkey. unfold overwrite, bind, location. now rewrite Hkey.
Qed.

Lemma taught_length (joints : list number) (current_location : list Z) :
  length (taught joints current_location) = length joints.
Proof.
  unfold taught. rewrite length_app, length_fmap, length_take, length_drop. lia.
Qed.

(** [teach_location] after its position query. *)
Lemma teach_location_cases (location : string) (robot_id : option Z) (st : state) :
  teach_location location robot_id st =
  match locate_robot st with
  | (Ok current_location, st1) =>
      (Ok tt,
       match robot_id with
       | Some robot_id =>
           match station_location location robot_id with
           | Some key_name => snd (overwrite key_name current_location st1)
           | None => st1
           end
       | None => st1
       end)
  | (Raise e, st1) => (Raise e, st1)
  end.
Proof.
  destruct robot_id as [robot_id |]; [| apply teach_location_global].
  unfold teach_location, bind at 1.
  destruct (locate_robot st) as [[current_location | e] st1]; [| reflexivity].
  rewrite try_catch_all. f_equal. unfold station_location, bind at 1. cbn.
  destruct (String.eqb (upper location) "FRONT"); [reflexivity |].
  destruct (String.eqb (upper location) "ABOVE_PLATE"); [reflexivity |].
  destruct (String.eqb (upper location) "PICK_PLATE"); [reflexivity |].
  destruct (String.eqb (upper location) "PLATE_RACK"); reflexivity.
Qed.

(** X11. [teach_location] with a station identifier and one of the names
    [front], [above_plate], [pick_plate], [plate_rack] (in any letter case),
    when the position query is answered with integers and the station location
    is in the table: the call returns [None], and in that entry the reported
    coordinates replace the joint values from the front, as far as both lists
    go.  With at least as many coordinates as joint values the whole entry is
    overwritten; with fewer, the [IndexError] of the loop is caught and the
    entry is left half overwritten.  Every other entry is as before. *)
Theorem teach_location_station (location : string) (robot_id : Z) (st : state)
    (text : string) (current_location : list Z) (key_name : string)
    (joints : list number) :
  station_location location robot_id = Some key_name ->
  net st (opened st) = Replies text ->
  map_result int (str_split space text) = Ok current_location ->
  location_dictionary st !! key_name = Some joints ->
  let call := teach_location location (Some robot_id) st in
  fst call = Ok tt
  /\ location_dictionary (snd call)
     = <[key_name := taught joints current_location]> (location_dictionary st)
  /\ ((length joints <= length current_location)%nat ->
      location_dictionary (snd call) !! key_name
      = Some (NInt <$> take (length joints) current_location))
  /\ (forall other : string,
        other <> key_name ->
        location_dictionary (snd call) !! other = location_dictionary st !! other).
Proof.
  intros Hname Hs Hparse Hkey call. subst call.
  rewrite teach_location_cases, Hname.
  pose proof (locations_locate_robot st) as Hloc.
  assert (Hlocate : fst (locate_robot st) = Ok current_location).
  { rewrite locate_robot_cases. cbv zeta. rewrite Hs, Hparse. reflexivity. }
  destruct (locate_robot st) as [[coordinates | e] st1]; [| discriminate].
  cbn [fst snd] in *. injection Hlocate as ->.
  rewrite <- Hloc in Hkey.
  destruct (overwrite_spec key_name current_location st1 joints Hkey) as [Htable _].
  rewrite Htable, Hloc.
  split; [reflexivity |]. split; [reflexivity |]. split.
  - intros Hlen. rewrite lookup_insert_eq. unfold taught.
    rewrite drop_ge by lia. now rewrite app_nil_r.
  - intros other Hother. now rewrite lookup_insert_ne.
Qed.

Lemma teach_location_station_witness :
  let st := sample (always (Replies "5 6 7 8")) in
  station_location "Front" 1 = Some "OT2_1_front"
  /\ net st (opened st) = Replies "5 6 7 8"
  /\ map_result int (str_split space "5 6 7 8") = Ok [5; 6; 7; 8]
  /\ location_dictionary st !! "OT2_1_front" = Some (sample_joints 10)
  /\ fst (teach_location "Front" (Some 1) st) = Ok tt
  /\ location_dictionary (snd (teach_location "Front" (Some 1) st)) !! "OT2_1_front"
     = Some [NInt 5; NInt 6; NInt 7; NInt 8; NFloat "79.0"; NInt 995].
Proof.
  intros st. do 4 (split; [reflexivity |]).
  destruct (teach_location_station "Front" 1 st "5 6 7 8" [5; 6; 7; 8] "OT2_1_front"
              (sample_joints 10) eq_refl eq_refl eq_refl eq_refl)
    as (Hres & Htable & _ & _).
  split; [exact Hres |]. rewrite Htable, lookup_insert_eq. reflexivity.
Defined.

(** X12. [teach_location] never changes the shape of the location table:
    whatever the name, the station identifier, the table and the network, after
    the call every location name is present exactly when it was before, and
    its entry has as many joint values as before. *)
Theorem teach_location_keeps_shape (location : string) (robot_id : option Z)
    (st : state) (key : string) :
  length <$> (location_dictionary (snd (teach_location location robot_id st)) !! key)
  = length <$> (location_dictionary st !! key).
Proof.
  rewrite teach_location_cases.
  pose proof (locations_locate_robot st) as Hloc.
  destruct (locate_robot st) as [[current_location | e] st1]; cbn [fst snd] in *;
    [| now rewrite Hloc].
  rewrite <- Hloc.
  destruct robot_id as [robot_id |]; [| reflexivity].
  destruct (station_location location robot_id) as [key_name |]; [| reflexivity].
  destruct (location_dictionary st1 !! key_name) as [joints |] eqn:Hkey.
  - destruct (overwrite_spec key_name current_location st1 joints Hkey) as [-> _].
    destruct (decide (key_name = key)) as [<- | Hne].
    + rewrite lookup_insert_eq, Hkey. cbn. now rewrite taught_length.
    + now rewrite lookup_insert_ne.
  - now rewrite (overwrite_missing key_name current_location st1 Hkey).
Qed.

(** ** Characters of a text *)

Section CodePoints.

Lemma two_bytes_high (b0 b1 cp : N) :
  two_bytes b0 b1 = Some cp -> (128 <= b0 /\ 128 <= b1)%N.
Proof.
  unfold two_bytes, continuation, between. intros H.
  destruct (N.leb_spec 194 b0), (N.leb_spec 128 b1); try lia;
    rewrite ?andb_false_r in H; discriminate.
Qed.

Lemma three_bytes_high (b0 b1 b2 cp : N) :
  three_bytes b0 b1 b2 = Some cp -> (128 <= b0 /\ 128 <= b1 /\ 128 <= b2)%N.
Proof.
  unfold three_bytes, continuation, between. intros H.
  destruct (N.leb_spec 224 b0), (N.leb_spec 128 b2),
    (N.leb_spec (if (b0 =? 224)%N then 160 else 128) b1);
    try (destruct (b0 =? 224)%N; lia);
    rewrite ?andb_false_r in H; discriminate.
Qed.

Lemma four_bytes_high (b0 b1 b2 b3 cp : N) :
  four_bytes b0 b1 b2 b3 = Some cp ->
  (128 <= b0 /\ 128 <= b1 /\ 128 <= b2 /\ 128 <= b3)%N.
Proof.
  unfold four_bytes, continuation, between. intros H.
  destruct (N.leb_spec 240 b0), (N.leb_spec 128 b2), (N.leb_spec 128 b3),
    (N.leb_spec (if (b0 =? 240)%N then 144 else 128) b1);
    try (destruct (b0 =? 240)%N; lia);
    rewrite ?andb_false_r in H; discriminate.
Qed.

(** How [code_points] reads the head of a text: one byte on its own, or a
    sequence of two, three or four bytes, none of them ASCII. *)
Lemma code_points_step (c0 : ascii) (s1 : string) :
  code_points (String c0 s1) = lone_byte (N_of_ascii c0) :: code_points s1
  \/ exists (cp : N) (skipped : list ascii) (rest : string),
       code_points (String c0 s1) = cp :: code_points rest
       /\ list_ascii_of_string s1 = (skipped ++ list_ascii_of_string rest)%list
       /\ (128 <= N_of_ascii c0)%N
       /\ Forall (fun c => (128 <= N_of_ascii c)%N) skipped.
Proof.
  destruct s1 as [|c1 s2]; [left; reflexivity |].
  destruct (two_bytes (N_of_ascii c0) (N_of_ascii c1)) as [cp |] eqn:E2.
  { right. exists cp, [c1], s2. apply two_bytes_high in E2 as H.
    split; [cbn [code_points]; now rewrite E2 |].
    split; [reflexivity |]. split; [tauto |]. repeat constructor. tauto. }
  destruct s2 as [|c2 s3]; [left; cbn [code_points]; now rewrite E2 |].
  destruct (three_bytes (N_of_ascii c0) (N_of_ascii c1) (N_of_ascii c2))
    as [cp |] eqn:E3.
  { right. exists cp, [c1; c2], s3. apply three_bytes_high in E3 as H.
    split; [cbn [code_points]; now rewrite E2, E3 |].
    split; [reflexivity |]. split; [tauto |]. repeat constructor; tauto. }
  destruct s3 as [|c3 s4]; [left; cbn [code_points]; now rewrite E2, E3 |].
  destruct (four_bytes (N_of_ascii c0) (N_of_ascii c1) (N_of_ascii c2)
              (N_of_ascii c3)) as [cp |] eqn:E4.
  { right. exists cp, [c1; c2; c3], s4. apply four_bytes_high in E4 as H.
    split; [cbn [code_points]; now rewrite E2, E3, E4 |].
    split; [reflexivity |]. split; [tauto |]. repeat constructor; tauto. }
  left. cbn [code_points]. now rewrite E2, E3, E4.
Qed.

Lemma code_points_ascii_head (c : ascii) (s : string) :
  (N_of_ascii c < 128)%N ->
  code_points (String c s) = N_of_ascii c :: code_points s.
Proof.
  intros Hc. destruct (code_points_step c s) as [-> | (cp & sk & rest & _ & _ & H & _)].
  - unfold lone_byte. apply N.ltb_lt in Hc. now rewrite Hc.
  - lia.
Qed.

(** An ASCII character of a text is one of its code points. *)
Lemma code_points_keep (c : ascii) :
  (N_of_ascii c < 128)%N ->
  forall (n : nat) (s : string),
    (length (list_ascii_of_string s) <= n)%nat -> In c (list_ascii_of_string s) ->
    In (N_of_ascii c) (code_points s).
Proof.
  intros Hc. induction n as [|n IH]; intros s Hlen Hin.
  - destruct s; [destruct Hin | simpl in Hlen; lia].
  - destruct s as [|c0 s1]; [destruct Hin |].
    cbn [list_ascii_of_string length] in Hlen.
    destruct (code_points_step c0 s1)
      as [-> | (cp & skipped & rest & -> & Hs1 & Hc0 & Hskipped)].
    + destruct Hin as [-> | Hin].
      * left. unfold lone_byte. apply N.ltb_lt in Hc. now rewrite Hc.
      * right. apply IH; [lia | exact Hin].
    + right. apply IH.
      * apply (f_equal (@length ascii)) in Hs1.
        rewrite length_app in Hs1. lia.
      * cbn [list_ascii_of_string] in Hin. rewrite Hs1 in Hin.
        destruct Hin as [-> | Hin]; [lia |].
        apply in_app_or in Hin as [Hin | Hin]; [| exact Hin].
        rewrite Forall_forall in Hskipped.
        apply list_elem_of_In, Hskipped in Hin. lia.
Qed.

Lemma int_character_ascii (c : ascii) :
  (N_of_ascii c < 127)%N -> int_character (N_of_ascii c) = c.
Proof.
  intros Hc. unfold int_character. apply N.ltb_lt in Hc. rewrite Hc.
  apply ascii_N_embedding.
Qed.

(** [int] reads a text of ASCII characters as it stands. *)
Lemma int_characters_plain (s : string) :
  Forall (fun c => (N_of_ascii c < 127)%N) (list_ascii_of_string s) ->
  map int_character (code_points s) = list_ascii_of_string s.
Proof.
  induction s as [|c s IH]; intros Hs; [reflexivity |].
  cbn [list_ascii_of_string] in *. inversion Hs as [|? ? Hc Hrest]; subst.
  rewrite code_points_ascii_head by lia. cbn [map].
  now rewrite int_character_ascii, IH.
Qed.

(** An ASCII character of a text is among the characters [int] reads. *)
Lemma int_characters_keep (c : ascii) (s : string) :
  (N_of_ascii c < 127)%N -> In c (list_ascii_of_string s) ->
  In c (map int_character (code_points s)).
Proof.
  intros Hc Hin. rewrite <- (int_character_ascii c Hc). apply in_map.
  apply (code_points_keep c ltac:(lia) (length (list_ascii_of_string s)));
    [lia | exact Hin].
Qed.

End CodePoints.

(** ** Integers printed and read back *)

Section Decimal.

Lemma of_uint_acc_value (d : Decimal.uint) : forall acc : positive,
  Z.pos (Pos.of_uint_acc d acc) = uint_value d (Z.pos acc).
Proof.
  induction d; intros acc; cbn [Pos.of_uint_acc uint_value];
    try reflexivity; rewrite IHd; f_equal; lia.
Qed.

Lemma of_uint_value (d : Decimal.uint) : Z.of_N (Pos.of_uint d) = uint_value d 0.
Proof.
  induction d; cbn [Pos.of_uint uint_value]; try reflexivity; try exact IHd;
    cbn [Z.of_N]; now rewrite of_uint_acc_value.
Qed.

Lemma int_digits_uint (d : Decimal.uint) : forall (acc : Z) (after_digit : bool),
  int_digits acc after_digit (list_ascii_of_string (NilEmpty.string_of_uint d))
  = match d with
    | Decimal.Nil => if after_digit then Some acc else None
    | _ => Some (uint_value d acc)
    end.
Proof.
  induction d; intros acc after_digit; [reflexivity | ..];
    cbn [NilEmpty.string_of_uint list_ascii_of_string int_digits];
    (match goal with
     | |- context [digit_of ?c] =>
         change (digit_of c) with (Some (Z.of_nat (nat_of_ascii c - 48)))
     end);
    cbv iota; rewrite IHd; destruct d; reflexivity.
Qed.

Lemma uint_chars_plain (d : Decimal.uint) :
  Forall (fun c => is_py_space c = false /\ Ascii.eqb c "-" = false
                   /\ Ascii.eqb c "+" = false /\ (N_of_ascii c < 127)%N)
         (list_ascii_of_string (NilEmpty.string_of_uint d)).
Proof.
  induction d; cbn [NilEmpty.string_of_uint list_ascii_of_string];
    constructor; auto; repeat split; reflexivity.
Qed.

Lemma uint_spaceless (d : Decimal.uint) :
  spaceless (NilEmpty.string_of_uint d) = true.
Proof. induction d; cbn [NilEmpty.string_of_uint spaceless]; auto. Qed.

Lemma lstrip_plain (s : list ascii) :
  Forall (fun c => is_py_space c = false) s -> lstrip s = s.
Proof. intros [|c s' Hc _]; [reflexivity |]. simpl. now rewrite Hc. Qed.

Lemma strip_plain (s : list ascii) :
  Forall (fun c => is_py_space c = false) s -> strip s = s.
Proof.
  intros Hs. unfold strip. rewrite (lstrip_plain s Hs).
  rewrite lstrip_plain by now apply Forall_rev. apply rev_involutive.
Qed.

(** [int(str(z)) == z] for every integer. *)
Lemma int_str_int (z : Z) : int (str_int z) = Ok z.
Proof.
  assert (Hpos : forall p : positive,
             NilZero.string_of_uint (Pos.to_uint p)
             = NilEmpty.string_of_uint (Pos.to_uint p)
             /\ int_digits 0 false
                  (list_ascii_of_string (NilEmpty.string_of_uint (Pos.to_uint p)))
                = Some (Z.pos p)).
  { intros p. pose proof (DecimalPos.Unsigned.to_uint_nonnil p) as Hnil.
    pose proof (DecimalPos.Unsigned.of_to p) as Hof.
    rewrite int_digits_uint, <- of_uint_value, Hof.
    destruct (Pos.to_uint p); [congruence | auto ..]. }
  destruct z as [| p | p]; [reflexivity | ..]; destruct (Hpos p) as [Hstr Hdigits];
    unfold int, str_int; cbn [Z.to_int NilZero.string_of_int]; rewrite Hstr;
    pose proof (uint_chars_plain (Pos.to_uint p)) as Hplain.
  - rewrite int_characters_plain
      by (eapply Forall_impl; [exact Hplain | cbn; tauto]).
    rewrite strip_plain by (eapply Forall_impl; [exact Hplain | cbn; tauto]).
    destruct (list_ascii_of_string (NilEmpty.string_of_uint (Pos.to_uint p)))
      as [|c rest] eqn:Hchars; [discriminate |].
    inversion Hplain as [|? ? (_ & Hminus & Hplus & _) _]; subst.
    rewrite Hminus, Hplus, Hdigits. reflexivity.
  - rewrite int_characters_plain
      by (cbn [list_ascii_of_string]; constructor;
          [reflexivity | eapply Forall_impl; [exact Hplain | cbn; tauto]]).
    cbn [list_ascii_of_string].
    rewrite strip_plain
      by (constructor; [reflexivity | eapply Forall_impl; [exact Hplain | cbn; tauto]]).
    cbn [Ascii.eqb Bool.eqb]. cbv iota. rewrite Hdigits. reflexivity.
Qed.

Lemma str_int_spaceless (z : Z) : spaceless (str_int z) = true.
Proof.
  unfold str_int.
  destruct z as [| p | p]; [reflexivity | ..];
    cbn [Z.to_int NilZero.string_of_int];
    pose proof (DecimalPos.Unsigned.to_uint_nonnil p) as Hnil;
    pose proof (uint_spaceless (Pos.to_uint p)) as Hs;
    destruct (Pos.to_uint p); try congruence; exact Hs.
Qed.

Lemma str_split_join_with_spaces (fields : list string) :
  fields <> [] ->
  Forall (fun field => spaceless field = true) fields ->
  str_split space (join_with_spaces fields) = fields.
Proof.
  induction fields as [|field fields IH]; intros Hne Hs; [congruence |].
  inversion Hs as [|? ? Hfield Hrest]; subst.
  destruct fields as [|field' fields].
  - now apply str_split_last.
  - cbn [join_with_spaces]. rewrite (str_split_field _ _ Hfield).
    f_equal. apply IH; [discriminate | exact Hrest].
Qed.

Lemma map_result_int_str (zs : list Z) : map_result int (map str_int zs) = Ok zs.
Proof.
  induction zs as [|z zs IH]; [reflexivity |].
  cbn [map map_result]. now rewrite int_str_int, IH.
Qed.

End Decimal.

(** X13. A round trip through [locate_robot]: when the robot answers the
    position query with integers printed as [str] prints them (negative ones
    too) and joined by single spaces, and there is at least one,
    [locate_robot] returns exactly these integers, in order, and closes its
    socket. *)
Theorem locate_robot_reads_back_integers (st : state) (coordinates : list Z) :
  coordinates <> [] ->
  net st (opened st) = Replies (join_with_spaces (map str_int coordinates)) ->
  fst (locate_robot st) = Ok coordinates
  /\ In (Closed (opened st)) (new_events st (snd (locate_robot st))).
Proof.
  intros Hne Hs. rewrite locate_robot_cases. cbv zeta. rewrite Hs.
  rewrite str_split_join_with_spaces.
  - rewrite map_result_int_str. cbn [fst snd]. split; [reflexivity |].
    unfold new_events. repeat first [rewrite trace_record | rewrite trace_open_next].
    rewrite <- !app_assoc, drop_app_length. simpl. tauto.
  - destruct coordinates; [congruence | discriminate].
  - apply Forall_map. apply Forall_forall. intros z _. apply str_int_spaceless.
Qed.

Lemma locate_robot_reads_back_integers_witness :
  let st := sample (always (Replies "-12 0 7 1000")) in
  [-12; 0; 7; 1000] <> []
  /\ net st (opened st) = Replies (join_with_spaces (map str_int [-12; 0; 7; 1000]))
  /\ fst (locate_robot st) = Ok [-12; 0; 7; 1000].
Proof.
  intros st.
  assert (Hne : [-12; 0; 7; 1000] <> []) by discriminate.
  split; [exact Hne |]. split; [reflexivity |].
  exact (proj1 (locate_robot_reads_back_integers st [-12; 0; 7; 1000] Hne eq_refl)).
Defined.

(** ** Replies that cannot be read *)

Section Unreadable.

Let point : ascii := "."%char.

Lemma int_digits_point (s : list ascii) : forall (acc : Z) (after_digit : bool),
  In point s -> int_digits acc after_digit s = None.
Proof.
  induction s as [|c s IH]; intros acc after_digit Hin; [destruct Hin |].
  cbn [int_digits]. destruct Hin as [-> | Hin].
  - reflexivity.
  - destruct (digit_of c); [now apply IH |].
    destruct (Ascii.eqb c "_" && after_digit); [now apply IH | reflexivity].
Qed.

Lemma lstrip_keeps (c : ascii) (s : list ascii) :
  is_py_space c = false -> In c s -> In c (lstrip s).
Proof.
  intros Hc. induction s as [|a s IH]; intros Hin; [destruct Hin |].
  cbn [lstrip]. destruct (is_py_space a) eqn:Ha; [| exact Hin].
  destruct Hin as [-> | Hin]; [congruence | now apply IH].
Qed.

Lemma strip_keeps (c : ascii) (s : list ascii) :
  is_py_space c = false -> In c s -> In c (strip s).
Proof.
  intros Hc Hin. unfold strip.
  apply -> in_rev. apply lstrip_keeps; [exact Hc |].
  apply -> in_rev. now apply lstrip_keeps.
Qed.

Lemma int_point (field : string) :
  In point (list_ascii_of_string field) -> int field = Raise ValueError.
Proof.
  intros Hin. unfold int.
  apply (int_characters_keep point field eq_refl) in Hin.
  apply (strip_keeps point _ eq_refl) in Hin.
  destruct (strip (map int_character (code_points field))) as [|c rest];
    [destruct Hin |].
  destruct (Ascii.eqb c "-") eqn:Hminus.
  - apply Ascii.eqb_eq in Hminus. subst c.
    destruct Hin as [Hin | Hin]; [discriminate |].
    now rewrite (int_digits_point rest 0 false Hin).
  - destruct (Ascii.eqb c "+") eqn:Hplus.
    + apply Ascii.eqb_eq in Hplus. subst c.
      destruct Hin as [Hin | Hin]; [discriminate |].
      now rewrite (int_digits_point rest 0 false Hin).
    + now rewrite (int_digits_point (c :: rest) 0 false Hin).
Qed.

Lemma str_split_nonempty (sep : ascii) (s : string) : str_split sep s <> [].
Proof.
  destruct s as [|c s]; simpl; [discriminate |].
  destruct (Ascii.eqb c sep); [discriminate |].
  destruct (str_split sep s); discriminate.
Qed.

Lemma str_split_keeps (c : ascii) (text : string) :
  c <> space -> In c (list_ascii_of_string text) ->
  exists field : string,
    In field (str_split space text) /\ In c (list_ascii_of_string field).
Proof.
  intros Hc. induction text as [|a text IH]; intros Hin; [destruct Hin |].
  cbn [list_ascii_of_string] in Hin. cbn [str_split].
  destruct (Ascii.eqb a space) eqn:Ha.
  - apply Ascii.eqb_eq in Ha. subst a.
    destruct Hin as [Hin | Hin]; [congruence |].
    destruct (IH Hin) as (field & Hfield & Hchar).
    exists field. split; [now right | exact Hchar].
  - pose proof (str_split_nonempty space text) as Hne.
    destruct (str_split space text) as [|first fields]; [congruence |].
    destruct Hin as [-> | Hin].
    + exists (String c first). split; [now left | now left].
    + destruct (IH Hin) as (field & [<- | Hfield] & Hchar).
      * exists (String a first). split; [now left | now right].
      * exists field. split; [now right | exact Hchar].
Qed.

Lemma map_result_int_fails (fields : list string) (field : string) :
  In field fields -> int field = Raise ValueError ->
  map_result int fields = Raise ValueError.
Proof.
  intros Hin Hfield. induction fields as [|x fields IH]; [destruct Hin |].
  cbn [map_result]. destruct (int x) as [z | e] eqn:Hx.
  - destruct Hin as [-> | Hin]; [congruence |]. now rewrite (IH Hin).
  - now rewrite (int_raises _ _ Hx).
Qed.

Lemma unreadable_reply (text : string) :
  text = "" \/ In point (list_ascii_of_string text) ->
  map_result int (str_split space text) = Raise ValueError.
Proof.
  intros [-> | Hin]; [reflexivity |].
  destruct (str_split_keeps point text ltac:(discriminate) Hin)
    as (field & Hfield & Hchar).
  exact (map_result_int_fails _ field Hfield (int_point field Hchar)).
Qed.

End Unreadable.

(** X14. When the reply to the position query is empty or holds a decimal
    point anywhere, [locate_robot] raises [ValueError]: [int] rejects the
    field, the handler for [socket.error] does not catch it, and the socket
    that received the reply is never closed. *)
Theorem locate_robot_rejects_decimal_reply (st : state) (text : string) :
  net st (opened st) = Replies text ->
  text = "" \/ In "."%char (list_ascii_of_string text) ->
  fst (locate_robot st) = Raise ValueError
  /\ In (Received (opened st) text) (new_events st (snd (locate_robot st)))
  /\ ~ In (Closed (opened st)) (new_events st (snd (locate_robot st))).
Proof.
  intros Hs Htext. rewrite locate_robot_cases. cbv zeta.
  rewrite Hs, (unreadable_reply text Htext). cbn [fst snd].
  unfold new_events. repeat first [rewrite trace_record | rewrite trace_open_next].
  rewrite <- !app_assoc, drop_app_length.
  split; [reflexivity |]. split; [simpl; tauto |].
  simpl. intros H. repeat destruct H as [H | H]; try discriminate H; exact H.
Qed.

Lemma locate_robot_rejects_decimal_reply_witness :
  let st := sample (always (Replies "0 231.788 10.5 70 4 79 995")) in
  net st (opened st) = Replies "0 231.788 10.5 70 4 79 995"
  /\ In "."%char (list_ascii_of_string "0 231.788 10.5 70 4 79 995")
  /\ fst (locate_robot st) = Raise ValueError.
Proof.
  intros st.
  assert (Hin : In "."%char (list_ascii_of_string "0 231.788 10.5 70 4 79 995"))
    by (simpl; tauto).
  split; [reflexivity |]. split; [exact Hin |].
  exact (proj1 (locate_robot_rejects_decimal_reply st _ eq_refl (or_intror Hin))).
Defined.

(** ** Locations with fewer than five joint values *)

Lemma arguments_from_short (grab release : bool) (joints : list number) :
  forall start : nat,
    (start + length joints <= 4)%nat ->
    arguments_from grab release start joints = arguments_from false false start joints.
Proof.
  induction joints as [|joint joints IH]; intros start Hlen; [reflexivity |].
  unfold arguments_from in *. cbn [enumerate_from map fst snd length] in *.
  rewrite IH by lia. f_equal. unfold argument_at.
  destruct (Nat.eqb_spec start 4); [lia | reflexivity].
Qed.

(** X15. For a location with at most four joint values the grip and release
    flags change nothing: there is no argument at index 4 to override, and
    [set_move_command] returns the same line as without flags. *)
Theorem set_move_command_short_location (self : state) (robot_location : string)
    (joints : list number) (profile : Z) (grab release : bool) :
  location_dictionary self !! robot_location = Some joints ->
  (length joints <= 4)%nat ->
  set_move_command self robot_location profile grab release
  = set_move_command self robot_location profile false false.
Proof.
  intros Hkey Hlen.
  destruct (Z.eq_dec profile 1) as [H1 | H1];
    [| destruct (Z.eq_dec profile 2) as [H2 | H2];
       [| destruct (Z.eq_dec profile 3) as [H3 | H3]]].
  1-3: rewrite !(set_move_command_text _ _ self robot_location joints profile Hkey)
         by tauto;
       now rewrite (arguments_from_short grab release joints 0) by (simpl; lia).
  unfold set_move_command.
  apply Z.eqb_neq in H1, H2, H3. now rewrite H1, H2, H3.
Qed.

Lemma set_move_command_short_location_witness :
  let st := mkState "192.168.0.1" 10100 [] {[ "Park" := [NInt 1; NInt 2; NInt 3] ]}
              (always (Replies "0")) 0 [] in
  location_dictionary st !! "Park" = Some [NInt 1; NInt 2; NInt 3]
  /\ (length [NInt 1; NInt 2; NInt 3] <= 4)%nat
  /\ set_move_command st "Park" 1 true false = Ok ("MoveJ 1 1 2 3" +:+ nl).
Proof.
  intros st.
  assert (Hlen : (length [NInt 1; NInt 2; NInt 3] <= 4)%nat) by (simpl; lia).
  split; [reflexivity |]. split; [exact Hlen |].
  rewrite (set_move_command_short_location st "Park" [NInt 1; NInt 2; NInt 3] 1
             true false eq_refl Hlen).
  reflexivity.
Defined.

(** ** Edges of the jobs and of teach *)

(** X16. The job [TRANSFER] reads both station identifiers for its log line
    before anything else: with fewer than two identifiers in the list the call
    raises [IndexError] and the state is untouched, so the robot is not even
    sent to [HomeALL]. *)
Theorem program_robot_target_transfer_needs_two_ids (elided : list pick_up_command)
    (job : string) (robot_ID_list : list Z) (st : state) :
  upper job = "TRANSFER" ->
  (length robot_ID_list < 2)%nat ->
  program_robot_target elided job robot_ID_list st = (Raise IndexError, st).
Proof.
  intros Hjob Hlen. unfold program_robot_target. rewrite Hjob.
  cbn [String.eqb Ascii.eqb Bool.eqb].
  destruct robot_ID_list as [|source [|target rest]]; try reflexivity.
  simpl in Hlen. lia.
Qed.

Lemma program_robot_target_transfer_needs_two_ids_witness :
  let st := sample (always (Replies "0")) in
  upper "transfer" = "TRANSFER"
  /\ (length [1] < 2)%nat
  /\ program_robot_target documented_rest "transfer" [1] st = (Raise IndexError, st).
Proof.
  intros st.
  assert (Hlen : (length [1] < 2)%nat) by (simpl; lia).
  split; [reflexivity |]. split; [exact Hlen |].
  exact (program_robot_target_transfer_needs_two_ids documented_rest "transfer" [1] st
           eq_refl Hlen).
Defined.

(** X17. Only [teach_location] can change the location table: every other
    operation that opens sockets leaves the table exactly as it was, whatever
    its arguments, whatever the network does, and whether it returns or
    raises. *)
Theorem only_teach_location_writes_the_table (elided : list pick_up_command)
    (op : operation) (st : state) :
  (forall (location : string) (robot_id : option Z),
     op <> TeachLocation location robot_id) ->
  location_dictionary (snd (run elided op st)) = location_dictionary st.
Proof. intros Hop. now apply locations_run. Qed.

Lemma only_teach_location_writes_the_table_witness :
  let st := sample (connect_fails_at 3) in
  let op := ProgramRobotTarget "transfer" [1; 1] in
  (forall (location : string) (robot_id : option Z),
     op <> TeachLocation location robot_id)
  /\ location_dictionary (snd (run documented_rest op st)) = location_dictionary st.
Proof.
  intros st op.
  assert (Hop : forall (location : string) (robot_id : option Z),
             op <> TeachLocation location robot_id) by discriminate.
  split; [exact Hop |].
  exact (only_teach_location_writes_the_table documented_rest op st Hop).
Defined.

(** X18. [teach_location] reports no failure of its own.  It raises exactly
    when its position query raises, with the same exception; once the query
    has returned, the call returns [None] whatever goes wrong afterwards: an
    unknown name, a station location missing from the table, or fewer
    coordinates than joint values.  It opens one socket, that of the query. *)
Theorem teach_location_raises_only_what_locate_raises (location : string)
    (robot_id : option Z) (st : state) :
  fst (teach_location location robot_id st)
  = match fst (locate_robot st) with
    | Ok _ => Ok tt
    | Raise e => Raise e
    end
  /\ opened (snd (teach_location location robot_id st)) = S (opened st).
Proof.
  split; [| apply teach_location_opened].
  rewrite teach_location_cases.
  destruct (locate_robot st) as [[current_location | e] st1]; reflexivity.
Qed.
